(** * The Brython [profile] module: statistics store, report, treemap

    A shallow embedding of [www/src/Lib/profile.py] and the properties of
    its [Stats], [MethodElement] and [CallGrind] classes.

    Python values are embedded as follows.
    - A number is a [num]: an exact rational, or one of the three special
      floats.  Finite arithmetic is exact; rounding of binary floats is not
      modelled.
    - A [dict] is an association list in insertion order with pairwise
      distinct keys ([dict_wf]); a [set] is a duplicate-free list.
    - An exception is a value of [exn]; a computation that may raise returns
      a [result]; a method that also mutates returns the new state together
      with its [result], so the state written before a raise is kept.
    - Objects that are mutated through references (the [Stats] operands of a
      merge, the nodes of a treemap) live in a store addressed by [loc]. *)

From Stdlib Require Import ZArith QArith Qabs Qround String Ascii List Bool Lia.
From Stdlib Require Import Sorting.Sorted Sorting.Permutation DecimalString.
From Ceres Require CeresS CeresFormat CeresParser.
Import ListNotations.
Local Close Scope Q_scope.
Local Open Scope string_scope.
Local Open Scope list_scope.

(** ** Python runtime *)

Module Py.

Inductive exn : Type :=
| KeyError (key : string)
| AttributeError (attr : string)
| TypeError (msg : string)
| UnboundLocalError (var : string)
| ZeroDivisionError
| ValueError (msg : string)
| NotFoundError
| ReferenceError.

Inductive result (A : Type) : Type :=
| Ok (a : A)
| Raise (e : exn).
Arguments Ok {A} a.
Arguments Raise {A} e.

Definition rbind {A B} (r : result A) (k : A -> result B) : result B :=
  match r with
  | Ok a => k a
  | Raise e => Raise e
  end.

Notation "'let*' x ':=' e 'in' k" := (rbind e (fun x => k))
  (at level 10, x pattern, e at level 100, k at level 200).

(** A left-to-right loop over [xs] carrying the loop's locals in [acc]; the
    first exception ends it. *)
Fixpoint rfold {A B} (body : B -> A -> result B) (acc : B) (xs : list A) : result B :=
  match xs with
  | [] => Ok acc
  | x :: xs' => let* acc' := body acc x in rfold body acc' xs'
  end.

(** A list comprehension [[f x for x in xs]]. *)
Fixpoint rmap {A B} (f : A -> result B) (xs : list A) : result (list B) :=
  match xs with
  | [] => Ok []
  | x :: xs' => let* y := f x in let* ys := rmap f xs' in Ok (y :: ys)
  end.

(** A method that mutates: state in, state and outcome out. *)
Definition M (St A : Type) : Type := St -> St * result A.

Definition ret {St A} (a : A) : M St A := fun s => (s, Ok a).
Definition raise {St A} (e : exn) : M St A := fun s => (s, Raise e).
Definition bind {St A B} (m : M St A) (k : A -> M St B) : M St B :=
  fun s => match m s with
           | (s', Ok a) => k a s'
           | (s', Raise e) => (s', Raise e)
           end.
Definition get {St} : M St St := fun s => (s, Ok s).
Definition put {St} (s : St) : M St unit := fun _ => (s, Ok tt).
Definition modify {St} (f : St -> St) : M St unit := fun s => (f s, Ok tt).
Definition lift {St A} (r : result A) : M St A := fun s => (s, r).

Notation "x <- e ;; k" := (bind e (fun x => k))
  (at level 200, e at level 100, k at level 200, right associativity).
Notation "e ;;; k" := (bind e (fun _ => k))
  (at level 200, k at level 200, right associativity).

Fixpoint for_each {St A} (xs : list A) (body : A -> M St unit) : M St unit :=
  match xs with
  | [] => ret tt
  | x :: xs' => body x ;;; for_each xs' body
  end.

Fixpoint for_fold {St A B} (xs : list A) (acc : B) (body : B -> A -> M St B) : M St B :=
  match xs with
  | [] => ret acc
  | x :: xs' => acc' <- body acc x ;; for_fold xs' acc' body
  end.

(** *** Numbers *)

Inductive num : Type :=
| Fin (q : Q)
| PInf
| NInf
| NaN.

Definition num_of_Z (z : Z) : num := Fin (inject_Z z).
Definition zero : num := num_of_Z 0.
(** [float('inf')] *)
Definition float_inf : num := PInf.

Definition Qis_zero (q : Q) : bool := (Qnum q =? 0)%Z.
Definition Qis_neg (q : Q) : bool := (Qnum q <? 0)%Z.
Definition Qltb (a b : Q) : bool := match Qcompare a b with Lt => true | _ => false end.

(** [a + b] *)
Definition nadd (a b : num) : num :=
  match a, b with
  | Fin x, Fin y => Fin (Qred (x + y)%Q)
  | NaN, _ | _, NaN => NaN
  | PInf, NInf | NInf, PInf => NaN
  | PInf, _ | _, PInf => PInf
  | NInf, _ | _, NInf => NInf
  end.

Definition nneg (a : num) : num :=
  match a with
  | Fin x => Fin (Qred (- x)%Q)
  | PInf => NInf
  | NInf => PInf
  | NaN => NaN
  end.

(** [a - b] *)
Definition nsub (a b : num) : num :=
  match a, b with
  | Fin x, Fin y => Fin (Qred (x - y)%Q)
  | _, _ => nadd a (nneg b)
  end.

(** [a / b]: true division; a zero divisor raises whatever the dividend. *)
Definition ndiv (a b : num) : result num :=
  match b with
  | Fin y =>
      if Qis_zero y then Raise ZeroDivisionError
      else match a with
           | Fin x => Ok (Fin (Qred (x / y)%Q))
           | PInf => Ok (if Qis_neg y then NInf else PInf)
           | NInf => Ok (if Qis_neg y then PInf else NInf)
           | NaN => Ok NaN
           end
  | PInf | NInf =>
      match a with
      | Fin _ => Ok zero
      | _ => Ok NaN
      end
  | NaN => Ok NaN
  end.

(** [a < b] *)
Definition nltb (a b : num) : bool :=
  match a, b with
  | Fin x, Fin y => Qltb x y
  | NaN, _ | _, NaN => false
  | _, NInf => false
  | NInf, _ => true
  | PInf, _ => false
  | _, PInf => true
  end.

(** [a > b] *)
Definition ngtb (a b : num) : bool := nltb b a.

(** [a == b] *)
Definition neqb (a b : num) : bool :=
  match a, b with
  | Fin x, Fin y => Qeq_bool x y
  | PInf, PInf | NInf, NInf => true
  | _, _ => false
  end.

(** *** Dictionaries and sets *)

Definition dict (V : Type) : Type := list (string * V).

Definition keys {V} (d : dict V) : list string := map fst d.
Definition values {V} (d : dict V) : list V := map snd d.
Definition items {V} (d : dict V) : list (string * V) := d.

Fixpoint find {V} (k : string) (d : dict V) : option V :=
  match d with
  | [] => None
  | (k', v) :: d' => if String.eqb k k' then Some v else find k d'
  end.

(** [k in d] *)
Definition mem {V} (k : string) (d : dict V) : bool :=
  match find k d with Some _ => true | None => false end.

(** [d[k]] *)
Definition getitem {V} (d : dict V) (k : string) : result V :=
  match find k d with Some v => Ok v | None => Raise (KeyError k) end.

(** [d[k] = v]: an existing key keeps its place, a new one goes last. *)
Fixpoint setitem {V} (k : string) (v : V) (d : dict V) : dict V :=
  match d with
  | [] => [(k, v)]
  | (k', v') :: d' =>
      if String.eqb k k' then (k', v) :: d' else (k', v') :: setitem k v d'
  end.

Fixpoint str_in (x : string) (l : list string) : bool :=
  match l with
  | [] => false
  | y :: l' => String.eqb x y || str_in x l'
  end.

Fixpoint distinct (l : list string) : bool :=
  match l with
  | [] => true
  | x :: l' => negb (str_in x l') && distinct l'
  end.

Definition dict_wf {V} (d : dict V) : bool := distinct (keys d).

(** [s.add(x)] *)
Definition set_add (x : string) (s : list string) : list string :=
  if str_in x s then s else s ++ [x].

(** [set(l)] *)
Definition set_of_list (l : list string) : list string :=
  fold_left (fun s x => set_add x s) l [].

(** *** [sum] and [sorted] *)

(** What iterating yields: a number, or a string when a dict is iterated
    (its keys). *)
Inductive item : Type :=
| INum (n : num)
| IStr (s : string).

Definition iter_dict {V} (d : dict V) : list item := map (fun kv => IStr (fst kv)) d.

(** [sum(it)]: starts from the integer 0 and adds each element in turn; a
    number plus a string is a [TypeError]. *)
Fixpoint sum_from (acc : num) (it : list item) : result num :=
  match it with
  | [] => Ok acc
  | INum n :: it' => sum_from (nadd acc n) it'
  | IStr _ :: _ => Raise (TypeError "unsupported operand type(s) for +: 'int' and 'str'")
  end.

Definition sum (it : list item) : result num := sum_from zero it.

(** [sorted] is stable, also under [reverse=True].  [before a b] says that
    [a] must be placed before [b]: [a < b], or [b < a] when reversed. *)
Section Sorted.
Context {A : Type} (before : A -> A -> bool).

Fixpoint insert (x : A) (l : list A) : list A :=
  match l with
  | [] => [x]
  | y :: l' => if before y x then y :: insert x l' else x :: y :: l'
  end.

Definition stable_sort (l : list A) : list A := fold_right insert [] l.

End Sorted.

Definition sorted_by {A K} (lt : K -> K -> bool) (key : A -> K) (reverse : bool)
  (l : list A) : list A :=
  stable_sort (fun a b => if reverse then lt (key b) (key a) else lt (key a) (key b)) l.

(** [s.endswith(suffix)] *)
Fixpoint endswith (s suffix : string) : bool :=
  String.eqb s suffix ||
  match s with
  | EmptyString => false
  | String _ s' => endswith s' suffix
  end.

(** [s.rjust(width)] *)
Fixpoint spaces (n : nat) : string :=
  match n with
  | O => ""
  | S n' => (" " ++ spaces n')%string
  end.

Definition rjust (width : nat) (s : string) : string :=
  (spaces (width - String.length s) ++ s)%string.

(** [sorted(l)] on strings: by code point, left to right. *)
Definition sorted_str (l : list string) : list string :=
  sorted_by String.ltb (fun s => s) false l.

End Py.

(** ** JSON documents

    What [json.loads] returns and [json.dumps] takes: the parsed document.
    The text codec itself belongs to the [json] library and is a parameter
    of the [Stats] methods that use it. *)

Module Json.
Import Py.

#[warnings="-register-all"]
Inductive json : Type :=
| JNull
| JNum (n : num)
| JStr (s : string)
| JObj (o : list (string * json)).

(** [data[k]] on a parsed document *)
Definition subscript (data : json) (k : string) : result json :=
  match data with
  | JObj o => getitem o k
  | JStr _ => Raise (TypeError "string indices must be integers")
  | _ => Raise (TypeError "object is not subscriptable")
  end.

(** The typed reading of a document.  Python stores whatever was parsed and
    fails later, at first use; here a value of the wrong shape is refused
    when it is stored. *)
Definition to_num (j : json) : result num :=
  match j with
  | JNum n => Ok n
  | _ => Raise (TypeError "number expected")
  end.

Definition to_opt_num (j : json) : result (option num) :=
  match j with
  | JNull => Ok None
  | JNum n => Ok (Some n)
  | _ => Raise (TypeError "number or null expected")
  end.

Definition to_dict {V} (dec : json -> result V) (j : json) : result (dict V) :=
  match j with
  | JObj o => rmap (fun kv => let* v := dec (snd kv) in Ok (fst kv, v)) o
  | _ => Raise (TypeError "object expected")
  end.

Definition of_opt_num (n : option num) : json :=
  match n with
  | None => JNull
  | Some x => JNum x
  end.

Definition of_dict {V} (enc : V -> json) (d : dict V) : json :=
  JObj (map (fun kv => (fst kv, enc (snd kv))) d).

End Json.

(** ** class Stats *)

Module Stats.
Import Py Json.

(** The data object of the [_profile] collaborator, kept by a snapshot that
    was built from it. *)
Record js_data : Type := mk_js_data {
  profile_duration : option num;
  call_times : dict num;
  call_times_proper : dict num;
  call_counts : dict num;
  call_counts_norec : dict num;
  js_callers : dict (dict (num * num * num * num));
  js_line_counts : dict num
}.

(** A caller edge or a profile: a dict from field name to number. *)
Definition profile : Type := dict num.

Record t : Type := mk {
  _ordering : string;
  _reverse_order : bool;
  _sk : option (list string);
  _top_level_call_locations : list string;
  _data : option js_data;
  nruns : option num;
  line_counts : dict num;
  duration : num;
  function_totals : dict num;
  function_cumulated_totals : dict num;
  function_counts : dict num;
  function_counts_nonrec : dict num;
  callers : dict (dict profile)
}.

Definition set__ordering (v : string) (s : t) : t :=
  mk v (_reverse_order s) (_sk s) (_top_level_call_locations s) (_data s) (nruns s)
     (line_counts s) (duration s) (function_totals s) (function_cumulated_totals s)
     (function_counts s) (function_counts_nonrec s) (callers s).

Definition set__reverse_order (v : bool) (s : t) : t :=
  mk (_ordering s) v (_sk s) (_top_level_call_locations s) (_data s) (nruns s)
     (line_counts s) (duration s) (function_totals s) (function_cumulated_totals s)
     (function_counts s) (function_counts_nonrec s) (callers s).

Definition set__sk (v : option (list string)) (s : t) : t :=
  mk (_ordering s) (_reverse_order s) v (_top_level_call_locations s) (_data s) (nruns s)
     (line_counts s) (duration s) (function_totals s) (function_cumulated_totals s)
     (function_counts s) (function_counts_nonrec s) (callers s).

Definition set__top_level_call_locations (v : list string) (s : t) : t :=
  mk (_ordering s) (_reverse_order s) (_sk s) v (_data s) (nruns s)
     (line_counts s) (duration s) (function_totals s) (function_cumulated_totals s)
     (function_counts s) (function_counts_nonrec s) (callers s).

Definition set__data (v : option js_data) (s : t) : t :=
  mk (_ordering s) (_reverse_order s) (_sk s) (_top_level_call_locations s) v (nruns s)
     (line_counts s) (duration s) (function_totals s) (function_cumulated_totals s)
     (function_counts s) (function_counts_nonrec s) (callers s).

Definition set_nruns (v : option num) (s : t) : t :=
  mk (_ordering s) (_reverse_order s) (_sk s) (_top_level_call_locations s) (_data s) v
     (line_counts s) (duration s) (function_totals s) (function_cumulated_totals s)
     (function_counts s) (function_counts_nonrec s) (callers s).

Definition set_line_counts (v : dict num) (s : t) : t :=
  mk (_ordering s) (_reverse_order s) (_sk s) (_top_level_call_locations s) (_data s) (nruns s)
     v (duration s) (function_totals s) (function_cumulated_totals s)
     (function_counts s) (function_counts_nonrec s) (callers s).

Definition set_duration (v : num) (s : t) : t :=
  mk (_ordering s) (_reverse_order s) (_sk s) (_top_level_call_locations s) (_data s) (nruns s)
     (line_counts s) v (function_totals s) (function_cumulated_totals s)
     (function_counts s) (function_counts_nonrec s) (callers s).

Definition set_function_totals (v : dict num) (s : t) : t :=
  mk (_ordering s) (_reverse_order s) (_sk s) (_top_level_call_locations s) (_data s) (nruns s)
     (line_counts s) (duration s) v (function_cumulated_totals s)
     (function_counts s) (function_counts_nonrec s) (callers s).

Definition set_function_cumulated_totals (v : dict num) (s : t) : t :=
  mk (_ordering s) (_reverse_order s) (_sk s) (_top_level_call_locations s) (_data s) (nruns s)
     (line_counts s) (duration s) (function_totals s) v
     (function_counts s) (function_counts_nonrec s) (callers s).

Definition set_function_counts (v : dict num) (s : t) : t :=
  mk (_ordering s) (_reverse_order s) (_sk s) (_top_level_call_locations s) (_data s) (nruns s)
     (line_counts s) (duration s) (function_totals s) (function_cumulated_totals s)
     v (function_counts_nonrec s) (callers s).

Definition set_function_counts_nonrec (v : dict num) (s : t) : t :=
  mk (_ordering s) (_reverse_order s) (_sk s) (_top_level_call_locations s) (_data s) (nruns s)
     (line_counts s) (duration s) (function_totals s) (function_cumulated_totals s)
     (function_counts s) v (callers s).

Definition set_callers (v : dict (dict profile)) (s : t) : t :=
  mk (_ordering s) (_reverse_order s) (_sk s) (_top_level_call_locations s) (_data s) (nruns s)
     (line_counts s) (duration s) (function_totals s) (function_cumulated_totals s)
     (function_counts s) (function_counts_nonrec s) v.

(** The four function-keyed maps are dicts: no key occurs twice. *)
Definition wf (s : t) : bool :=
  dict_wf (function_totals s) && dict_wf (function_cumulated_totals s)
  && dict_wf (function_counts s) && dict_wf (function_counts_nonrec s).

(** *** Class methods *)

(** [_relativize(data, baseline)], lines 97-105 *)
Definition _relativize (data baseline : profile) : result profile :=
  rfold (fun ret kv =>
           let key := fst kv in
           let* b := getitem baseline key in
           if neqb b zero then Ok (setitem key float_inf ret)
           else
             let* d := getitem data key in
             let* b' := getitem baseline key in
             let* q := ndiv d b' in
             Ok (setitem key q ret))
        [] (items data).

(** [_update_with_data(src_data, updates)], lines 107-111: the updated
    [src_data].  A key of [updates] that [src_data] lacks is skipped. *)
Definition _update_with_data (src_data updates : profile) : profile :=
  fold_left (fun src kv =>
               match find (fst kv) src with
               | Some old => setitem (fst kv) (nadd old (snd kv)) src
               | None => src
               end)
            (items updates) src_data.

(** [is_toplevel(call_chain)], lines 113-115 *)
Definition is_toplevel (call_chain : string) : bool := endswith call_chain ":".

(** *** Construction and serialization *)

(** [_update_top_level_call_locations(caller_data)], lines 222-226 *)
Definition _update_top_level_call_locations (caller_data : list (dict profile)) : M t unit :=
  for_each caller_data (fun d =>
    for_each (keys d) (fun call_chain =>
      if is_toplevel call_chain
      then modify (fun s => set__top_level_call_locations
                              (set_add call_chain (_top_level_call_locations s)) s)
      else ret tt)).

Definition zero_edge : profile :=
  [("cumulated", zero); ("total", zero); ("count", zero); ("count_norec", zero)].

(** The attributes [__init__] sets before it looks at [data], lines 124-127;
    the others do not exist yet and are shown empty. *)
Definition blank : t :=
  mk "standard name" false None [] None None [] zero [] [] [] [] [].

Section Codec.

(** [json.dumps] and [json.loads] *)
Variable json_dumps : json -> string.
Variable json_loads : string -> result json.

(** The document [__json__] serializes, lines 154-163 *)
Definition document (self : t) : json :=
  JObj [("nruns", of_opt_num (nruns self));
        ("line_counts", of_dict JNum (line_counts self));
        ("duration", JNum (duration self));
        ("function_counts", of_dict JNum (function_counts self));
        ("function_counts_nonrec", of_dict JNum (function_counts_nonrec self));
        ("function_cumulated_totals", of_dict JNum (function_cumulated_totals self));
        ("function_totals", of_dict JNum (function_totals self));
        ("callers", of_dict (of_dict (of_dict JNum)) (callers self))].

(** [__json__()], lines 153-163 *)
Definition __json__ (self : t) : string := json_dumps (document self).

(** [from_json(json_data)], lines 165-176 *)
Definition from_json (json_data : string) : M t unit :=
  modify (set__data None) ;;;
  data <- lift (json_loads json_data) ;;
  v <- lift (let* j := subscript data "nruns" in to_opt_num j) ;;
  modify (set_nruns v) ;;;
  v <- lift (let* j := subscript data "line_counts" in to_dict to_num j) ;;
  modify (set_line_counts v) ;;;
  v <- lift (let* j := subscript data "duration" in to_num j) ;;
  modify (set_duration v) ;;;
  v <- lift (let* j := subscript data "function_counts" in to_dict to_num j) ;;
  modify (set_function_counts v) ;;;
  v <- lift (let* j := subscript data "function_counts_nonrec" in to_dict to_num j) ;;
  modify (set_function_counts_nonrec v) ;;;
  v <- lift (let* j := subscript data "function_cumulated_totals" in to_dict to_num j) ;;
  modify (set_function_cumulated_totals v) ;;;
  v <- lift (let* j := subscript data "function_totals" in to_dict to_num j) ;;
  modify (set_function_totals v) ;;;
  v <- lift (let* j := subscript data "callers" in to_dict (to_dict (to_dict to_num)) j) ;;
  modify (set_callers v) ;;;
  self <- get ;;
  _update_top_level_call_locations (values (callers self)).

(** [Stats(data)] for a [str], lines 117-130; the branch for a raw data
    object is not part of this development. *)
Definition __init__ (data : string) : result t :=
  match from_json data blank with
  | (self, Ok _) => Ok self
  | (_, Raise e) => Raise e
  end.

End Codec.

(** *** Queries *)

(** [method_profile_by_callchain(method_name)], lines 228-243 *)
Definition method_profile_by_callchain (self : t) (method_name : string)
  : result (dict profile) :=
  let* c_data := getitem (callers self) method_name in
  rfold (fun ret kv =>
           let call_chain := fst kv in
           let data := snd kv in
           let ret := if negb (mem call_chain ret)
                      then setitem call_chain zero_edge ret else ret in
           let* r := getitem ret call_chain in
           Ok (setitem call_chain (_update_with_data r data) ret))
        [] (items c_data).

(** [profiled_methods()], lines 246-250 *)
Definition profiled_methods (self : t) : list string := keys (function_totals self).

(** The set-valued instance attributes of a snapshot, by name.  [__init__]
    creates exactly one. *)
Definition getattr_set (self : t) (attr : string) : result (list string) :=
  if String.eqb attr "_top_level_call_locations"
  then Ok (_top_level_call_locations self)
  else Raise (AttributeError attr).

(** [sub_calls(call_chain=None)], lines 253-282.  The result is
    [list(set(ret))]: the members matter, their order is the set's. *)
Definition sub_calls (self : t) (call_chain : option string) : result (list string) :=
  let* ret :=
    match call_chain with
    | None =>
        rfold (fun ret f =>
                 let* callers_of_f := getitem (callers self) f in
                 let* top := getattr_set self "_top_level_callers" in
                 if existsb (fun k => mem k callers_of_f) top
                 then Ok (ret ++ [f]) else Ok ret)
              [] (profiled_methods self)
    | Some chain =>
        rfold (fun ret func =>
                 let* callers_of_func := getitem (callers self) func in
                 if mem chain callers_of_func then Ok (ret ++ [func]) else Ok ret)
              [] (profiled_methods self)
    end in
  Ok (set_of_list ret).

(** [method_profile(method_name, restrict_to_callchain=None)], lines 284-322.
    [sum] is applied to the dicts themselves. *)
Definition method_profile (self : t) (method_name : option string)
  (restrict_to_callchain : option string) : result profile :=
  match method_name with
  | None =>
      let* s_totals := sum (iter_dict (function_totals self)) in
      let* s_counts := sum (iter_dict (function_counts self)) in
      let* s_nonrec := sum (iter_dict (function_counts_nonrec self)) in
      Ok [("total", nsub (duration self) s_totals);
          ("counts", s_counts);
          ("cumulated", duration self);
          ("counts_nonrec", s_nonrec)]
  | Some name =>
      match restrict_to_callchain with
      | None =>
          let* total := getitem (function_totals self) name in
          let* cumulated := getitem (function_cumulated_totals self) name in
          let* counts := getitem (function_counts self) name in
          let* counts_nonrec := getitem (function_counts_nonrec self) name in
          Ok [("total", total); ("cumulated", cumulated);
              ("counts", counts); ("counts_nonrec", counts_nonrec)]
      | Some chain =>
          let* profile_by_callchain := method_profile_by_callchain self name in
          let ret := [("total", zero); ("cumulated", zero);
                      ("counts", zero); ("counts_nonrec", zero)] in
          if mem chain profile_by_callchain
          then let* edge := getitem profile_by_callchain chain in
               Ok (_update_with_data ret edge)
          else Ok ret
      end
  end.

(** A call [self.method_profile(method_name, kw=value)]: the keyword has to
    name a parameter of the method. *)
Definition method_profile_kw (self : t) (method_name : option string)
  (kw : string) (value : option string) : result profile :=
  if String.eqb kw "restrict_to_callchain" then method_profile self method_name value
  else if String.eqb kw "method_name"
  then Raise (TypeError "method_profile() got multiple values for argument 'method_name'")
  else Raise (TypeError "method_profile() got an unexpected keyword argument").

(** [sub_calls_profile(call_chain)], lines 324-333 *)
Definition sub_calls_profile (self : t) (call_chain : option string)
  : result (dict profile) :=
  let* fs := sub_calls self call_chain in
  rfold (fun ret f =>
           let* p := method_profile_kw self (Some f) "restrict_to_calls_from" call_chain in
           Ok (setitem f p ret))
        [] fs.

(** *** Sorting *)

(** [_sorted_keys()], lines 353-366 *)
Definition _sorted_keys (self : t) : result (list string) :=
  if String.eqb (_ordering self) "standard name"
  then Ok (sorted_str (keys (function_totals self)))
  else
    let* keys :=
      if String.eqb (_ordering self) "ncalls" then Ok (items (function_counts self))
      else if String.eqb (_ordering self) "tottime" then Ok (items (function_totals self))
      else if String.eqb (_ordering self) "percall" then
        rmap (fun k =>
                let* a := getitem (function_totals self) k in
                let* b := getitem (function_counts self) k in
                let* q := ndiv a b in
                Ok (k, q))
             (keys (function_counts self))
      else if String.eqb (_ordering self) "cumtime"
      then Ok (items (function_cumulated_totals self))
      else if String.eqb (_ordering self) "var percall" then
        rmap (fun k =>
                let* a := getitem (function_cumulated_totals self) k in
                let* b := getitem (function_counts_nonrec self) k in
                let* q := ndiv a b in
                Ok (k, q))
             (keys (function_counts_nonrec self))
      else Raise (UnboundLocalError "keys") in
    Ok (map fst (sorted_by nltb snd (negb (_reverse_order self)) keys)).

(** [sort(key='standard name')], lines 337-351 *)
Definition sort (key : string) : M t unit :=
  modify (set__ordering key) ;;;
  self <- get ;;
  sk <- lift (_sorted_keys self) ;;
  modify (set__sk (Some sk)).

(** *** The report *)

Section Report.

(** [str] on a number, and ["{:.Nf}".format(x)] with [N] decimals: the
    runtime's own, which turn a binary float into text. *)
Variable str_num : num -> string.
Variable format_f : nat -> num -> string.

(** [x / self.nruns] needs a number there. *)
Definition nruns_value (self : t) : result num :=
  match nruns self with
  | Some n => Ok n
  | None => Raise (TypeError "unsupported operand type(s) for /: 'NoneType'")
  end.

Definition thousand : num := num_of_Z 1000.

(** One pass of the loop of [__str__], lines 380-387: the tuple appended to
    [cols]. *)
Definition row (self : t) (func : string) : result (list string) :=
  let* c := getitem (function_counts self) func in
  let* n := nruns_value self in
  let* q := ndiv c n in
  let ncalls := format_f 0 q in
  let* c := getitem (function_counts self) func in
  let* cn := getitem (function_counts_nonrec self) func in
  let* ncalls :=
    if ngtb c cn then
      let* cn := getitem (function_counts_nonrec self) func in
      let* n := nruns_value self in
      let* q := ndiv cn n in
      Ok (ncalls ++ "/" ++ format_f 0 q)%string
    else Ok ncalls in
  let* tot := getitem (function_totals self) func in
  let* n := nruns_value self in
  let* tottime := ndiv tot n in
  let* c := getitem (function_counts self) func in
  let* x := ndiv tottime c in
  let* n := nruns_value self in
  let* percall := ndiv x n in
  let* cum := getitem (function_cumulated_totals self) func in
  let* n := nruns_value self in
  let* cumtime := ndiv cum n in
  let* cn := getitem (function_counts_nonrec self) func in
  let* x := ndiv cumtime cn in
  let* n := nruns_value self in
  let* varpercall := ndiv x n in
  let* c1 := ndiv tottime thousand in
  let* c2 := ndiv percall thousand in
  let* c3 := ndiv cumtime thousand in
  let* c4 := ndiv varpercall thousand in
  Ok [ncalls; format_f 3 c1; format_f 3 c2; format_f 3 c3; format_f 3 c4; func].

Definition headers : list string :=
  [" ncalls"; " tottime"; " percall"; " cumtime"; " var percall"; " module.function:lineno"].

Definition newline : string := String (ascii_of_nat 10) "".

(** Lines 390-394: each column right-justified to its header's width. *)
Fixpoint justify (hs col : list string) : list string :=
  match hs, col with
  | h :: hs', c :: col' => rjust (String.length h) c :: justify hs' col'
  | _, _ => []
  end.

(** [__str__()], lines 368-395 *)
Definition __str__ : M t string :=
  self <- get ;;
  let nruns_s :=
    match nruns self with
    | Some n => if neqb n (num_of_Z 1) then " 1 run"
                else (" " ++ str_num n ++ " runs")%string
    | None => " None runs"
    end in
  d <- lift (ndiv (duration self) thousand) ;;
  let summary := (spaces 8 ++ nruns_s ++ " in " ++ str_num d ++ " seconds")%string in
  (match _sk self with
   | None => sort "standard name"
   | Some _ => ret tt
   end) ;;;
  self <- get ;;
  cols <- lift (rmap (row self) (match _sk self with Some sk => sk | None => [] end)) ;;
  let header := String.concat " " headers in
  let table :=
    [summary; "";
     ("Ordered by: " ++ _ordering self ++ " (averaged over " ++ nruns_s ++ ")")%string;
     ""; header]
    ++ map (fun col => String.concat " " (justify headers col)) cols in
  ret (String.concat newline table).

End Report.

(** *** Merging

    The operands of a merge are objects: [self] is mutated in place and a
    source may be any object, [self] included.  They live in a store. *)

Definition loc : Type := nat.
Definition heap : Type := list t.

Fixpoint store (l : loc) (s : t) (h : heap) : heap :=
  match h, l with
  | [], _ => []
  | _ :: h', O => s :: h'
  | x :: h', S l' => x :: store l' s h'
  end.

(** Read the object at [l]. *)
Definition deref (l : loc) : M heap t :=
  fun h => match nth_error h l with
           | Some s => (h, Ok s)
           | None => (h, Raise ReferenceError)
           end.

(** Run a method of the object at [l]. *)
Definition on {A} (l : loc) (m : M t A) : M heap A :=
  fun h => match nth_error h l with
           | Some s => let (s', r) := m s in (store l s' h, r)
           | None => (h, Raise ReferenceError)
           end.

Definition alloc (s : t) : M heap loc := fun h => (h ++ [s], Ok (List.length h)).

(** [self.F[f] += stat.F[f]] for one of the four function-keyed maps *)
Definition iadd_field (field : t -> dict num) (set_field : dict num -> t -> t)
  (self stat : loc) (f : string) : M heap unit :=
  s <- deref self ;;
  a <- lift (getitem (field s) f) ;;
  st <- deref stat ;;
  b <- lift (getitem (field st) f) ;;
  on self (modify (fun s => set_field (setitem f (nadd a b) (field s)) s)).

(** [{ k: sc[caller][k]+values[k] for k in [...] }], line 217 *)
Definition merge_edge (sc_caller vals : profile) : result profile :=
  rfold (fun acc k =>
           let* a := getitem sc_caller k in
           let* b := getitem vals k in
           Ok (setitem k (nadd a b) acc))
        [] ["cumulated"; "total"; "count"; "count_norec"].

(** The local [sc] of [_add_stat] is bound only at line 213, to the dict
    just stored as [self.callers[f]]; it then aliases that entry, so it is
    kept as the key [g] of the entry, and absent while unbound. *)
Definition sc_lookup (sc : option string) : result string :=
  match sc with
  | Some g => Ok g
  | None => Raise (UnboundLocalError "sc")
  end.

(** [sc[caller] = e] through the alias *)
Definition sc_setitem (self : loc) (g caller : string) (e : profile) : M heap unit :=
  s <- deref self ;;
  d <- lift (getitem (callers s) g) ;;
  on self (modify (set_callers (setitem g (setitem caller e d) (callers s)))).

(** [_add_stat(stat)], lines 200-220 *)
Definition _add_stat (self stat : loc) : M heap unit :=
  st <- deref stat ;;
  for_each (keys (function_totals st)) (fun f =>
    s <- deref self ;;
    (if negb (mem f (function_counts s)) then
       on self
         (modify (fun s => set_function_totals (setitem f zero (function_totals s)) s) ;;;
          modify (fun s => set_function_cumulated_totals
                             (setitem f zero (function_cumulated_totals s)) s) ;;;
          modify (fun s => set_function_counts (setitem f zero (function_counts s)) s) ;;;
          modify (fun s => set_function_counts_nonrec
                             (setitem f zero (function_counts_nonrec s)) s))
     else ret tt) ;;;
    iadd_field function_totals set_function_totals self stat f ;;;
    iadd_field function_cumulated_totals set_function_cumulated_totals self stat f ;;;
    iadd_field function_counts set_function_counts self stat f ;;;
    iadd_field function_counts_nonrec set_function_counts_nonrec self stat f) ;;;
  st <- deref stat ;;
  _ <- for_fold (items (callers st)) None (fun sc kv =>
    let f := fst kv in
    let callers_f := snd kv in
    s <- deref self ;;
    sc <- (if negb (mem f (callers s)) then
             on self (modify (fun s => set_callers (setitem f [] (callers s)) s)) ;;;
             ret (Some f)
           else ret sc) ;;
    for_each (items callers_f) (fun cv =>
      let caller := fst cv in
      let vals := snd cv in
      g <- lift (sc_lookup sc) ;;
      s <- deref self ;;
      d <- lift (getitem (callers s) g) ;;
      (if negb (mem caller d) then sc_setitem self g caller zero_edge else ret tt) ;;;
      s <- deref self ;;
      d <- lift (getitem (callers s) g) ;;
      cur <- lift (getitem d caller) ;;
      e <- lift (merge_edge cur vals) ;;
      sc_setitem self g caller e) ;;;
    ret sc) ;;
  s <- deref self ;;
  (match _sk s with
   | Some _ => on self (sort "standard name")
   | None => ret tt
   end) ;;;
  st <- deref stat ;;
  on self (_update_top_level_call_locations (values (callers st))).

(** An argument of [add]: a [Stats] instance or a [str]. *)
Inductive source : Type :=
| Instance (l : loc)
| Str (s : string).

Section Add.

Variable json_loads : string -> result json.
(** [browser.local_storage.storage] *)
Variable storage : dict string.

(** [Stats(data)] as an expression: a new object. *)
Definition new (data : string) : M heap loc :=
  s <- lift (__init__ json_loads data) ;;
  alloc s.

(** [add], lines 179-198, applied to the sequence [stats] of its arguments *)
Definition add (self : loc) (stats : list source) : M heap unit :=
  for_each stats (fun s =>
    match s with
    | Instance l => _add_stat self l
    | Str s =>
        st <- (if mem s storage then
                 text <- lift (getitem storage s) ;;
                 new text
               else new s) ;;
        _add_stat self st
    end).

End Add.

End Stats.

(** ** The rendering collaborator, [browser.html]

    Elements are numbered in creation order.  An element has at most one
    parent: appending it elsewhere moves it. *)

Module Dom.
Import Py.

Definition elt : Type := nat.

(** A style value: [str(x)+"%"] is kept as [Percent x]. *)
Inductive css : Type :=
| Percent (x : num)
| Keyword (s : string).

Record element : Type := mk_element {
  kids : list elt;
  style : dict css
}.

Definition dom : Type := list element.

Fixpoint update (e : elt) (f : element -> element) (d : dom) : dom :=
  match d, e with
  | [], _ => []
  | x :: d', O => f x :: d'
  | x :: d', S e' => x :: update e' f d'
  end.

Definition without (c : elt) (l : list elt) : list elt :=
  filter (fun x => negb (Nat.eqb x c)) l.

(** [html.DIV()] *)
Definition DIV : M dom elt :=
  fun d => (d ++ [mk_element [] []], Ok (List.length d)).

(** [parent <= child] *)
Definition append (parent child : elt) : M dom unit :=
  modify (fun d =>
    update parent (fun x => mk_element (kids x ++ [child]) (style x))
      (map (fun x => mk_element (without child (kids x)) (style x)) d)).

(** [parent.removeChild(child)] *)
Definition removeChild (parent child : elt) : M dom unit :=
  d <- get ;;
  match nth_error d parent with
  | Some x =>
      if existsb (Nat.eqb child) (kids x)
      then modify (update parent (fun x => mk_element (without child (kids x)) (style x)))
      else raise NotFoundError
  | None => raise ReferenceError
  end.

(** [e.style.prop = v] *)
Definition set_style (e : elt) (prop : string) (v : css) : M dom unit :=
  modify (update e (fun x => mk_element (kids x) (setitem prop v (style x)))).

End Dom.

(** ** class MethodElement *)

Module MethodElement.
Import Py.

Definition loc : Type := nat.
(** [(top, left, width, height)] *)
Definition rect : Type := (num * num * num * num)%type.

Definition hundred : num := num_of_Z 100.
Definition full : rect := (zero, zero, hundred, hundred).

(** The instance attributes.  [_rect] holds [_top], [_left], [_width] and
    [_height], which exist only once the setter of lines 406-413 has run. *)
Record t : Type := mk {
  _name : string;
  _profile_data : Stats.profile;
  _element : Dom.elt;
  _children : dict loc;
  _parent : option loc;
  _free_rect : rect;
  _stack_hash : string;
  _rect : option rect
}.

Definition set__children (v : dict loc) (n : t) : t :=
  mk (_name n) (_profile_data n) (_element n) v (_parent n) (_free_rect n)
     (_stack_hash n) (_rect n).

Definition set__free_rect (v : rect) (n : t) : t :=
  mk (_name n) (_profile_data n) (_element n) (_children n) (_parent n) v
     (_stack_hash n) (_rect n).

Definition set__stack_hash (v : string) (n : t) : t :=
  mk (_name n) (_profile_data n) (_element n) (_children n) (_parent n) (_free_rect n)
     v (_rect n).

Definition set__rect (v : option rect) (n : t) : t :=
  mk (_name n) (_profile_data n) (_element n) (_children n) (_parent n) (_free_rect n)
     (_stack_hash n) v.

(** The elements of the page and the nodes of the treemap. *)
Record world : Type := mk_world {
  page : Dom.dom;
  nodes : list t
}.

Definition in_page {A} (m : M Dom.dom A) : M world A :=
  fun w => let (d, r) := m (page w) in (mk_world d (nodes w), r).

Fixpoint store (l : loc) (n : t) (ns : list t) : list t :=
  match ns, l with
  | [], _ => []
  | _ :: ns', O => n :: ns'
  | x :: ns', S l' => x :: store l' n ns'
  end.

Definition deref (l : loc) : M world t :=
  fun w => match nth_error (nodes w) l with
           | Some n => (w, Ok n)
           | None => (w, Raise ReferenceError)
           end.

Definition update (l : loc) (f : t -> t) : M world unit :=
  fun w => match nth_error (nodes w) l with
           | Some n => (mk_world (page w) (store l (f n) (nodes w)), Ok tt)
           | None => (w, Raise ReferenceError)
           end.

Definition alloc (n : t) : M world loc :=
  fun w => (mk_world (page w) (nodes w ++ [n]), Ok (List.length (nodes w))).

(** The properties the class body binds, by name, with whether the property
    has a setter.  [@property def rect] binds a read-only property to
    [rect]; [@rect.setter def set_rect] builds the property that has the
    setter and binds it to [set_rect], leaving [rect] as it was. *)
Definition properties : dict bool := [("rect", false); ("set_rect", true)].

(** The getter, lines 402-404 *)
Definition get_rect (self : loc) : M world rect :=
  n <- deref self ;;
  match _rect n with
  | Some r => ret r
  | None => raise (AttributeError "_top")
  end.

(** The setter, lines 406-413 *)
Definition set_rect (self : loc) (r : rect) : M world unit :=
  update self (set__rect (Some r)) ;;;
  n <- deref self ;;
  let '(r_top, r_left, r_width, r_height) := r in
  in_page (Dom.set_style (_element n) "top" (Dom.Percent r_top) ;;;
           Dom.set_style (_element n) "left" (Dom.Percent r_left) ;;;
           Dom.set_style (_element n) "height" (Dom.Percent r_height) ;;;
           Dom.set_style (_element n) "width" (Dom.Percent r_width) ;;;
           Dom.set_style (_element n) "position" (Dom.Keyword "absolute")).

(** [obj.rect = r]: an assignment to a property goes to its setter, if it
    has one. *)
Definition assign_rect (self : loc) (r : rect) : M world unit :=
  match find "rect" properties with
  | Some true => set_rect self r
  | _ => raise (AttributeError "rect")
  end.

(** The arithmetic of [add_child], lines 435-448: from the free rectangle
    and the child's relative data, the rectangle given to the child and the
    tuple stored as the new free rectangle. *)
Definition place (free : rect) (ch_relative_data : Stats.profile) : result (rect * rect) :=
  let '(fr_top, fr_left, fr_width, fr_height) := free in
  let ch_top := fr_top in
  let ch_left := fr_left in
  if ngtb fr_width fr_height then
    let ch_height := fr_height in
    let* share := getitem ch_relative_data "cumulated" in
    let* ch_width := ndiv share ch_height in
    let fr_width := nsub fr_width ch_width in
    let fr_left := nadd fr_left ch_width in
    Ok ((ch_top, ch_left, ch_width, ch_height), (fr_top, fr_left, ch_width, ch_height))
  else
    let ch_width := fr_width in
    let* share := getitem ch_relative_data "cumulated" in
    let* ch_height := ndiv share ch_width in
    let fr_height := nsub fr_height ch_height in
    let fr_top := nadd fr_top ch_height in
    Ok ((ch_top, ch_left, ch_width, ch_height), (fr_top, fr_left, ch_width, ch_height)).

(** [add_child(child)], lines 431-448 *)
Definition add_child (self child : loc) : M world unit :=
  c <- deref child ;;
  update self (fun n => set__children (setitem (_name c) child (_children n)) n) ;;;
  n <- deref self ;;
  in_page (Dom.append (_element n) (_element c)) ;;;
  ch_relative_data <- lift (Stats._relativize (_profile_data c) (_profile_data n)) ;;
  placed <- lift (place (_free_rect n) ch_relative_data) ;;
  assign_rect child (fst placed) ;;;
  update self (set__free_rect (snd placed)).

(** The classes nested in class [CallGrind], by name: there is none. *)
Definition CallGrind_nested_class (name : string) : result Empty_set :=
  Raise (AttributeError name).

(** [MethodElement(method_name, method_profile_data, stats, parent)],
    lines 415-429.  The loop builds each child through
    [CallGrind.MethodElement]. *)
Definition __init__ (method_name : string) (method_profile_data : Stats.profile)
  (stats : Stats.t) (parent : option loc) : M world loc :=
  e <- in_page Dom.DIV ;;
  self <- alloc (mk method_name method_profile_data e [] parent full "" None) ;;
  (match parent with
   | None =>
       update self (set__stack_hash (":" ++ method_name)%string) ;;;
       assign_rect self full
   | Some p =>
       pn <- deref p ;;
       update self (set__stack_hash (_stack_hash pn ++ "->" ++ method_name)%string)
   end) ;;;
  n <- deref self ;;
  children <- lift (Stats.sub_calls_profile stats (Some (_stack_hash n))) ;;
  for_each (items children) (fun chd =>
    cls <- lift (CallGrind_nested_class "MethodElement") ;;
    match cls return M world unit with end) ;;;
  ret self.

End MethodElement.

(** ** class CallGrind *)

Module CallGrind.
Import Py.

Record t : Type := mk {
  _element : Dom.elt;
  _root : option MethodElement.loc;
  _zoomed_element : option MethodElement.loc
}.

(** A controller and the world its nodes live in. *)
Definition state : Type := (MethodElement.world * t)%type.

Definition in_world {A} (m : M MethodElement.world A) : M state A :=
  fun st => let (w, r) := m (fst st) in ((w, snd st), r).

Definition self : M state t := fun st => (st, Ok (snd st)).

Definition set_self (f : t -> t) : M state unit := fun st => ((fst st, f (snd st)), Ok tt).

(** [obj.attr] for an attribute that holds a node or [None], on an object
    that is a node or [None].  A node has one such attribute, [_parent]. *)
Definition getattr_node (obj : option MethodElement.loc) (attr : string)
  : M state (option MethodElement.loc) :=
  match obj with
  | Some l =>
      n <- in_world (MethodElement.deref l) ;;
      if String.eqb attr "_parent" then ret (MethodElement._parent n)
      else raise (AttributeError attr)
  | None => raise (AttributeError attr)
  end.

(** [obj._children] *)
Definition getattr_children (obj : option MethodElement.loc)
  : M state (dict MethodElement.loc) :=
  match obj with
  | Some l => n <- in_world (MethodElement.deref l) ;; ret (MethodElement._children n)
  | None => raise (AttributeError "_children")
  end.

(** [obj._element] *)
Definition getattr_element (obj : option MethodElement.loc) : M state Dom.elt :=
  match obj with
  | Some l => n <- in_world (MethodElement.deref l) ;; ret (MethodElement._element n)
  | None => raise (AttributeError "_element")
  end.

(** [CallGrind()], lines 452-455 *)
Definition __init__ : M MethodElement.world t :=
  e <- MethodElement.in_page Dom.DIV ;;
  ret (mk e None None).

(** [__ge__(elt)], lines 457-458 *)
Definition __ge__ (elt : Dom.elt) : M state unit :=
  c <- self ;;
  in_world (MethodElement.in_page (Dom.append elt (_element c))).

(** The attributes of a [Stats] object. *)
Definition Stats_attributes : list string :=
  ["current_stats"; "_relativize"; "_update_with_data"; "is_toplevel"; "__init__";
   "__json__"; "from_json"; "add"; "_add_stat"; "_update_top_level_call_locations";
   "method_profile_by_callchain"; "profiled_methods"; "sub_calls"; "method_profile";
   "sub_calls_profile"; "sort"; "_sorted_keys"; "__str__"; "__repr__";
   "_ordering"; "_reverse_order"; "_sk"; "_top_level_call_locations"; "_data"; "nruns";
   "line_counts"; "duration"; "function_totals"; "function_cumulated_totals";
   "function_counts"; "function_counts_nonrec"; "callers"].

(** [stats.name(arg)] for a method that takes a function name or [None] and
    returns a profile. *)
Definition Stats_call (stats : Stats.t) (name : string) (arg : option string)
  : result Stats.profile :=
  if String.eqb name "method_profile" then Stats.method_profile stats arg None
  else if str_in name Stats_attributes then Raise (TypeError "wrong arguments")
  else Raise (AttributeError name).

(** [load_data(stats)], lines 460-463 *)
Definition load_data (stats : Stats.t) : M state unit :=
  data <- lift (Stats_call stats "caller_data" None) ;;
  root <- in_world (MethodElement.__init__ "Top" data stats None) ;;
  set_self (fun c => mk (_element c) (Some root) (_zoomed_element c)) ;;;
  c <- self ;;
  e <- getattr_element (_root c) ;;
  in_world (MethodElement.in_page (Dom.append (_element c) e)) ;;;
  set_self (fun c => mk (_element c) (_root c) (_root c)).

(** [zoom_out()], lines 465-469 *)
Definition zoom_out : M state unit :=
  c <- self ;;
  p <- getattr_node (_zoomed_element c) "parent" ;;
  match p with
  | None => ret tt
  | Some _ =>
      e <- getattr_element (_zoomed_element c) ;;
      in_world (MethodElement.in_page (Dom.removeChild (_element c) e)) ;;;
      p <- getattr_node (_zoomed_element c) "parent" ;;
      pe <- getattr_element p ;;
      in_world (MethodElement.in_page (Dom.append (_element c) pe))
  end.

(** [zoom_in(func_name)], lines 471-476 *)
Definition zoom_in (func_name : string) : M state unit :=
  c <- self ;;
  children <- getattr_children (_zoomed_element c) ;;
  if negb (mem func_name children) then ret tt
  else
    e <- getattr_element (_zoomed_element c) ;;
    in_world (MethodElement.in_page (Dom.removeChild (_element c) e)) ;;;
    children <- getattr_children (_zoomed_element c) ;;
    child <- lift (getitem children func_name) ;;
    set_self (fun c => mk (_element c) (_root c) (Some child)) ;;;
    c <- self ;;
    e <- getattr_element (_zoomed_element c) ;;
    in_world (MethodElement.in_page (Dom.append (_element c) e)).

End CallGrind.

(** ** A concrete text codec

    Documents written and read back as S-expressions by Ceres' printer and
    parser: an instance of the [json] parameters for places where a text has
    to be computed. *)

Module SexpCodec.
Import Py Json.

Definition sexp : Type := CeresS.sexp_ CeresS.atom.
Definition raw (s : string) : sexp := CeresS.Atom_ (CeresS.Raw s).
Definition str (s : string) : sexp := CeresS.Atom_ (CeresS.Str s).
Definition int (z : Z) : sexp := CeresS.Atom_ (CeresS.Num z).

Definition sexp_of_num (n : num) : sexp :=
  match n with
  | Fin q => CeresS.List [int (Qnum q); int (Zpos (Qden q))]
  | PInf => raw "inf"
  | NInf => raw "ninf"
  | NaN => raw "nan"
  end.

Fixpoint sexp_of_json (j : json) : sexp :=
  match j with
  | JNull => raw "null"
  | JNum n => CeresS.List [raw "num"; sexp_of_num n]
  | JStr s => str s
  | JObj o =>
      CeresS.List (raw "obj" ::
                   map (fun kv => CeresS.List [str (fst kv); sexp_of_json (snd kv)]) o)
  end.

Definition num_of_sexp (e : sexp) : result num :=
  match e with
  | CeresS.List [CeresS.Atom_ (CeresS.Num a); CeresS.Atom_ (CeresS.Num (Zpos b))] =>
      Ok (Fin (Qmake a b))
  | CeresS.Atom_ (CeresS.Raw s) =>
      if String.eqb s "inf" then Ok PInf
      else if String.eqb s "ninf" then Ok NInf
      else if String.eqb s "nan" then Ok NaN
      else Raise (ValueError "number expected")
  | _ => Raise (ValueError "number expected")
  end.

Fixpoint json_of_sexp (e : sexp) : result json :=
  match e with
  | CeresS.Atom_ (CeresS.Str s) => Ok (JStr s)
  | CeresS.Atom_ (CeresS.Raw s) =>
      if String.eqb s "null" then Ok JNull else Raise (ValueError "unknown atom")
  | CeresS.Atom_ (CeresS.Num _) => Raise (ValueError "bare number")
  | CeresS.List (CeresS.Atom_ (CeresS.Raw tag) :: rest) =>
      if String.eqb tag "num" then
        match rest with
        | [x] => let* n := num_of_sexp x in Ok (JNum n)
        | _ => Raise (ValueError "number expected")
        end
      else if String.eqb tag "obj" then
        let* o := rmap (fun en =>
                          match en with
                          | CeresS.List [CeresS.Atom_ (CeresS.Str k); v] =>
                              let* j := json_of_sexp v in Ok (k, j)
                          | _ => Raise (ValueError "entry expected")
                          end) rest in
        Ok (JObj o)
      else Raise (ValueError "unknown tag")
  | CeresS.List _ => Raise (ValueError "tag expected")
  end.

Definition dumps (j : json) : string := CeresFormat.string_of_sexp (sexp_of_json j).

Definition loads (text : string) : result json :=
  match CeresParser.parse_sexp text with
  | inr e => json_of_sexp e
  | inl _ => Raise (ValueError "no document")
  end.

End SexpCodec.

(** ** Sample snapshots and trees *)

Module Sample.
Import Py.

Definition edge (cumulated total count count_norec : Z) : Stats.profile :=
  [("cumulated", num_of_Z cumulated); ("total", num_of_Z total);
   ("count", num_of_Z count); ("count_norec", num_of_Z count_norec)].

(** A function's row: name, then total, cumulated, count, count_nonrec. *)
Definition fn : Type := (string * (Z * Z * Z * Z))%type.

Definition fn_row (name : string) (total cumulated count count_nonrec : Z) : fn :=
  (name, (total, cumulated, count, count_nonrec)).

Definition column (pick : Z * Z * Z * Z -> Z) (fns : list fn) : dict num :=
  map (fun f => (fst f, num_of_Z (pick (snd f)))) fns.

(** The snapshot [Stats(text)] builds from a document with these entries. *)
Definition snapshot (nruns duration : Z) (fns : list fn)
  (callers : dict (dict Stats.profile)) : Stats.t :=
  fst (Stats._update_top_level_call_locations (values callers)
         (Stats.mk "standard name" false None [] None (Some (num_of_Z nruns)) []
            (num_of_Z duration)
            (column (fun '(t, _, _, _) => t) fns)
            (column (fun '(_, c, _, _) => c) fns)
            (column (fun '(_, _, k, _) => k) fns)
            (column (fun '(_, _, _, k) => k) fns)
            callers)).

(** Duration 1000 ms; [f] with self time 200 ms and [g] with 300 ms, each
    called once from the top level of module [m]. *)
Definition two_functions : Stats.t :=
  snapshot 1 1000
    [fn_row "f" 200 200 1 1; fn_row "g" 300 300 1 1]
    [("f", [("3,m:", edge 200 200 1 1)]); ("g", [("4,m:", edge 300 300 1 1)])].

(** One function [f], called twice from line 1 of module [m]. *)
Definition only_f : Stats.t :=
  snapshot 1 100 [fn_row "f" 10 20 2 1] [("f", [("1,m:", edge 20 10 2 1)])].

(** Another run of the same program. *)
Definition only_f_again : Stats.t :=
  snapshot 1 100 [fn_row "f" 1 2 3 3] [("f", [("1,m:", edge 2 1 3 3)])].

(** A run that saw [g] first and then [f]. *)
Definition g_then_f : Stats.t :=
  snapshot 1 100
    [fn_row "g" 1 2 3 3; fn_row "f" 5 5 5 5]
    [("g", [("1,m:", edge 2 1 3 3)]); ("f", [("1,m:", edge 5 5 5 5)])].

(** No function at all. *)
Definition empty : Stats.t := snapshot 1 0 [] [].

(** The recursive [fact] of the module's docstring. *)
Definition fact : Stats.t :=
  snapshot 1 249 [fn_row "fact" 23 1012 101 1] [("fact", [("180,m:", edge 1012 23 101 1)])].

(** Two runs; [f] was called twice and took 4000 ms in all. *)
Definition two_runs : Stats.t :=
  snapshot 2 4000 [fn_row "f" 4000 4000 2 2] [("f", [("1,m:", edge 4000 4000 2 2)])].

(** [f] was never entered: its count is zero. *)
Definition zero_count : Stats.t :=
  snapshot 1 100 [fn_row "f" 10 20 0 0; fn_row "g" 5 5 1 1] [].

Definition some_profile (cumulated : Z) : Stats.profile :=
  [("total", num_of_Z cumulated); ("cumulated", num_of_Z cumulated);
   ("counts", num_of_Z 1); ("counts_nonrec", num_of_Z 1)].

(** A page with two elements and the two nodes that own them: [Top], with
    100 ms, and a node [f] with 10 ms that is not yet its child. *)
Definition parent_and_orphan : MethodElement.world :=
  MethodElement.mk_world
    [Dom.mk_element [] []; Dom.mk_element [] []]
    [MethodElement.mk "Top" (some_profile 100) 0 [] None MethodElement.full ":Top" None;
     MethodElement.mk "f" (some_profile 10) 1 [] (Some 0) MethodElement.full ":Top->f" None].

(** A built tree as the controller expects it: element 0 is the
    controller's, which shows the root [Top] (element 1); [Top] has the
    child [f] (element 2). *)
Definition tree : MethodElement.world :=
  MethodElement.mk_world
    [Dom.mk_element [1] []; Dom.mk_element [2] []; Dom.mk_element [] []]
    [MethodElement.mk "Top" (some_profile 100) 1 [("f", 1)] None
       MethodElement.full ":Top" (Some MethodElement.full);
     MethodElement.mk "f" (some_profile 50) 2 [] (Some 0)
       MethodElement.full ":Top->f"
       (Some (zero, zero, MethodElement.hundred, num_of_Z 50))].

Definition at_root : CallGrind.t := CallGrind.mk 0 (Some 0) (Some 0).

(** *** A formatter for the samples

    The report takes the runtime's formatter as a parameter.  Where a
    statement is tried on a sample, this one stands for it: the text
    CPython's ["{:.Nf}".format(x)] gives for the binary64 float nearest to
    the number. *)

Definition digits (z : Z) : string := NilZero.string_of_uint (N.to_uint (Z.to_N z)).

Fixpoint zeros (n : nat) : string :=
  match n with
  | O => ""
  | S n' => ("0" ++ zeros n')%string
  end.

Definition pad_zeros (width : nat) (s : string) : string :=
  (zeros (width - String.length s) ++ s)%string.

(** Round to the nearest integer, a tie to the even one. *)
Definition round_half_even (q : Q) : Z :=
  let fl := Qfloor q in
  match Qcompare (q - inject_Z fl)%Q (1 # 2)%Q with
  | Lt => fl
  | Gt => (fl + 1)%Z
  | Eq => if Z.even fl then fl else (fl + 1)%Z
  end.

Definition pow2 (e : Z) : Q := Qpower (2 # 1) e.

(** The binary exponent of a positive number: [2^e <= q < 2^(e+1)]. *)
Definition exponent (q : Q) : Z :=
  let k := (Z.log2 (Qnum q) - Z.log2 (Zpos (Qden q)))%Z in
  if Qle_bool (pow2 k) q then k else (k - 1)%Z.

(** The binary64 float nearest to a non-negative number, a tie to the even
    significand: 53 bits, the exponent not below -1022.  [None] stands for
    a number too large to be a float. *)
Definition binary64 (q : Q) : option Q :=
  if Qis_zero q then Some q
  else
    let e := Z.max (exponent q) (-1022) in
    let m := round_half_even (q * pow2 (52 - e))%Q in
    let x := Qred (inject_Z m * pow2 (e - 52))%Q in
    if Qle_bool (pow2 1024) x then None else Some x.

Definition decimal (prec : nat) (x : num) : string :=
  match x with
  | Fin q =>
      match binary64 (Qabs q) with
      | Some x =>
          let scale := (10 ^ Z.of_nat prec)%Z in
          let m := round_half_even (x * inject_Z scale)%Q in
          let body :=
            match prec with
            | O => digits m
            | S _ => (digits (m / scale) ++ "." ++ pad_zeros prec (digits (m mod scale)))%string
            end in
          if Qis_neg q then ("-" ++ body)%string else body
      | None => if Qis_neg q then "-inf" else "inf"
      end
  | PInf => "inf"
  | NInf => "-inf"
  | NaN => "nan"
  end.

End Sample.

(** ** Notions used in the statements *)

Module Notions.
Import Py.

(** The caller edges of the snapshot stored at [l]. *)
Definition callers_at (l : Stats.loc) (h : Stats.heap) : option (dict (dict Stats.profile)) :=
  option_map Stats.callers (nth_error h l).

(** The node a controller shows. *)
Definition zoomed (st : CallGrind.state) : option MethodElement.loc :=
  CallGrind._zoomed_element (snd st).

(** The numeric sort keys and the quantity each one names. *)
Definition numeric_keys : list string :=
  ["ncalls"; "tottime"; "percall"; "cumtime"; "var percall"].

Definition quantity (self : Stats.t) (key f : string) : result num :=
  if String.eqb key "ncalls" then getitem (Stats.function_counts self) f
  else if String.eqb key "tottime" then getitem (Stats.function_totals self) f
  else if String.eqb key "cumtime" then getitem (Stats.function_cumulated_totals self) f
  else if String.eqb key "percall" then
    let* a := getitem (Stats.function_totals self) f in
    let* b := getitem (Stats.function_counts self) f in
    ndiv a b
  else if String.eqb key "var percall" then
    let* a := getitem (Stats.function_cumulated_totals self) f in
    let* b := getitem (Stats.function_counts_nonrec self) f in
    ndiv a b
  else Raise (KeyError key).

(** The one ordering predicate of the numeric keys: [x] may stand right
    before [y] when [x] is not below [y]; with the reverse flag set, when
    [y] is not below [x]. *)
Definition in_order (reverse_order : bool) (x y : num) : Prop :=
  if reverse_order then nltb y x = false else nltb x y = false.

(** Functions [a] and [b] may be neighbours, in this order, under [key]. *)
Definition neighbours (self : Stats.t) (key a b : string) : Prop :=
  exists x y, quantity self key a = Ok x /\ quantity self key b = Ok y /\
              in_order (Stats._reverse_order self) x y.

(** Under the placement test [before], [a] may stand right before [b]:
    [b] does not have to precede [a]. *)
Definition lined_up {A} (before : A -> A -> bool) (a b : A) : Prop :=
  before b a = false.

(** [z == 0] *)
Definition is_zero (z : num) : bool := neqb z zero.

(** Every key of [d1] is a key of [d2]. *)
Definition keys_within {V W} (d1 : dict V) (d2 : dict W) : bool :=
  forallb (fun k => mem k d2) (keys d1).

(** Function [f] has the value [z] in the map [d], and [z] is zero. *)
Definition zero_at (d : dict num) (f : string) : Prop :=
  exists z, find f d = Some z /\ is_zero z = true.

(** Going from store [h] to [h'], every object other than the one at [self]
    is as it was. *)
Definition keeps_others (self : Stats.loc) (h h' : Stats.heap) : Prop :=
  forall l s, l <> self -> nth_error h l = Some s -> nth_error h' l = Some s.

(** A computation that mutates no object but the one at [self]. *)
Definition writes_only {A} (self : Stats.loc) (m : M Stats.heap A) : Prop :=
  forall h, keeps_others self h (fst (m h)).

(** A row as the specification of the report has it: the four quantities (total,
    total/count, cumulated, cumulated/count_nonrec) each divided by [nruns]
    and by 1000. *)
Definition stated_row (format_f : nat -> num -> string) (self : Stats.t) (func : string)
  : result (list string) :=
  let* n := Stats.nruns_value self in
  let* c := getitem (Stats.function_counts self) func in
  let* cn := getitem (Stats.function_counts_nonrec self) func in
  let* tot := getitem (Stats.function_totals self) func in
  let* cum := getitem (Stats.function_cumulated_totals self) func in
  let per_run_ms (x : num) : result string :=
    let* y := ndiv x n in
    let* z := ndiv y Stats.thousand in
    Ok (format_f 3 z) in
  let* calls := ndiv c n in
  let* nonrec := ndiv cn n in
  let* percall := ndiv tot c in
  let* varpercall := ndiv cum cn in
  let* c1 := per_run_ms tot in
  let* c2 := per_run_ms percall in
  let* c3 := per_run_ms cum in
  let* c4 := per_run_ms varpercall in
  Ok [if ngtb c cn then (format_f 0 calls ++ "/" ++ format_f 0 nonrec)%string
      else format_f 0 calls;
      c1; c2; c3; c4; func].

(** The fields of a caller edge. *)
Definition edge_fields : list string := ["cumulated"; "total"; "count"; "count_norec"].

(** Zero plus the value the edge has for a field; zero for a field the
    edge lacks. *)
Definition from_zero (edge : Stats.profile) (field : string) : num :=
  match find field edge with
  | Some v => nadd zero v
  | None => zero
  end.

(** What a profile by call chain holds for one caller edge: the four
    fields, each with the edge's value added to zero. *)
Definition collected (edge : Stats.profile) : Stats.profile :=
  map (fun field => (field, from_zero edge field)) edge_fields.

(** Every edge of a function is a dict. *)
Definition edges_wf (d : dict Stats.profile) : bool :=
  forallb (fun ce => dict_wf (snd ce)) d.

(** The keys [from_json] reads from a document. *)
Definition document_keys : list string :=
  ["nruns"; "line_counts"; "duration"; "function_counts"; "function_counts_nonrec";
   "function_cumulated_totals"; "function_totals"; "callers"].

(** The keys [sort] knows. *)
Definition sort_keys : list string := "standard name" :: numeric_keys.

(** The map whose functions a numeric sort key lists. *)
Definition listed_map (self : Stats.t) (key : string) : dict num :=
  if String.eqb key "tottime" then Stats.function_totals self
  else if String.eqb key "cumtime" then Stats.function_cumulated_totals self
  else if String.eqb key "var percall" then Stats.function_counts_nonrec self
  else Stats.function_counts self.

(** An entry of a profile relative to a baseline: the ratio of the value
    to the baseline's value for the same key, positive infinity when that
    is zero. *)
Definition relative (baseline : Stats.profile) (kv : string * num) : string * num :=
  (fst kv,
   match find (fst kv) baseline with
   | Some b =>
       if is_zero b then float_inf
       else match ndiv (snd kv) b with
            | Ok q => q
            | Raise _ => float_inf
            end
   | None => float_inf
   end).

(** A method that leaves the part [proj] of its object as it is. *)
Definition keeps {X A} (proj : Stats.t -> X) (m : M Stats.t A) : Prop :=
  forall s, proj (fst (m s)) = proj s.

(** A computation after which the object at [self] is still there, with
    the part [proj] as it was. *)
Definition keeps_at {X A} (proj : Stats.t -> X) (self : Stats.loc) (m : M Stats.heap A)
  : Prop :=
  forall h a, nth_error h self = Some a ->
              exists a', nth_error (fst (m h)) self = Some a' /\ proj a' = proj a.

(** What a run leaves in a snapshot besides the profile itself. *)
Definition run_data (s : Stats.t) : option num * num * dict num * option Stats.js_data * bool :=
  (Stats.nruns s, Stats.duration s, Stats.line_counts s, Stats._data s,
   Stats._reverse_order s).

(** The four function-keyed maps. *)
Definition function_maps (s : Stats.t) : dict num * dict num * dict num * dict num :=
  (Stats.function_totals s, Stats.function_cumulated_totals s,
   Stats.function_counts s, Stats.function_counts_nonrec s).

(** The four maps list the same functions in the same order. *)
Definition aligned (s : Stats.t) : Prop :=
  keys (Stats.function_cumulated_totals s) = keys (Stats.function_totals s) /\
  keys (Stats.function_counts s) = keys (Stats.function_totals s) /\
  keys (Stats.function_counts_nonrec s) = keys (Stats.function_totals s).

(** The entry of [f] after the map [b] has been added to the map [a]. *)
Definition merged (a b : dict num) (f : string) : option num :=
  match find f b with
  | Some y => Some (nadd (match find f a with Some x => x | None => zero end) y)
  | None => find f a
  end.

(** The zero entries lines 203-206 create for a function new to [A]. *)
Definition with_zero_entries (f : string) (A : Stats.t) : Stats.t :=
  Stats.set_function_counts_nonrec (setitem f zero (Stats.function_counts_nonrec A))
    (Stats.set_function_counts (setitem f zero (Stats.function_counts A))
       (Stats.set_function_cumulated_totals
          (setitem f zero (Stats.function_cumulated_totals A))
          (Stats.set_function_totals (setitem f zero (Stats.function_totals A)) A))).

(** The value [f] has in the map [a], zero when it has none. *)
Definition value_or_zero (a : dict num) (f : string) : num :=
  match find f a with
  | Some x => x
  | None => zero
  end.

(** After one pass of the loop of lines 201-210 for the function [f]: the
    entry of [f] in the map [X], from what it was in [A] (or zero) and the
    source's value [b]; the other entries are untouched. *)
Definition passed (X : Stats.t -> dict num) (A A1 : Stats.t) (f : string) (b : num) : Prop :=
  forall g, find g (X A1)
            = if String.eqb g f then Some (nadd (value_or_zero (X A) f) b)
              else find g (X A).

(** The entry of [g] after the entries of [b] for the functions [ks] have
    been added to the map [a]. *)
Definition merged_on (ks : list string) (a b : dict num) (g : string) : option num :=
  if str_in g ks
  then match find g b with
       | Some y => Some (nadd (value_or_zero a g) y)
       | None => find g a
       end
  else find g a.

(** The text [add] loads for a [str] argument: what local storage holds
    under it as a key, else the argument itself. *)
Definition text_of (storage : dict string) (s : string) : string :=
  match find s storage with
  | Some text => text
  | None => s
  end.

(** Running [m] changes neither the nodes of the treemap nor the root and
    the element of the controller. *)
Definition tree_kept {A} (m : M CallGrind.state A) : Prop :=
  forall st,
    MethodElement.nodes (fst (fst (m st))) = MethodElement.nodes (fst st) /\
    CallGrind._root (snd (fst (m st))) = CallGrind._root (snd st) /\
    CallGrind._element (snd (fst (m st))) = CallGrind._element (snd st).

End Notions.

(** * Properties *)

Import Py Notions.

(** ** Facts about the runtime *)

(** *** [sorted] *)

Section SortFacts.
Context {A : Type} (before : A -> A -> bool).
Hypothesis before_asym : forall a b, before a b = true -> before b a = false.

Lemma insert_HdRel (y x : A) (l : list A) :
  before y x = true -> HdRel (lined_up before) y l -> HdRel (lined_up before) y (insert before x l).
Proof.
  intros Hyx Hl. destruct l as [|z l]; simpl.
  - constructor. apply before_asym, Hyx.
  - destruct (before z x).
    + constructor. inversion Hl; assumption.
    + constructor. apply before_asym, Hyx.
Qed.

Lemma insert_Sorted (x : A) (l : list A) :
  Sorted (lined_up before) l -> Sorted (lined_up before) (insert before x l).
Proof.
  induction 1 as [|y l Hs IH Hd]; simpl.
  - repeat constructor.
  - destruct (before y x) eqn:E.
    + constructor; [exact IH|]. apply insert_HdRel; assumption.
    + constructor; [constructor; assumption|]. constructor. exact E.
Qed.

Lemma stable_sort_Sorted (l : list A) :
  Sorted (lined_up before) (stable_sort before l).
Proof.
  induction l as [|x l IH]; simpl; [constructor|].
  apply insert_Sorted, IH.
Qed.

End SortFacts.

Lemma insert_Permutation {A} (before : A -> A -> bool) (x : A) (l : list A) :
  Permutation (x :: l) (insert before x l).
Proof.
  induction l as [|y l IH]; simpl; [reflexivity|].
  destruct (before y x); [|reflexivity].
  rewrite perm_swap. constructor. exact IH.
Qed.

Lemma stable_sort_Permutation {A} (before : A -> A -> bool) (l : list A) :
  Permutation l (stable_sort before l).
Proof.
  induction l as [|x l IH]; simpl; [reflexivity|].
  rewrite <- insert_Permutation. constructor. exact IH.
Qed.

Lemma Sorted_map_in {A B} (R : A -> A -> Prop) (R' : B -> B -> Prop) (f : A -> B)
  (l : list A) :
  (forall a b, In a l -> In b l -> R a b -> R' (f a) (f b)) ->
  Sorted R l -> Sorted R' (map f l).
Proof.
  intros H Hs. induction Hs as [|a l Hs IH Hd]; simpl; [constructor|].
  constructor.
  - apply IH. intros x y Hx Hy. apply H; right; assumption.
  - destruct Hd as [|b l Hab]; simpl; constructor.
    apply H; [left; reflexivity|right; left; reflexivity|exact Hab].
Qed.

Lemma Qltb_asym (x y : Q) : Qltb x y = true -> Qltb y x = false.
Proof.
  unfold Qltb. rewrite <- (Qcompare_antisym x y).
  destruct (Qcompare x y); simpl; congruence.
Qed.

Lemma nltb_asym (a b : num) : nltb a b = true -> nltb b a = false.
Proof.
  destruct a, b; simpl; try congruence. apply Qltb_asym.
Qed.

Lemma ltb_asym (a b : string) : String.ltb a b = true -> String.ltb b a = false.
Proof.
  unfold String.ltb. rewrite (String.compare_antisym b a).
  destruct (String.compare a b); simpl; congruence.
Qed.

Lemma not_ltb_leb (a b : string) : String.ltb b a = false -> String.leb a b = true.
Proof.
  unfold String.ltb, String.leb. rewrite (String.compare_antisym b a).
  destruct (String.compare a b); simpl; congruence.
Qed.

(** *** Dictionaries *)

Lemma str_in_In (x : string) (l : list string) : str_in x l = true <-> In x l.
Proof.
  induction l as [|y l IH]; simpl; [split; [discriminate|tauto]|].
  rewrite orb_true_iff, IH, String.eqb_eq. split; intros [H|H]; auto.
Qed.

Lemma find_In {V} (k : string) (v : V) (d : dict V) :
  dict_wf d = true -> In (k, v) d -> find k d = Some v.
Proof.
  unfold dict_wf. induction d as [|[k' v'] d IH]; simpl; [tauto|].
  rewrite andb_true_iff, negb_true_iff. intros [Hn Hd] [E|Hin].
  - inversion E; subst. rewrite String.eqb_refl. reflexivity.
  - destruct (String.eqb k k') eqn:Ek.
    + apply String.eqb_eq in Ek; subst.
      assert (str_in k' (keys d) = true) as C.
      { apply str_in_In. change k' with (fst (k', v)). apply in_map, Hin. }
      congruence.
    + apply IH; assumption.
Qed.

Lemma find_Some_In {V} (k : string) (v : V) (d : dict V) :
  find k d = Some v -> In (k, v) d.
Proof.
  induction d as [|[k' v'] d IH]; simpl; [discriminate|].
  destruct (String.eqb k k') eqn:Ek.
  - apply String.eqb_eq in Ek; subst. intros E; inversion E; auto.
  - auto.
Qed.

Lemma mem_keys {V} (k : string) (d : dict V) : mem k d = true <-> In k (keys d).
Proof.
  unfold mem. induction d as [|[k' v'] d IH]; simpl; [split; [discriminate|tauto]|].
  destruct (String.eqb k k') eqn:Ek.
  - apply String.eqb_eq in Ek; subst. split; auto.
  - rewrite IH. apply String.eqb_neq in Ek. split; [auto|intros [E|H]; congruence].
Qed.

Lemma getitem_In {V} (k : string) (d : dict V) :
  In k (keys d) -> exists v, getitem d k = Ok v /\ find k d = Some v.
Proof.
  intros H. apply mem_keys in H. unfold mem, getitem in *.
  destruct (find k d) as [v|]; [eauto|discriminate].
Qed.

(** *** Comprehensions *)

Lemma rmap_In {A B} (f : A -> result B) (l : list A) (l' : list B) :
  rmap f l = Ok l' -> forall y, In y l' -> exists x, In x l /\ f x = Ok y.
Proof.
  revert l'. induction l as [|x l IH]; simpl; intros l' H y Hy.
  - inversion H; subst. destruct Hy.
  - destruct (f x) as [b|] eqn:Ex; simpl in H; [|discriminate].
    destruct (rmap f l) as [bs|]; simpl in H; [|discriminate].
    inversion H; subst. destruct Hy as [<-|Hy]; [eauto|].
    destruct (IH bs eq_refl y Hy) as [x' [Hin Hx']]. eauto.
Qed.

Lemma In_set_add (x y : string) (s : list string) :
  In x (set_add y s) <-> x = y \/ In x s.
Proof.
  unfold set_add. destruct (str_in y s) eqn:E.
  - apply str_in_In in E. split; [auto|intros [->|H]; assumption].
  - rewrite in_app_iff. simpl. split; intros [H|H]; auto.
    + destruct H as [H|[]]; auto.
Qed.

Lemma In_set_of_list (x : string) (l : list string) : In x (set_of_list l) <-> In x l.
Proof.
  unfold set_of_list.
  assert (forall acc, In x (fold_left (fun s y => set_add y s) l acc)
                      <-> In x l \/ In x acc) as H.
  { induction l as [|y l IH]; intros acc; simpl; [tauto|].
    rewrite IH, In_set_add. intuition (subst; auto). }
  rewrite H. simpl. tauto.
Qed.

Lemma keys_within_In {V W} (d1 : dict V) (d2 : dict W) (k : string) :
  keys_within d1 d2 = true -> In k (keys d1) -> In k (keys d2).
Proof.
  unfold keys_within. rewrite forallb_forall. intros H Hk.
  apply mem_keys, H, Hk.
Qed.

(** ** The top-level profile *)

Lemma sum_of_keys {V} (d : dict V) :
  d <> [] ->
  sum (iter_dict d) = Raise (TypeError "unsupported operand type(s) for +: 'int' and 'str'").
Proof.
  destruct d as [|[k v] d]; [congruence|reflexivity].
Qed.

(** Whenever some function is known, asking for the top-level profile
    raises. *)
Lemma method_profile_top_level_raises (self : Stats.t) (chain : option string) :
  Stats.function_totals self <> [] ->
  Stats.method_profile self None chain
  = Raise (TypeError "unsupported operand type(s) for +: 'int' and 'str'").
Proof.
  intros H. unfold Stats.method_profile. rewrite (sum_of_keys _ H). reflexivity.
Qed.

(** (C3) The top-level query of the snapshot with duration 1000 ms and the
    two self times 200 ms and 300 ms does not return total 500 and
    cumulated 1000: [sum] is given the dict of self times, iterates its
    keys, and adding the first function name to 0 raises [TypeError].  Only
    a snapshot without functions gets an answer. *)
Theorem top_level_profile_of_two_functions :
  Stats.duration Sample.two_functions = num_of_Z 1000 /\
  Stats.function_totals Sample.two_functions
  = [("f", num_of_Z 200); ("g", num_of_Z 300)] /\
  Stats.method_profile Sample.two_functions None None
  = Raise (TypeError "unsupported operand type(s) for +: 'int' and 'str'") /\
  Stats.method_profile Sample.empty None None
  = Ok [("total", zero); ("counts", zero); ("cumulated", zero); ("counts_nonrec", zero)].
Proof.
  repeat split; vm_compute; reflexivity.
Qed.

(** ** Children of a call chain *)

(** The loop of [sub_calls] for a given chain, over the functions [fs], from
    the list [ret0] collected so far. *)
Lemma sub_calls_loop (self : Stats.t) (chain : string) (fs : list string) :
  (forall f, In f fs -> In f (keys (Stats.callers self))) ->
  forall ret0,
  exists ret,
    rfold (fun ret func =>
             let* callers_of_func := getitem (Stats.callers self) func in
             if mem chain callers_of_func then Ok (ret ++ [func]) else Ok ret)
          ret0 fs = Ok ret /\
    forall f, In f ret <->
              In f ret0 \/
              (In f fs /\ exists d, find f (Stats.callers self) = Some d /\ mem chain d = true).
Proof.
  induction fs as [|g fs IH]; intros Hin ret0.
  - exists ret0. split; [reflexivity|]. intros f. simpl. tauto.
  - simpl. destruct (getitem_In g _ (Hin g (or_introl eq_refl))) as [d [Eg Fg]].
    rewrite Eg; simpl.
    assert (forall f, In f fs -> In f (keys (Stats.callers self))) as Hin'
        by (intros; apply Hin; right; assumption).
    destruct (mem chain d) eqn:Em.
    + destruct (IH Hin' (ret0 ++ [g])) as [ret [Hr Hiff]].
      exists ret. split; [exact Hr|]. intros f. rewrite Hiff, in_app_iff. simpl.
      split.
      * intros [[H|[<-|[]]]|[H1 H2]]; eauto 8.
      * intros [H|[[<-|H1] H2]]; eauto 8.
    + destruct (IH Hin' ret0) as [ret [Hr Hiff]].
      exists ret. split; [exact Hr|]. intros f. rewrite Hiff.
      split.
      * intros [H|[H1 H2]]; eauto 8.
      * intros [H|[[<-|H1] [d' [H2 H3]]]];
          [eauto|exfalso; congruence|eauto 8].
Qed.

(** With a chain, [sub_calls] returns exactly the profiled functions that
    have an edge under the chain, provided every profiled function has an
    entry in [callers]. *)
Lemma sub_calls_of_chain (self : Stats.t) (chain : string) :
  keys_within (Stats.function_totals self) (Stats.callers self) = true ->
  exists l,
    Stats.sub_calls self (Some chain) = Ok l /\
    forall f, In f l <->
              In f (Stats.profiled_methods self) /\
              exists d, find f (Stats.callers self) = Some d /\ mem chain d = true.
Proof.
  intros Hk.
  destruct (sub_calls_loop self chain (Stats.profiled_methods self)
              (fun f => keys_within_In _ _ f Hk) []) as [ret [Hr Hiff]].
  exists (set_of_list ret). unfold Stats.sub_calls. rewrite Hr. simpl.
  split; [reflexivity|]. intros f. rewrite In_set_of_list, Hiff. simpl. tauto.
Qed.

(** Without a chain, [sub_calls] raises as soon as one function is
    profiled. *)
Lemma sub_calls_unset_raises (self : Stats.t) :
  Stats.profiled_methods self <> [] ->
  exists e, Stats.sub_calls self None = Raise e.
Proof.
  unfold Stats.sub_calls, Stats.profiled_methods, keys.
  destruct (Stats.function_totals self) as [|[f v] l]; simpl; [congruence|]. intros _.
  destruct (getitem (Stats.callers self) f); simpl; eauto.
Qed.

(** [sub_calls_profile] raises as soon as the chain has a callee. *)
Lemma sub_calls_profile_raises (self : Stats.t) (chain : option string)
  (f : string) (fs : list string) :
  Stats.sub_calls self chain = Ok (f :: fs) ->
  Stats.sub_calls_profile self chain
  = Raise (TypeError "method_profile() got an unexpected keyword argument").
Proof.
  intros H. unfold Stats.sub_calls_profile. rewrite H. reflexivity.
Qed.

(** (C6) On the snapshot whose only function [f] is called from the
    top-level location [1,m:], [sub_calls] without a chain does not return
    [f]: it reads the attribute [_top_level_callers], which no snapshot has,
    and raises [AttributeError].  With the chain [1,m:] it returns [f], but
    [sub_calls_profile] of that chain raises [TypeError]: it passes
    [restrict_to_calls_from], which is not a parameter of
    [method_profile]. *)
Theorem sub_calls_of_one_function :
  Stats.callers Sample.only_f = [("f", [("1,m:", Sample.edge 20 10 2 1)])] /\
  Stats._top_level_call_locations Sample.only_f = ["1,m:"] /\
  Stats.sub_calls Sample.only_f None = Raise (AttributeError "_top_level_callers") /\
  Stats.sub_calls Sample.only_f (Some "1,m:") = Ok ["f"] /\
  Stats.sub_calls_profile Sample.only_f (Some "1,m:")
  = Raise (TypeError "method_profile() got an unexpected keyword argument").
Proof.
  repeat split; vm_compute; reflexivity.
Qed.

(** ** Merging two snapshots that know the same function *)

(** (C1) Merging is not independent of the order, and caller edges are not
    summed.  Start from an empty snapshot at 0 and merge the snapshots at 1
    (only [f]) and 2 ([g], then [f]).  In the order 1, 2 the merge returns,
    but the edge of [f] from 2 is added to the edge of [g] and the edge of
    [f] stays as 1 left it.  In the order 2, 1 the second merge raises
    [UnboundLocalError]: [sc] is bound only when the function is new to the
    destination.  The same happens when a snapshot that knows [f] receives
    another one that knows [f]. *)
Theorem merge_caller_edges_depend_on_order :
  let h := [Sample.empty; Sample.only_f; Sample.g_then_f] in
  let one_two := (Stats._add_stat 0 1 ;;; Stats._add_stat 0 2) h in
  let two_one := (Stats._add_stat 0 2 ;;; Stats._add_stat 0 1) h in
  snd one_two = Ok tt /\
  callers_at 0 (fst one_two)
  = Some [("f", [("1,m:", Sample.edge 20 10 2 1)]);
          ("g", [("1,m:", Sample.edge 7 6 8 8)])] /\
  snd two_one = Raise (UnboundLocalError "sc") /\
  callers_at 0 (fst two_one)
  = Some [("g", [("1,m:", Sample.edge 2 1 3 3)]);
          ("f", [("1,m:", Sample.edge 5 5 5 5)])] /\
  let once := Stats._add_stat 0 1 [Sample.only_f; Sample.only_f_again] in
  snd once = Raise (UnboundLocalError "sc") /\
  callers_at 0 (fst once) = Some [("f", [("1,m:", Sample.edge 20 10 2 1)])].
Proof.
  repeat split; vm_compute; reflexivity.
Qed.

(** ** What a merge writes *)

Lemma keeps_others_refl (self : Stats.loc) (h : Stats.heap) : keeps_others self h h.
Proof. intros l s _ H. exact H. Qed.

Lemma keeps_others_trans (self : Stats.loc) (h1 h2 h3 : Stats.heap) :
  keeps_others self h1 h2 -> keeps_others self h2 h3 -> keeps_others self h1 h3.
Proof. intros H12 H23 l s Hl H. apply H23, H12; assumption. Qed.

Lemma nth_error_store_other (self l : Stats.loc) (s : Stats.t) (h : Stats.heap) :
  l <> self -> nth_error (Stats.store self s h) l = nth_error h l.
Proof.
  revert self l. induction h as [|x h IH]; intros self l Hl.
  - destruct self; reflexivity.
  - destruct self as [|self], l as [|l]; simpl; try reflexivity; try congruence.
    apply IH. congruence.
Qed.

Section Frame.
Variable self : Stats.loc.

Lemma writes_ret {A} (a : A) : writes_only self (ret a).
Proof. intros h. apply keeps_others_refl. Qed.

Lemma writes_raise {A} (e : exn) : writes_only self (@raise Stats.heap A e).
Proof. intros h. apply keeps_others_refl. Qed.

Lemma writes_lift {A} (r : result A) : writes_only self (lift r).
Proof. intros h. apply keeps_others_refl. Qed.

Lemma writes_deref (l : Stats.loc) : writes_only self (Stats.deref l).
Proof.
  intros h. unfold Stats.deref. destruct (nth_error h l); apply keeps_others_refl.
Qed.

Lemma writes_on {A} (m : M Stats.t A) : writes_only self (Stats.on self m).
Proof.
  intros h. unfold Stats.on. destruct (nth_error h self) as [s|].
  - destruct (m s) as [s' r]. simpl. intros l x Hl H.
    rewrite nth_error_store_other; assumption.
  - apply keeps_others_refl.
Qed.

Lemma writes_alloc (s : Stats.t) : writes_only self (Stats.alloc s).
Proof.
  intros h l x _ H. unfold Stats.alloc. simpl.
  rewrite nth_error_app1; [exact H|]. apply nth_error_Some. congruence.
Qed.

Lemma writes_bind {A B} (m : M Stats.heap A) (k : A -> M Stats.heap B) :
  writes_only self m -> (forall a, writes_only self (k a)) ->
  writes_only self (bind m k).
Proof.
  intros Hm Hk h. unfold bind. specialize (Hm h).
  destruct (m h) as [h' [a|e]]; simpl in *; [|exact Hm].
  eapply keeps_others_trans; [exact Hm|apply Hk].
Qed.

Lemma writes_for_each {A} (xs : list A) (body : A -> M Stats.heap unit) :
  (forall x, writes_only self (body x)) -> writes_only self (for_each xs body).
Proof.
  intros Hb. induction xs as [|x xs IH]; simpl.
  - apply writes_ret.
  - apply writes_bind; [apply Hb|intros _; exact IH].
Qed.

Lemma writes_for_fold {A B} (xs : list A) (acc : B) (body : B -> A -> M Stats.heap B) :
  (forall acc x, writes_only self (body acc x)) ->
  writes_only self (for_fold xs acc body).
Proof.
  intros Hb. revert acc. induction xs as [|x xs IH]; intros acc; simpl.
  - apply writes_ret.
  - apply writes_bind; [apply Hb|intros acc'; apply IH].
Qed.

End Frame.

Ltac frame :=
  repeat first
    [ apply writes_ret | apply writes_raise | apply writes_lift | apply writes_deref
    | apply writes_on | apply writes_alloc
    | apply writes_bind; [|intros]
    | apply writes_for_each; intros
    | apply writes_for_fold; intros
    | match goal with
      | |- writes_only _ (if ?c then _ else _) => destruct c
      | |- writes_only _ (match ?x with _ => _ end) => destruct x
      end ].

Lemma iadd_field_writes (field : Stats.t -> dict num) (set_field : dict num -> Stats.t -> Stats.t)
  (self stat : Stats.loc) (f : string) :
  writes_only self (Stats.iadd_field field set_field self stat f).
Proof. unfold Stats.iadd_field. frame. Qed.

Lemma sc_setitem_writes (self : Stats.loc) (g caller : string) (e : Stats.profile) :
  writes_only self (Stats.sc_setitem self g caller e).
Proof. unfold Stats.sc_setitem. frame. Qed.

Lemma _add_stat_writes (self stat : Stats.loc) :
  writes_only self (Stats._add_stat self stat).
Proof.
  unfold Stats._add_stat.
  repeat first [ apply iadd_field_writes | apply sc_setitem_writes | progress frame ].
Qed.

Lemma add_writes (json_loads : string -> result Json.json) (storage : dict string)
  (self : Stats.loc) (stats : list Stats.source) :
  writes_only self (Stats.add json_loads storage self stats).
Proof.
  unfold Stats.add, Stats.new.
  repeat first [ apply _add_stat_writes | progress frame ].
Qed.

(** (C10) Merging never modifies its source.  Whatever [_add_stat] does to
    the destination [self], and whether it returns or raises, a snapshot
    [B] stored anywhere else, the source included, is afterwards the
    snapshot [B], with all its fields.  The same holds for [add], for every
    list of sources, the temporary snapshots it builds from texts
    included. *)
Theorem merge_leaves_source (json_loads : string -> result Json.json)
  (storage : dict string) (self b : Stats.loc) (stats : list Stats.source)
  (h : Stats.heap) (B : Stats.t)
  (Hdistinct : b <> self) (Hb : nth_error h b = Some B) :
  nth_error (fst (Stats._add_stat self b h)) b = Some B /\
  nth_error (fst (Stats.add json_loads storage self (Stats.Instance b :: stats) h)) b
  = Some B.
Proof.
  split.
  - apply (_add_stat_writes self b h); assumption.
  - apply (add_writes json_loads storage self _ h); assumption.
Qed.

Lemma merge_leaves_source_witness :
  let h := [Sample.empty; Sample.g_then_f] in
  let text := Stats.__json__ SexpCodec.dumps Sample.only_f in
  nth_error (fst (Stats._add_stat 0 1 h)) 1 = Some Sample.g_then_f /\
  nth_error (fst (Stats.add SexpCodec.loads [("run1", text)] 0
                    [Stats.Instance 1; Stats.Str "run1"] h)) 1
  = Some Sample.g_then_f.
Proof.
  apply (merge_leaves_source SexpCodec.loads
           [("run1", Stats.__json__ SexpCodec.dumps Sample.only_f)] 0 1
           [Stats.Str "run1"] [Sample.empty; Sample.g_then_f] Sample.g_then_f).
  - discriminate.
  - reflexivity.
Defined.

(** ** Sorting *)

Lemma sorted_by_In {A K} (lt : K -> K -> bool) (key : A -> K) (reverse : bool)
  (l : list A) (x : A) :
  In x (sorted_by lt key reverse l) -> In x l.
Proof.
  apply Permutation_in. symmetry. apply stable_sort_Permutation.
Qed.

(** Pairs that carry each function's quantity come out of the final
    [sorted] of [_sorted_keys] with neighbours in order. *)
Lemma sorted_pairs_neighbours (self : Stats.t) (key : string) (ps : list (string * num)) :
  (forall p, In p ps -> quantity self key (fst p) = Ok (snd p)) ->
  Sorted (neighbours self key)
    (map fst (sorted_by nltb snd (negb (Stats._reverse_order self)) ps)).
Proof.
  intros Hq.
  set (before := fun a b : string * num =>
                   if negb (Stats._reverse_order self)
                   then nltb (snd b) (snd a) else nltb (snd a) (snd b)).
  apply Sorted_map_in with (R := lined_up before).
  - intros a b Ha Hb Hab.
    exists (snd a), (snd b).
    split; [apply Hq; eapply sorted_by_In; exact Ha|].
    split; [apply Hq; eapply sorted_by_In; exact Hb|].
    unfold lined_up, before, in_order in *.
    destruct (Stats._reverse_order self); simpl in *; exact Hab.
  - apply (stable_sort_Sorted before).
    intros a b. unfold before.
    destruct (negb (Stats._reverse_order self)); apply nltb_asym.
Qed.

Lemma items_quantity (d : dict num) (self : Stats.t) (key : string) :
  dict_wf d = true ->
  (forall f, quantity self key f = getitem d f) ->
  forall p, In p (items d) -> quantity self key (fst p) = Ok (snd p).
Proof.
  intros Hwf Hq [k v] Hin. rewrite Hq. unfold getitem. simpl.
  rewrite (find_In k v d Hwf Hin). reflexivity.
Qed.

Lemma wf_parts (self : Stats.t) :
  Stats.wf self = true ->
  dict_wf (Stats.function_totals self) = true /\
  dict_wf (Stats.function_cumulated_totals self) = true /\
  dict_wf (Stats.function_counts self) = true /\
  dict_wf (Stats.function_counts_nonrec self) = true.
Proof.
  unfold Stats.wf. rewrite !andb_true_iff. tauto.
Qed.

Lemma sorted_keys_neighbours (self : Stats.t) (key : string) (sk : list string) :
  Stats.wf self = true ->
  In key numeric_keys ->
  Stats._sorted_keys (Stats.set__ordering key self) = Ok sk ->
  Sorted (neighbours self key) sk.
Proof.
  intros Hwf Hkey.
  destruct (wf_parts self Hwf) as (Ht & Hc & Hn & _).
  unfold numeric_keys in Hkey. simpl in Hkey.
  destruct Hkey as [<-|[<-|[<-|[<-|[<-|[]]]]]];
    unfold Stats._sorted_keys; simpl; intros H.
  - inversion H; subst.
    apply (sorted_pairs_neighbours self "ncalls").
    apply items_quantity; [exact Hn|reflexivity].
  - inversion H; subst.
    apply (sorted_pairs_neighbours self "tottime").
    apply items_quantity; [exact Ht|reflexivity].
  - match type of H with rbind ?r _ = _ => destruct r as [ps|] eqn:E end;
      simpl in H; [|discriminate].
    inversion H; subst.
    apply (sorted_pairs_neighbours self "percall").
    intros p Hp. destruct (rmap_In _ _ _ E p Hp) as [k [_ Hk]].
    unfold quantity; simpl.
    destruct (getitem (Stats.function_totals self) k) as [a|] eqn:Ea;
      simpl in Hk; [|discriminate].
    destruct (getitem (Stats.function_counts self) k) as [b|] eqn:Eb;
      simpl in Hk; [|discriminate].
    destruct (ndiv a b) as [q|] eqn:Eq; simpl in Hk; [|discriminate].
    inversion Hk; subst; simpl. rewrite Ea, Eb; simpl. exact Eq.
  - inversion H; subst.
    apply (sorted_pairs_neighbours self "cumtime").
    apply items_quantity; [exact Hc|reflexivity].
  - match type of H with rbind ?r _ = _ => destruct r as [ps|] eqn:E end;
      simpl in H; [|discriminate].
    inversion H; subst.
    apply (sorted_pairs_neighbours self "var percall").
    intros p Hp. destruct (rmap_In _ _ _ E p Hp) as [k [_ Hk]].
    unfold quantity; simpl.
    destruct (getitem (Stats.function_cumulated_totals self) k) as [a|] eqn:Ea;
      simpl in Hk; [|discriminate].
    destruct (getitem (Stats.function_counts_nonrec self) k) as [b|] eqn:Eb;
      simpl in Hk; [|discriminate].
    destruct (ndiv a b) as [q|] eqn:Eq; simpl in Hk; [|discriminate].
    inversion Hk; subst; simpl. rewrite Ea, Eb; simpl. exact Eq.
Qed.

Lemma rmap_Raise {A B} (f : A -> result B) (l : list A) (e : exn) :
  rmap f l = Raise e -> exists x, In x l /\ f x = Raise e.
Proof.
  induction l as [|x l IH]; simpl; [discriminate|].
  destruct (f x) as [y|e'] eqn:Ex; simpl.
  - destruct (rmap f l) as [ys|e'] eqn:El; simpl; [discriminate|].
    intros H. inversion H; subst e'.
    destruct (IH eq_refl) as [x' [Hin Hx']]. eauto.
  - intros H. inversion H; subst e'. eauto.
Qed.

Lemma rmap_map_fst {A} (f : string -> result (string * A)) (l : list string)
  (l' : list (string * A)) :
  (forall k p, f k = Ok p -> fst p = k) ->
  rmap f l = Ok l' -> map fst l' = l.
Proof.
  intros Hf. revert l'. induction l as [|x l IH]; simpl; intros l' H.
  - inversion H; reflexivity.
  - destruct (f x) as [b|] eqn:Ex; simpl in H; [|discriminate].
    destruct (rmap f l) as [bs|]; simpl in H; [|discriminate].
    inversion H; subst. simpl. rewrite (Hf _ _ Ex), (IH bs eq_refl). reflexivity.
Qed.

Lemma ratio_pair_fst (a b : dict num) (k : string) (p : string * num) :
  (let* x := getitem a k in let* y := getitem b k in let* q := ndiv x y in Ok (k, q)) = Ok p ->
  fst p = k.
Proof.
  destruct (getitem a k); simpl; [|discriminate].
  destruct (getitem b k); simpl; [|discriminate].
  destruct (ndiv _ _); simpl; [|discriminate].
  intros H; inversion H; reflexivity.
Qed.

(** The quantity a ratio key names, as the comprehension of
    [_sorted_keys] computes it for one function. *)
Lemma ratio_pair_quantity (self : Stats.t) (key : string) (a b : dict num) (k : string) :
  (forall f, quantity self key f
             = let* x := getitem a f in let* y := getitem b f in ndiv x y) ->
  match (let* x := getitem a k in let* y := getitem b k in let* q := ndiv x y in Ok (k, q)) with
  | Ok p => fst p = k /\ quantity self key k = Ok (snd p)
  | Raise e => quantity self key k = Raise e
  end.
Proof.
  intros Hq. rewrite Hq.
  destruct (getitem a k); simpl; [|reflexivity].
  destruct (getitem b k); simpl; [|reflexivity].
  destruct (ndiv _ _); simpl; auto.
Qed.

(** The two outcomes of the comprehension of a ratio key. *)
Lemma ratio_pairs (self : Stats.t) (key : string) (a b : dict num) :
  (forall f, quantity self key f
             = let* x := getitem a f in let* y := getitem b f in ndiv x y) ->
  match rmap (fun k => let* x := getitem a k in let* y := getitem b k in
                       let* q := ndiv x y in Ok (k, q)) (keys b) with
  | Ok ps => (forall p, In p ps -> quantity self key (fst p) = Ok (snd p)) /\
             map fst ps = keys b
  | Raise e => exists f, In f (keys b) /\ quantity self key f = Raise e
  end.
Proof.
  intros Hq.
  destruct (rmap _ (keys b)) as [ps|e] eqn:E.
  - split.
    + intros p Hp. destruct (rmap_In _ _ _ E p Hp) as [k [_ Hk]].
      pose proof (ratio_pair_quantity self key a b k Hq) as H.
      rewrite Hk in H. destruct H as [<- H]. exact H.
    + exact (rmap_map_fst _ _ _ (ratio_pair_fst a b) E).
  - destruct (rmap_Raise _ _ _ E) as [k [Hin Hk]].
    exists k. split; [exact Hin|].
    pose proof (ratio_pair_quantity self key a b k Hq) as H.
    rewrite Hk in H. exact H.
Qed.

(** What [_sorted_keys] does for a numeric key: it sorts pairs that carry
    each listed function with its quantity, or raises what the quantity of
    a listed function raises; only the two ratio keys can raise. *)
Lemma sorted_keys_cases (self : Stats.t) (key : string) :
  Stats.wf self = true ->
  In key numeric_keys ->
  match Stats._sorted_keys (Stats.set__ordering key self) with
  | Ok sk =>
      exists ps,
        (forall p, In p ps -> quantity self key (fst p) = Ok (snd p)) /\
        map fst ps = keys (listed_map self key) /\
        sk = map fst (sorted_by nltb snd (negb (Stats._reverse_order self)) ps)
  | Raise e =>
      (key = "percall" \/ key = "var percall") /\
      exists f, In f (keys (listed_map self key)) /\ quantity self key f = Raise e
  end.
Proof.
  intros Hwf Hkey.
  destruct (wf_parts self Hwf) as (Ht & Hc & Hn & _).
  unfold numeric_keys in Hkey. simpl in Hkey.
  destruct Hkey as [<-|[<-|[<-|[<-|[<-|[]]]]]];
    unfold Stats._sorted_keys, listed_map; simpl.
  - exists (items (Stats.function_counts self)).
    split; [apply items_quantity; [exact Hn|reflexivity]|]. split; reflexivity.
  - exists (items (Stats.function_totals self)).
    split; [apply items_quantity; [exact Ht|reflexivity]|]. split; reflexivity.
  - pose proof (ratio_pairs self "percall" (Stats.function_totals self)
                  (Stats.function_counts self) (fun f => eq_refl)) as H.
    destruct (rmap _ (keys (Stats.function_counts self))) as [ps|e]; simpl.
    + exists ps. destruct H as [H1 H2]. split; [exact H1|]. split; [exact H2|reflexivity].
    + split; [left; reflexivity|exact H].
  - exists (items (Stats.function_cumulated_totals self)).
    split; [apply items_quantity; [exact Hc|reflexivity]|]. split; reflexivity.
  - pose proof (ratio_pairs self "var percall" (Stats.function_cumulated_totals self)
                  (Stats.function_counts_nonrec self) (fun f => eq_refl)) as H.
    destruct (rmap _ (keys (Stats.function_counts_nonrec self))) as [ps|e]; simpl.
    + exists ps. destruct H as [H1 H2]. split; [exact H1|]. split; [exact H2|reflexivity].
    + split; [right; reflexivity|exact H].
Qed.

(** [sort] stores the key, then caches what [_sorted_keys] returns. *)
Lemma sort_runs (self : Stats.t) (key : string) :
  Stats.sort key self
  = match Stats._sorted_keys (Stats.set__ordering key self) with
    | Ok sk => (Stats.set__sk (Some sk) (Stats.set__ordering key self), Ok tt)
    | Raise e => (Stats.set__ordering key self, Raise e)
    end.
Proof.
  unfold Stats.sort, bind, modify, get, lift. cbn [fst snd].
  destruct (Stats._sorted_keys (Stats.set__ordering key self)); reflexivity.
Qed.

(** A numeric sort that returns lists the functions of the map it walks. *)
Lemma sorted_keys_listed (self : Stats.t) (key : string) (sk : list string) :
  Stats.wf self = true ->
  In key numeric_keys ->
  Stats._sorted_keys (Stats.set__ordering key self) = Ok sk ->
  Permutation sk (keys (listed_map self key)) /\
  (forall f, In f sk -> exists x, quantity self key f = Ok x).
Proof.
  intros Hwf Hkey H.
  pose proof (sorted_keys_cases self key Hwf Hkey) as C. rewrite H in C.
  destruct C as [ps [Hq [Hk ->]]]. split.
  - rewrite <- Hk. apply Permutation_map. symmetry. apply stable_sort_Permutation.
  - intros f Hf. apply in_map_iff in Hf. destruct Hf as [p [<- Hp]].
    exists (snd p). apply Hq. eapply sorted_by_In. exact Hp.
Qed.

(** (C5) The sort contract, for a snapshot whose function-keyed maps are
    dicts.

    [sort("ncalls")] always returns; the order it caches is a
    rearrangement of the counted functions in which every adjacent pair
    satisfies the ordering predicate on their counts.

    [sort("standard name")] caches, whatever the reverse flag, one and the
    same order: the function names in lexicographic order.

    Each of the five numeric keys follows one convention.  When [sort]
    returns, it has stored the key and cached an order that is a
    rearrangement of the functions of the map the key walks, every one of
    them with its quantity, and every adjacent pair satisfies the same
    predicate [in_order] on the quantity the key names: not below its right
    neighbour by default, not above it with the reverse flag set.  When
    [sort] raises, it has stored the key and cached nothing, the key is
    percall or var percall, and the exception is the one the quantity of
    a listed function raises.  So ncalls, tottime and cumtime always sort,
    and a ratio key sorts exactly when every listed function has its
    ratio. *)
Theorem sort_contract (self : Stats.t) (Hwf : Stats.wf self = true) :
  (exists sk,
     Stats.sort "ncalls" self
     = (Stats.set__sk (Some sk) (Stats.set__ordering "ncalls" self), Ok tt) /\
     Permutation sk (keys (Stats.function_counts self)) /\
     Sorted (neighbours self "ncalls") sk) /\
  (exists sk,
     (forall rev,
        Stats.sort "standard name" (Stats.set__reverse_order rev self)
        = (Stats.set__sk (Some sk)
             (Stats.set__ordering "standard name" (Stats.set__reverse_order rev self)),
           Ok tt)) /\
     Permutation sk (keys (Stats.function_totals self)) /\
     Sorted (fun a b => String.leb a b = true) sk) /\
  (forall key,
     In key numeric_keys ->
     match Stats.sort key self with
     | (s', Ok _) =>
         exists sk,
           s' = Stats.set__sk (Some sk) (Stats.set__ordering key self) /\
           Permutation sk (keys (listed_map self key)) /\
           (forall f, In f sk -> exists x, quantity self key f = Ok x) /\
           Sorted (neighbours self key) sk
     | (s', Raise e) =>
         s' = Stats.set__ordering key self /\
         (key = "percall" \/ key = "var percall") /\
         exists f, In f (keys (listed_map self key)) /\ quantity self key f = Raise e
     end).
Proof.
  split; [|split].
  - eexists. split; [reflexivity|]. split.
    + unfold keys. apply Permutation_map.
      symmetry. apply stable_sort_Permutation.
    + apply (sorted_keys_neighbours self "ncalls" _ Hwf); [simpl; auto|reflexivity].
  - exists (sorted_str (keys (Stats.function_totals self))).
    split; [intros rev; reflexivity|]. split.
    + symmetry. apply stable_sort_Permutation.
    + unfold sorted_str, sorted_by.
      pose proof (stable_sort_Sorted (fun a b => String.ltb a b) ltb_asym
                    (keys (Stats.function_totals self))) as S.
      apply Sorted_map_in with (R' := fun a b => String.leb a b = true)
                               (f := fun s : string => s) in S.
      * rewrite map_id in S. exact S.
      * intros a b _ _ H. apply not_ltb_leb, H.
  - intros key Hkey. rewrite sort_runs.
    pose proof (sorted_keys_cases self key Hwf Hkey) as C.
    destruct (Stats._sorted_keys (Stats.set__ordering key self)) as [sk|e] eqn:E.
    + exists sk. split; [reflexivity|].
      destruct (sorted_keys_listed self key sk Hwf Hkey E) as [Hp Hq].
      split; [exact Hp|]. split; [exact Hq|].
      apply (sorted_keys_neighbours self key sk Hwf Hkey E).
    + destruct C as [Hratio Hf]. split; [reflexivity|]. split; assumption.
Qed.

Lemma sort_contract_witness :
  Stats.wf Sample.g_then_f = true /\
  (exists sk,
     Stats.sort "ncalls" Sample.g_then_f
     = (Stats.set__sk (Some sk) (Stats.set__ordering "ncalls" Sample.g_then_f), Ok tt) /\
     Permutation sk (keys (Stats.function_counts Sample.g_then_f)) /\
     Sorted (neighbours Sample.g_then_f "ncalls") sk) /\
  (exists sk,
     fst (Stats.sort "percall" Sample.g_then_f)
     = Stats.set__sk (Some sk) (Stats.set__ordering "percall" Sample.g_then_f) /\
     Permutation sk (keys (listed_map Sample.g_then_f "percall")) /\
     (forall f, In f sk -> exists x, quantity Sample.g_then_f "percall" f = Ok x) /\
     Sorted (neighbours Sample.g_then_f "percall") sk).
Proof.
  split; [reflexivity|].
  destruct (sort_contract Sample.g_then_f eq_refl) as (H1 & _ & H3).
  split; [exact H1|].
  exact (H3 "percall" (or_intror (or_intror (or_introl eq_refl)))).
Defined.

(** ** Division by zero *)

Lemma is_zero_Qis_zero (y : Q) : is_zero (Fin y) = Qis_zero y.
Proof.
  unfold is_zero, neqb, zero, num_of_Z, Qis_zero, Qeq_bool, inject_Z. simpl.
  rewrite Z.mul_1_r. destruct (Qnum y); reflexivity.
Qed.

Lemma ndiv_by_zero (a b : num) : is_zero b = true -> ndiv a b = Raise ZeroDivisionError.
Proof.
  destruct b as [y| | |]; try discriminate.
  rewrite is_zero_Qis_zero. unfold ndiv. intros ->. reflexivity.
Qed.

Lemma ndiv_by_nonzero (a b : num) : is_zero b = false -> exists q, ndiv a b = Ok q.
Proof.
  destruct b as [y| | |].
  - rewrite is_zero_Qis_zero. unfold ndiv. intros ->. destruct a; eauto.
  - destruct a; simpl; eauto.
  - destruct a; simpl; eauto.
  - simpl; eauto.
Qed.

Lemma ndiv_outcome (a b : num) :
  (exists q, ndiv a b = Ok q) \/ ndiv a b = Raise ZeroDivisionError.
Proof.
  destruct (is_zero b) eqn:E.
  - right. apply ndiv_by_zero, E.
  - left. apply ndiv_by_nonzero, E.
Qed.

Lemma rmap_raises {A B} (f : A -> result B) (e : exn) (l : list A) :
  (forall x, In x l -> (exists y, f x = Ok y) \/ f x = Raise e) ->
  (exists x, In x l /\ f x = Raise e) ->
  rmap f l = Raise e.
Proof.
  induction l as [|x l IH]; intros Hall [x0 [Hin Hx0]]; [destruct Hin|].
  simpl. destruct (Hall x (or_introl eq_refl)) as [[y Hy]|Hx].
  - rewrite Hy; simpl. destruct Hin as [<-|Hin]; [congruence|].
    rewrite IH; [reflexivity| |eauto].
    intros x' Hx'. apply Hall. right. exact Hx'.
  - rewrite Hx. reflexivity.
Qed.


(** The comprehension of a ratio key raises [ZeroDivisionError] as soon as
    one denominator is zero, provided each function it visits has a
    numerator. *)
Lemma ratio_comprehension_raises (num_map den_map : dict num) :
  keys_within den_map num_map = true ->
  (exists f, zero_at den_map f) ->
  rmap (fun k =>
          let* a := getitem num_map k in
          let* b := getitem den_map k in
          let* q := ndiv a b in
          Ok (k, q))
       (keys den_map)
  = Raise ZeroDivisionError.
Proof.
  intros Hin [f [z [Hf Hz]]]. apply rmap_raises.
  - intros k Hk.
    destruct (getitem_In k num_map (keys_within_In _ _ _ Hin Hk)) as [a [Ea _]].
    destruct (getitem_In k den_map Hk) as [b [Eb _]].
    rewrite Ea, Eb; simpl.
    destruct (ndiv_outcome a b) as [[q ->]| ->]; simpl; eauto.
  - exists f.
    assert (In f (keys den_map)) as Hk.
    { change f with (fst (f, z)). apply in_map, find_Some_In, Hf. }
    split; [exact Hk|].
    destruct (getitem_In f num_map (keys_within_In _ _ _ Hin Hk)) as [a [Ea _]].
    rewrite Ea; simpl. unfold getitem at 1. rewrite Hf; simpl.
    rewrite (ndiv_by_zero a z Hz). reflexivity.
Qed.

Lemma find_setitem_same {V} (k : string) (v : V) (d : dict V) :
  find k (setitem k v d) = Some v.
Proof.
  induction d as [|[k' v'] d IH]; simpl.
  - rewrite String.eqb_refl. reflexivity.
  - destruct (String.eqb k k') eqn:E; simpl; rewrite E; [reflexivity|exact IH].
Qed.

Lemma find_setitem_other {V} (k k0 : string) (v : V) (d : dict V) :
  k0 <> k -> find k0 (setitem k v d) = find k0 d.
Proof.
  intros Hne. induction d as [|[k' v'] d IH]; simpl.
  - apply String.eqb_neq in Hne. rewrite Hne. reflexivity.
  - destruct (String.eqb k k') eqn:E; simpl.
    + apply String.eqb_eq in E; subst k'.
      apply String.eqb_neq in Hne. rewrite Hne. reflexivity.
    + rewrite IH. reflexivity.
Qed.

(** The loop of [_relativize] over a part [l] of [data], from the result
    [ret0] built so far. *)
Lemma relativize_loop (data baseline : Stats.profile) (l : list (string * num)) :
  (forall k, In k (keys l) -> In k (keys data)) ->
  (forall k, In k (keys l) -> In k (keys baseline)) ->
  forall ret0,
  exists ret,
    rfold (fun ret kv =>
             let key := fst kv in
             let* b := getitem baseline key in
             if neqb b zero then Ok (setitem key float_inf ret)
             else
               let* d := getitem data key in
               let* b' := getitem baseline key in
               let* q := ndiv d b' in
               Ok (setitem key q ret))
          ret0 l = Ok ret /\
    forall key, zero_at baseline key ->
                In key (keys l) \/ find key ret0 = Some float_inf ->
                find key ret = Some float_inf.
Proof.
  induction l as [|[k v] l IH]; intros Hd Hb ret0.
  - exists ret0. split; [reflexivity|]. intros key _ [[]|H]; exact H.
  - simpl.
    destruct (getitem_In k baseline (Hb k (or_introl eq_refl))) as [b [Eb Fb]].
    rewrite Eb; simpl.
    assert (forall k', In k' (keys l) -> In k' (keys data)) as Hd'
        by (intros; apply Hd; right; assumption).
    assert (forall k', In k' (keys l) -> In k' (keys baseline)) as Hb'
        by (intros; apply Hb; right; assumption).
    destruct (neqb b zero) eqn:Ez.
    + destruct (IH Hd' Hb' (setitem k float_inf ret0)) as [ret [Hr Hinf]].
      exists ret. split; [exact Hr|].
      intros key Hz [[<-|Hin]|H0]; apply Hinf; auto.
      * right. apply find_setitem_same.
      * destruct (String.eqb key k) eqn:E.
        -- apply String.eqb_eq in E; subst. right. apply find_setitem_same.
        -- apply String.eqb_neq in E. right.
           rewrite find_setitem_other; assumption.
    + destruct (getitem_In k data (Hd k (or_introl eq_refl))) as [d [Ed _]].
      rewrite Ed; simpl.
      destruct (ndiv_by_nonzero d b Ez) as [q Eq]. rewrite Eq; simpl.
      destruct (IH Hd' Hb' (setitem k q ret0)) as [ret [Hr Hinf]].
      exists ret. split; [exact Hr|].
      intros key Hz [[<-|Hin]|H0]; apply Hinf; auto.
      * destruct Hz as [z [Hz1 Hz2]]. unfold is_zero in Hz2. congruence.
      * destruct (String.eqb key k) eqn:E.
        -- apply String.eqb_eq in E; subst.
           destruct Hz as [z [Hz1 Hz2]]. unfold is_zero in Hz2. congruence.
        -- apply String.eqb_neq in E. right.
           rewrite find_setitem_other; assumption.
Qed.

(** (C8) Where every counted function has a total, sorting by [percall]
    raises [ZeroDivisionError] as soon as some function has count zero, and
    caches no order; likewise for [var percall], cumulated totals and
    non-recursive counts.  By contrast [_relativize] returns whenever the
    baseline has the keys of the data, and gives positive infinity at each
    key whose baseline is zero. *)
Theorem zero_denominators (self : Stats.t) (data baseline : Stats.profile)
  (Htotals : keys_within (Stats.function_counts self) (Stats.function_totals self) = true)
  (Hcumulated : keys_within (Stats.function_counts_nonrec self)
                  (Stats.function_cumulated_totals self) = true)
  (Hbaseline : keys_within data baseline = true) :
  ((exists f, zero_at (Stats.function_counts self) f) ->
   Stats.sort "percall" self
   = (Stats.set__ordering "percall" self, Raise ZeroDivisionError)) /\
  ((exists f, zero_at (Stats.function_counts_nonrec self) f) ->
   Stats.sort "var percall" self
   = (Stats.set__ordering "var percall" self, Raise ZeroDivisionError)) /\
  (exists ret,
     Stats._relativize data baseline = Ok ret /\
     forall key, In key (keys data) -> zero_at baseline key ->
                 find key ret = Some float_inf).
Proof.
  split; [|split].
  - intros Hz.
    unfold Stats.sort, bind, modify, get, lift, Stats._sorted_keys; simpl.
    rewrite (ratio_comprehension_raises _ _ Htotals Hz). reflexivity.
  - intros Hz.
    unfold Stats.sort, bind, modify, get, lift, Stats._sorted_keys; simpl.
    rewrite (ratio_comprehension_raises _ _ Hcumulated Hz). reflexivity.
  - destruct (relativize_loop data baseline (items data)
                (fun k H => H) (fun k => keys_within_In _ _ k Hbaseline) [])
      as [ret [Hr Hinf]].
    exists ret. split; [exact Hr|]. intros key Hin Hz. apply Hinf; auto.
Qed.

Lemma zero_denominators_witness :
  Stats.sort "percall" Sample.zero_count
  = (Stats.set__ordering "percall" Sample.zero_count, Raise ZeroDivisionError) /\
  exists ret,
    Stats._relativize (Sample.some_profile 50) (Sample.some_profile 0) = Ok ret /\
    find "cumulated" ret = Some float_inf.
Proof.
  pose proof (zero_denominators Sample.zero_count
                (Sample.some_profile 50) (Sample.some_profile 0)
                eq_refl eq_refl eq_refl) as [H1 [_ [ret [H3 H4]]]].
  split.
  - apply H1. exists "f", zero. split; reflexivity.
  - exists ret. split; [exact H3|]. apply H4.
    + simpl; auto.
    + exists zero. split; reflexivity.
Defined.

(** ** The report *)

Lemma Qis_zero_false (y : Q) : Qis_zero y = false -> ~ (y == 0)%Q.
Proof.
  unfold Qis_zero, Qeq. simpl. rewrite Z.mul_1_r. intros H E.
  apply Z.eqb_neq in H. contradiction.
Qed.

Lemma ndiv_Fin (x y : Q) :
  Qis_zero y = false -> ndiv (Fin x) (Fin y) = Ok (Fin (Qred (x / y)%Q)).
Proof. unfold ndiv. intros ->. reflexivity. Qed.

Lemma getitem_find {V} (d : dict V) (k : string) (v : V) :
  find k d = Some v -> getitem d k = Ok v.
Proof. unfold getitem. intros ->. reflexivity. Qed.

Lemma Qred_nonzero (y : Q) : Qis_zero y = false -> Qis_zero (Qred y) = false.
Proof.
  intros H. destruct (Qis_zero (Qred y)) eqn:E; [|reflexivity].
  exfalso. apply (Qis_zero_false y H).
  rewrite <- (Qred_correct y). unfold Qis_zero in E. apply Z.eqb_eq in E.
  unfold Qeq. simpl. rewrite E. reflexivity.
Qed.

(** A row of the report, for finite numbers and non-zero [nruns], count
    and non-recursive count: what each column is formatted from. *)
Lemma row_cells (format_f : nat -> num -> string) (self : Stats.t) (func : string)
  (n c cn tot cum : Q) :
  Stats.nruns self = Some (Fin n) ->
  find func (Stats.function_counts self) = Some (Fin c) ->
  find func (Stats.function_counts_nonrec self) = Some (Fin cn) ->
  find func (Stats.function_totals self) = Some (Fin tot) ->
  find func (Stats.function_cumulated_totals self) = Some (Fin cum) ->
  Qis_zero n = false -> Qis_zero c = false -> Qis_zero cn = false ->
  exists calls nonrec tottime percall cumtime varpercall : Q,
    (calls == c / n)%Q /\ (nonrec == cn / n)%Q /\
    (tottime == tot / n / 1000)%Q /\ (percall == tot / n / c / n / 1000)%Q /\
    (cumtime == cum / n / 1000)%Q /\ (varpercall == cum / n / cn / n / 1000)%Q /\
    Stats.row format_f self func
    = Ok [if Qltb cn c
          then (format_f 0 (Fin calls) ++ "/" ++ format_f 0 (Fin nonrec))%string
          else format_f 0 (Fin calls);
          format_f 3 (Fin tottime); format_f 3 (Fin percall);
          format_f 3 (Fin cumtime); format_f 3 (Fin varpercall); func].
Proof.
  intros Hn Hc Hcn Htot Hcum Hn0 Hc0 Hcn0.
  unfold Stats.row, Stats.nruns_value, Stats.thousand, num_of_Z. rewrite Hn.
  rewrite (getitem_find _ _ _ Hc), (getitem_find _ _ _ Hcn),
          (getitem_find _ _ _ Htot), (getitem_find _ _ _ Hcum).
  cbn [rbind].
  assert (Qis_zero (inject_Z 1000) = false) as Hk by reflexivity.
  repeat (rewrite ndiv_Fin by (assumption || (apply Qred_nonzero; assumption)); cbn [rbind]).
  unfold ngtb, nltb.
  exists (Qred (c / n)), (Qred (cn / n)),
         (Qred (Qred (tot / n) / inject_Z 1000)),
         (Qred (Qred (Qred (Qred (tot / n) / c) / n) / inject_Z 1000)),
         (Qred (Qred (cum / n) / inject_Z 1000)),
         (Qred (Qred (Qred (Qred (cum / n) / cn) / n) / inject_Z 1000)).
  repeat (split; [rewrite ?Qred_correct; reflexivity|]).
  destruct (Qltb cn c);
    repeat (rewrite ndiv_Fin by (assumption || (apply Qred_nonzero; assumption));
            cbn [rbind]);
    reflexivity.
Qed.

(** The rows of two samples as CPython prints them. *)
Lemma sample_rows :
  Stats.row Sample.decimal Sample.two_runs "f"
  = Ok ["1"; "2.000"; "0.500"; "2.000"; "0.500"; "f"] /\
  Stats.row Sample.decimal Sample.fact "fact"
  = Ok ["101/1"; "0.023"; "0.000"; "1.012"; "1.012"; "fact"].
Proof.
  split; vm_compute; reflexivity.
Qed.

(** (C9) The row of [f] after two runs in which [f] was called twice and
    took 4000 ms in all, whatever the formatter.  ncalls is formatted from
    2/2 = 1, and tottime and cumtime from 4000/2/1000 = 2, as stated.
    percall and var percall are formatted from 1/2: the per-run time 2000
    is divided by the count and then by [nruns] once more, over 1000.  The
    quantity total/count divided by [nruns] and by 1000, which the row is
    stated to show, is 1. *)
Theorem two_runs_percall (format_f : nat -> num -> string) :
  Stats.row format_f Sample.two_runs "f"
  = Ok [format_f 0 (num_of_Z 1);
        format_f 3 (num_of_Z 2); format_f 3 (Fin (1 # 2));
        format_f 3 (num_of_Z 2); format_f 3 (Fin (1 # 2)); "f"] /\
  stated_row format_f Sample.two_runs "f"
  = Ok [format_f 0 (num_of_Z 1);
        format_f 3 (num_of_Z 2); format_f 3 (num_of_Z 1);
        format_f 3 (num_of_Z 2); format_f 3 (num_of_Z 1); "f"].
Proof.
  split.
  - vm_compute. reflexivity.
  - vm_compute. reflexivity.
Qed.

(** ** Serialization *)

Lemma to_dict_of_dict {V} (enc : V -> Json.json) (dec : Json.json -> result V)
  (d : dict V) :
  (forall v, dec (enc v) = Ok v) ->
  Json.to_dict dec (Json.of_dict enc d) = Ok d.
Proof.
  intros H. unfold Json.to_dict, Json.of_dict.
  induction d as [|[k v] d IH]; simpl; [reflexivity|].
  rewrite H; simpl. rewrite IH; reflexivity.
Qed.

Lemma to_opt_num_of_opt_num (n : option num) :
  Json.to_opt_num (Json.of_opt_num n) = Ok n.
Proof. destruct n; reflexivity. Qed.

Lemma to_num_JNum (n : num) : Json.to_num (Json.JNum n) = Ok n.
Proof. reflexivity. Qed.

Lemma for_each_cons {St A} (x : A) (xs : list A) (body : A -> M St unit) (s : St) :
  for_each (x :: xs) body s
  = match body x s with
    | (s', Ok _) => for_each xs body s'
    | (s', Raise e) => (s', Raise e)
    end.
Proof. reflexivity. Qed.

Lemma set__top_level_call_locations_twice (a b : list string) (s : Stats.t) :
  Stats.set__top_level_call_locations a (Stats.set__top_level_call_locations b s)
  = Stats.set__top_level_call_locations a s.
Proof. reflexivity. Qed.

Lemma set__top_level_call_locations_same (s : Stats.t) :
  Stats.set__top_level_call_locations (Stats._top_level_call_locations s) s = s.
Proof. destruct s; reflexivity. Qed.

(** Noting the top-level chains among [chains] returns and touches nothing
    else. *)
Lemma note_top_level_only (chains : list string) (s : Stats.t) :
  exists top,
    for_each chains
      (fun call_chain =>
         if Stats.is_toplevel call_chain
         then modify (fun s0 => Stats.set__top_level_call_locations
                                  (set_add call_chain (Stats._top_level_call_locations s0))
                                  s0)
         else ret tt) s
    = (Stats.set__top_level_call_locations top s, Ok tt).
Proof.
  revert s. induction chains as [|k ks IH]; intros s.
  - exists (Stats._top_level_call_locations s).
    rewrite set__top_level_call_locations_same. reflexivity.
  - rewrite for_each_cons. cbv beta. destruct (Stats.is_toplevel k).
    + unfold modify at 1.
      destruct (IH (Stats.set__top_level_call_locations
                      (set_add k (Stats._top_level_call_locations s)) s)) as [top ->].
      exists top. apply f_equal2; [apply set__top_level_call_locations_twice|reflexivity].
    + unfold ret at 1. apply IH.
Qed.

(** Deriving the top-level locations returns and touches nothing else. *)
Lemma _update_top_level_call_locations_only (caller_data : list (dict Stats.profile))
  (s : Stats.t) :
  exists top,
    Stats._update_top_level_call_locations caller_data s
    = (Stats.set__top_level_call_locations top s, Ok tt).
Proof.
  unfold Stats._update_top_level_call_locations.
  revert s. induction caller_data as [|d cd IH]; intros s.
  - exists (Stats._top_level_call_locations s).
    rewrite set__top_level_call_locations_same. reflexivity.
  - rewrite for_each_cons. cbv beta.
    destruct (note_top_level_only (keys d) s) as [top ->].
    destruct (IH (Stats.set__top_level_call_locations top s)) as [top' ->].
    exists top'. apply f_equal2; [apply set__top_level_call_locations_twice|reflexivity].
Qed.

(** What [Stats(text)] builds from the text of a snapshot's document. *)
Lemma __init___document (json_loads : string -> result Json.json) (text : string)
  (S : Stats.t) :
  json_loads text = Ok (Stats.document S) ->
  exists top,
    Stats.__init__ json_loads text
    = Ok (Stats.mk "standard name" false None top None (Stats.nruns S)
            (Stats.line_counts S) (Stats.duration S) (Stats.function_totals S)
            (Stats.function_cumulated_totals S) (Stats.function_counts S)
            (Stats.function_counts_nonrec S) (Stats.callers S)).
Proof.
  intros Hl. unfold Stats.__init__, Stats.from_json.
  unfold bind, modify, lift, get. rewrite Hl.
  cbn -[Json.to_dict Json.of_dict Json.to_opt_num Json.of_opt_num
        Stats._update_top_level_call_locations].
  rewrite to_opt_num_of_opt_num.
  rewrite !(to_dict_of_dict Json.JNum Json.to_num _ to_num_JNum).
  rewrite (to_dict_of_dict _ (Json.to_dict (Json.to_dict Json.to_num)) (Stats.callers S)).
  - cbn -[Stats._update_top_level_call_locations].
    match goal with
    | |- context [Stats._update_top_level_call_locations ?cd ?s] =>
        destruct (_update_top_level_call_locations_only cd s) as [top ->]
    end.
    exists top. reflexivity.
  - intros v. apply to_dict_of_dict. intros v'. apply to_dict_of_dict, to_num_JNum.
Qed.

(** (C2) Round trip.  Where the JSON codec gives back the document of a
    snapshot [S] from its text, [Stats(S.__json__())] returns a snapshot
    that holds no raw data and answers [profiled_methods], [method_profile],
    [method_profile_by_callchain], [sub_calls] and [sub_calls_profile]
    exactly as [S] does, for every function and every chain, with the same
    result or the same exception. *)
Theorem serialization_roundtrip (json_dumps : Json.json -> string)
  (json_loads : string -> result Json.json) (S : Stats.t)
  (Hcodec : json_loads (json_dumps (Stats.document S)) = Ok (Stats.document S)) :
  exists S',
    Stats.__init__ json_loads (Stats.__json__ json_dumps S) = Ok S' /\
    Stats._data S' = None /\
    Stats.profiled_methods S' = Stats.profiled_methods S /\
    (forall name chain,
       Stats.method_profile S' name chain = Stats.method_profile S name chain) /\
    (forall name,
       Stats.method_profile_by_callchain S' name
       = Stats.method_profile_by_callchain S name) /\
    (forall chain, Stats.sub_calls S' chain = Stats.sub_calls S chain) /\
    (forall chain, Stats.sub_calls_profile S' chain = Stats.sub_calls_profile S chain).
Proof.
  destruct (__init___document json_loads _ S Hcodec) as [top H].
  eexists. split; [exact H|].
  repeat split; reflexivity.
Qed.

Lemma serialization_roundtrip_witness :
  exists S',
    Stats.__init__ SexpCodec.loads (Stats.__json__ SexpCodec.dumps Sample.two_functions)
    = Ok S' /\
    Stats._data S' = None /\
    Stats.profiled_methods S' = Stats.profiled_methods Sample.two_functions /\
    (forall name chain,
       Stats.method_profile S' name chain
       = Stats.method_profile Sample.two_functions name chain) /\
    (forall name,
       Stats.method_profile_by_callchain S' name
       = Stats.method_profile_by_callchain Sample.two_functions name) /\
    (forall chain, Stats.sub_calls S' chain = Stats.sub_calls Sample.two_functions chain) /\
    (forall chain,
       Stats.sub_calls_profile S' chain
       = Stats.sub_calls_profile Sample.two_functions chain).
Proof.
  apply (serialization_roundtrip SexpCodec.dumps SexpCodec.loads Sample.two_functions).
  vm_compute. reflexivity.
Defined.

(** ** Treemap placement *)

Lemma bind_raises_right {St A B} (m : M St A) (k : A -> M St B) :
  (forall a s, exists e, snd (k a s) = Raise e) ->
  forall s, exists e, snd (bind m k s) = Raise e.
Proof.
  intros Hk s. unfold bind. destruct (m s) as [s' [a|e]]; [apply Hk|simpl; eauto].
Qed.

Lemma bind_raises_left {St A B} (m : M St A) (k : A -> M St B) :
  (forall s, exists e, snd (m s) = Raise e) ->
  forall s, exists e, snd (bind m k s) = Raise e.
Proof.
  intros Hm s. unfold bind. destruct (Hm s) as [e He].
  destruct (m s) as [s' [a|e']]; simpl in *; [discriminate|eauto].
Qed.

(** [add_child] never returns: the assignment to [rect] is on its way. *)
Lemma add_child_always_raises (self child : MethodElement.loc) (w : MethodElement.world) :
  exists e, snd (MethodElement.add_child self child w) = Raise e.
Proof.
  unfold MethodElement.add_child.
  do 6 (apply bind_raises_right; intros).
  apply bind_raises_left. intros w0.
  unfold MethodElement.assign_rect. simpl. eauto.
Qed.

(** (C4) Children added by [add_child] do not tile the free rectangle.
    Adding the node [f] (10 ms) to [Top] (100 ms) registers it and then
    raises [AttributeError] at [child.rect = ...], since [rect] has no
    setter; the child gets no rectangle and the free rectangle stays the
    full one.  The rectangles computed up to there do not tile either: the
    share 1/10 gives a strip of height 1/1000, the tuple kept as free
    rectangle has the child's extent, not the remainder, and a second child
    with share 9/10 placed in it is 900 wide inside a parent 100 wide. *)
Theorem add_child_does_not_tile :
  let after := MethodElement.add_child 0 1 Sample.parent_and_orphan in
  snd after = Raise (AttributeError "rect") /\
  option_map MethodElement._children (nth_error (MethodElement.nodes (fst after)) 0)
  = Some [("f", 1)] /\
  option_map MethodElement._rect (nth_error (MethodElement.nodes (fst after)) 1)
  = Some None /\
  option_map MethodElement._free_rect (nth_error (MethodElement.nodes (fst after)) 0)
  = Some MethodElement.full /\
  let strip := Fin (1 # 1000)%Q in
  MethodElement.place MethodElement.full [("cumulated", Fin (1 # 10)%Q)]
  = Ok ((zero, zero, MethodElement.hundred, strip),
        (strip, zero, MethodElement.hundred, strip)) /\
  MethodElement.place (strip, zero, MethodElement.hundred, strip)
    [("cumulated", Fin (9 # 10)%Q)]
  = Ok ((strip, zero, num_of_Z 900, strip), (strip, num_of_Z 900, num_of_Z 900, strip)).
Proof.
  repeat split; vm_compute; reflexivity.
Qed.

(** ** Navigation *)

(** [zoom_out] never returns, and changes nothing. *)
Lemma zoom_out_always_raises (st : CallGrind.state) :
  exists e, CallGrind.zoom_out st = (st, Raise e).
Proof.
  destruct st as [w c]. unfold CallGrind.zoom_out, CallGrind.self, bind. simpl.
  unfold CallGrind.getattr_node.
  destruct (CallGrind._zoomed_element c) as [l|]; [|unfold raise; eauto].
  unfold bind, CallGrind.in_world, MethodElement.deref. simpl.
  destruct (nth_error (MethodElement.nodes w) l); simpl; unfold raise; destruct w; eauto.
Qed.

(** (C7) From the root, [zoom_in] to the child [f] followed by [zoom_out]
    does not come back to the root: [zoom_out] reads the attribute [parent],
    which a node does not have (its link is [_parent]), raises
    [AttributeError] and leaves the controller on [f].  At the root
    [zoom_out] raises likewise, and so it does on a new controller.
    [zoom_in] to a name that is no child does return and changes nothing. *)
Theorem zoom_out_raises :
  let st := (Sample.tree, Sample.at_root) in
  let there := CallGrind.zoom_in "f" st in
  let back := CallGrind.zoom_out (fst there) in
  snd there = Ok tt /\ zoomed (fst there) = Some 1 /\
  snd back = Raise (AttributeError "parent") /\ zoomed (fst back) = Some 1 /\
  snd (CallGrind.zoom_out st) = Raise (AttributeError "parent") /\
  CallGrind.zoom_in "g" st = (st, Ok tt) /\
  (forall w, snd (CallGrind.zoom_out (w, CallGrind.mk 0 None None))
             = Raise (AttributeError "parent")).
Proof.
  repeat split; vm_compute; reflexivity.
Qed.

(** * Further properties of the code *)

(** ** Dict updates *)

Lemma keys_setitem_present {V} (k : string) (v : V) (d : dict V) :
  mem k d = true -> keys (setitem k v d) = keys d.
Proof.
  unfold mem, keys. induction d as [|[k' v'] d IH]; simpl; [discriminate|].
  destruct (String.eqb k k') eqn:E; simpl; [reflexivity|].
  intros H. rewrite IH; [reflexivity|exact H].
Qed.

Lemma keys_setitem_absent {V} (k : string) (v : V) (d : dict V) :
  mem k d = false -> setitem k v d = d ++ [(k, v)].
Proof.
  unfold mem. induction d as [|[k' v'] d IH]; simpl; [reflexivity|].
  destruct (String.eqb k k') eqn:E; [discriminate|].
  intros H. rewrite IH; [reflexivity|exact H].
Qed.

Lemma mem_find {V} (k : string) (d : dict V) :
  mem k d = true <-> exists v, find k d = Some v.
Proof.
  unfold mem. destruct (find k d); split; eauto; try discriminate.
  intros [v H]; discriminate.
Qed.

Lemma _update_with_data_step_keys (src : Stats.profile) (kv : string * num) :
  keys (match find (fst kv) src with
        | Some old => setitem (fst kv) (nadd old (snd kv)) src
        | None => src
        end) = keys src.
Proof.
  destruct (find (fst kv) src) eqn:E; [|reflexivity].
  apply keys_setitem_present. apply mem_find. eauto.
Qed.

Lemma _update_with_data_keys (src updates : Stats.profile) :
  keys (Stats._update_with_data src updates) = keys src.
Proof.
  unfold Stats._update_with_data, items. revert src.
  induction updates as [|kv upd IH]; intros src; [reflexivity|].
  cbn [fold_left]. etransitivity; [apply IH|]. apply _update_with_data_step_keys.
Qed.

(** The entry of a key after the loop of [_update_with_data]. *)
Lemma _update_with_data_find (src_data updates : Stats.profile) (k : string) :
  dict_wf updates = true ->
  find k (Stats._update_with_data src_data updates)
  = match find k src_data, find k updates with
    | Some a, Some b => Some (nadd a b)
    | Some a, None => Some a
    | None, _ => None
    end.
Proof.
  unfold Stats._update_with_data, items.
  revert src_data. induction updates as [|[k0 v0] upd IH]; intros src Hwf.
  - simpl. destruct (find k src); reflexivity.
  - unfold dict_wf in Hwf. simpl in Hwf.
    apply andb_true_iff in Hwf. destruct Hwf as [Hk0 Hwf].
    apply negb_true_iff in Hk0.
    assert (find k0 upd = None) as Hnone.
    { destruct (find k0 upd) eqn:E; [|reflexivity].
      apply find_Some_In in E. apply (in_map fst) in E. simpl in E.
      apply str_in_In in E. unfold keys in Hk0. congruence. }
    cbn [fold_left fst snd].
    etransitivity; [exact (IH _ Hwf)|]. simpl.
    destruct (String.eqb k k0) eqn:E.
    + apply String.eqb_eq in E; subst k. rewrite Hnone.
      destruct (find k0 src) as [old|] eqn:Es.
      * rewrite find_setitem_same. reflexivity.
      * rewrite Es. reflexivity.
    + apply String.eqb_neq in E.
      destruct (find k0 src) as [old|] eqn:Es; [|reflexivity].
      rewrite find_setitem_other by exact E. reflexivity.
Qed.

(** (X1) [_update_with_data] changes no key of [src_data]: the result has
    the same keys in the same order.  Where [updates] is a dict, a key of
    both gets the sum of the two values, a key of [src_data] alone keeps its
    value, and a key of [updates] alone is dropped. *)
Theorem _update_with_data_sums (src_data updates : Stats.profile)
  (Hwf : dict_wf updates = true) :
  keys (Stats._update_with_data src_data updates) = keys src_data /\
  forall k,
    find k (Stats._update_with_data src_data updates)
    = match find k src_data, find k updates with
      | Some a, Some b => Some (nadd a b)
      | Some a, None => Some a
      | None, _ => None
      end.
Proof.
  split.
  - apply _update_with_data_keys.
  - intros k. apply _update_with_data_find. exact Hwf.
Qed.

Lemma _update_with_data_sums_witness :
  keys (Stats._update_with_data Stats.zero_edge (Sample.edge 20 10 2 1))
  = keys Stats.zero_edge /\
  forall k,
    find k (Stats._update_with_data Stats.zero_edge (Sample.edge 20 10 2 1))
    = match find k Stats.zero_edge, find k (Sample.edge 20 10 2 1) with
      | Some a, Some b => Some (nadd a b)
      | Some a, None => Some a
      | None, _ => None
      end.
Proof.
  apply (_update_with_data_sums Stats.zero_edge (Sample.edge 20 10 2 1)).
  reflexivity.
Defined.

(** ** Top-level locations *)

Lemma endswith_app (p suffix : string) : endswith (p ++ suffix) suffix = true.
Proof.
  induction p as [|c p IH].
  - destruct suffix as [|a s]; [reflexivity|].
    cbn [append endswith]. rewrite String.eqb_refl. reflexivity.
  - cbn [append endswith]. rewrite IH. apply orb_true_r.
Qed.

Lemma endswith_inv (s suffix : string) :
  endswith s suffix = true -> exists p, s = (p ++ suffix)%string.
Proof.
  induction s as [|c s IH]; cbn [endswith].
  - rewrite orb_false_r. intros H. apply String.eqb_eq in H. exists "". subst. reflexivity.
  - intros H. apply orb_true_iff in H. destruct H as [H|H].
    + apply String.eqb_eq in H. exists "". rewrite H. reflexivity.
    + destruct (IH H) as [p Hp]. exists (String c p). rewrite Hp. reflexivity.
Qed.

(** (X2) A call chain is a top-level location exactly when it is some text
    followed by a colon. *)
Theorem is_toplevel_iff (call_chain : string) :
  Stats.is_toplevel call_chain = true <-> exists p, call_chain = (p ++ ":")%string.
Proof.
  split; [apply endswith_inv|]. intros [p ->]. apply endswith_app.
Qed.

(** ** Profiles by call chain *)

Lemma distinct_NoDup (l : list string) : distinct l = true <-> NoDup l.
Proof.
  induction l as [|x l IH]; simpl.
  - split; [constructor|reflexivity].
  - rewrite andb_true_iff, negb_true_iff, IH. split.
    + intros [Hx Hl]. constructor; [|exact Hl].
      intros Hin. apply str_in_In in Hin. congruence.
    + intros H. inversion H as [|? ? Hx Hl]; subst. split; [|exact Hl].
      destruct (str_in x l) eqn:E; [|reflexivity].
      apply str_in_In in E. contradiction.
Qed.

Lemma mem_false_keys {V} (k : string) (d : dict V) : mem k d = false <-> ~ In k (keys d).
Proof.
  rewrite <- mem_keys. destruct (mem k d); split; congruence.
Qed.

Lemma find_app_last {V} (k : string) (v : V) (d : dict V) :
  mem k d = false -> find k (d ++ [(k, v)]) = Some v.
Proof.
  unfold mem. induction d as [|[k' v'] d IH]; simpl.
  - rewrite String.eqb_refl. reflexivity.
  - destruct (String.eqb k k'); [discriminate|exact IH].
Qed.

Lemma setitem_app_last {V} (k : string) (v v' : V) (d : dict V) :
  mem k d = false -> setitem k v' (d ++ [(k, v)]) = d ++ [(k, v')].
Proof.
  unfold mem. induction d as [|[k' w] d IH]; simpl.
  - rewrite String.eqb_refl. reflexivity.
  - destruct (String.eqb k k'); [discriminate|]. intros H. rewrite IH; [reflexivity|exact H].
Qed.

Lemma _update_with_data_absent (src updates : Stats.profile) (k : string) :
  ~ In k (keys updates) ->
  find k (Stats._update_with_data src updates) = find k src.
Proof.
  unfold Stats._update_with_data, items. revert src.
  induction updates as [|[k0 v0] upd IH]; intros src Hk; [reflexivity|].
  cbn [fold_left fst snd]. etransitivity; [apply IH|].
  - intros H. apply Hk. right. exact H.
  - destruct (find k0 src) eqn:E; [|reflexivity].
    apply find_setitem_other. intros ->. apply Hk. left. reflexivity.
Qed.

(** The loop of [method_profile_by_callchain] over the rest [l] of the
    edges of a function, after the chains of [acc]. *)
Lemma by_callchain_loop (l acc : dict Stats.profile) :
  NoDup (keys (acc ++ l)) ->
  rfold (fun ret kv =>
           let call_chain := fst kv in
           let data := snd kv in
           let ret := if negb (mem call_chain ret)
                      then setitem call_chain Stats.zero_edge ret else ret in
           let* r := getitem ret call_chain in
           Ok (setitem call_chain (Stats._update_with_data r data) ret))
        acc l
  = Ok (acc ++ map (fun ce => (fst ce, Stats._update_with_data Stats.zero_edge (snd ce))) l).
Proof.
  revert acc. induction l as [|[c e] l IH]; intros acc Hnd.
  - simpl. rewrite app_nil_r. reflexivity.
  - assert (mem c acc = false) as Hc.
    { apply mem_false_keys. intros Hin. unfold keys in *.
      rewrite map_app in Hnd. simpl in Hnd.
      apply NoDup_remove_2 in Hnd. apply Hnd.
      apply in_or_app. left. exact Hin. }
    cbn [rfold fst snd]. rewrite Hc. cbn [negb].
    rewrite (keys_setitem_absent c Stats.zero_edge acc Hc).
    unfold getitem. rewrite (find_app_last c _ acc Hc). cbn [rbind].
    rewrite (setitem_app_last c _ _ acc Hc).
    rewrite IH.
    + rewrite <- app_assoc. reflexivity.
    + unfold keys in *. rewrite <- app_assoc. rewrite !map_app in *. exact Hnd.
Qed.

Lemma find_map_collected (chain : string) (d : dict Stats.profile) :
  find chain (map (fun ce => (fst ce, collected (snd ce))) d)
  = option_map collected (find chain d).
Proof.
  induction d as [|[c e] d IH]; simpl; [reflexivity|].
  destruct (String.eqb chain c); [reflexivity|exact IH].
Qed.

(** Two dicts with the same keys in the same order and the same value
    under each key are equal. *)
Lemma dict_ext {V} (a b : dict V) :
  keys a = keys b -> dict_wf a = true ->
  (forall k, In k (keys a) -> find k a = find k b) -> a = b.
Proof.
  unfold keys, dict_wf. revert b.
  induction a as [|[k v] a IH]; intros [|[k' v'] b]; simpl; try discriminate; [reflexivity|].
  intros Hk Hwf Hf. inversion Hk; subst k'.
  apply andb_true_iff in Hwf. destruct Hwf as [Hn Hwf]. apply negb_true_iff in Hn.
  pose proof (Hf k (or_introl eq_refl)) as Hv. rewrite String.eqb_refl in Hv.
  inversion Hv; subst v'. f_equal.
  apply IH; [assumption|exact Hwf|].
  intros k0 Hk0. pose proof (Hf k0 (or_intror Hk0)) as H.
  destruct (String.eqb k0 k) eqn:E; [|exact H].
  apply String.eqb_eq in E; subst k0. apply str_in_In in Hk0.
  unfold keys in Hn. congruence.
Qed.

(** Added to a zero edge, an edge that is a dict leaves each of the four
    fields with zero plus its own value for it. *)
Lemma zero_edge_updated (edge : Stats.profile) :
  dict_wf edge = true ->
  Stats._update_with_data Stats.zero_edge edge = collected edge.
Proof.
  intros Hwf. apply dict_ext.
  - rewrite _update_with_data_keys. reflexivity.
  - unfold dict_wf. rewrite _update_with_data_keys. reflexivity.
  - intros k Hk. rewrite _update_with_data_keys in Hk.
    rewrite (_update_with_data_find _ _ _ Hwf).
    unfold collected, from_zero, edge_fields.
    simpl in Hk. destruct Hk as [<-|[<-|[<-|[<-|[]]]]]; simpl;
      match goal with |- context [find ?f edge] => destruct (find f edge) end; reflexivity.
Qed.

Lemma by_callchain_result (self : Stats.t) (name : string) (d : dict Stats.profile) :
  find name (Stats.callers self) = Some d ->
  dict_wf d = true -> edges_wf d = true ->
  Stats.method_profile_by_callchain self name
  = Ok (map (fun ce => (fst ce, collected (snd ce))) d).
Proof.
  intros Hname Hwf Hedges.
  unfold Stats.method_profile_by_callchain.
  rewrite (getitem_find _ _ _ Hname). cbn [rbind].
  etransitivity; [apply (by_callchain_loop d []); apply distinct_NoDup; exact Hwf|].
  cbn [app]. f_equal. apply map_ext_in. intros ce Hce.
  rewrite zero_edge_updated; [reflexivity|].
  unfold edges_wf in Hedges. rewrite forallb_forall in Hedges. apply Hedges, Hce.
Qed.

(** (X3) For a function whose edges form a dict of dicts,
    [method_profile_by_callchain] returns one entry per call chain, in the
    order of the edges.  Each entry has the four fields cumulated, total,
    count and count_norec, in this order, and each field holds zero plus
    the value the edge has for it, or zero when the edge lacks it. *)
Theorem method_profile_by_callchain_edges (self : Stats.t) (name : string)
  (d : dict Stats.profile)
  (Hname : find name (Stats.callers self) = Some d)
  (Hwf : dict_wf d = true)
  (Hedges : edges_wf d = true) :
  exists r,
    Stats.method_profile_by_callchain self name = Ok r /\
    keys r = keys d /\
    forall chain edge,
      find chain d = Some edge ->
      exists p,
        find chain r = Some p /\
        keys p = ["cumulated"; "total"; "count"; "count_norec"] /\
        forall field,
          In field (keys p) ->
          find field p = Some (match find field edge with
                               | Some v => nadd zero v
                               | None => zero
                               end).
Proof.
  exists (map (fun ce => (fst ce, collected (snd ce))) d).
  split; [exact (by_callchain_result self name d Hname Hwf Hedges)|].
  split.
  - unfold keys. rewrite map_map. reflexivity.
  - intros chain edge Hchain. exists (collected edge). split.
    + rewrite find_map_collected, Hchain. reflexivity.
    + split; [reflexivity|].
      intros field Hfield. simpl in Hfield.
      destruct Hfield as [<-|[<-|[<-|[<-|[]]]]]; reflexivity.
Qed.

Lemma method_profile_by_callchain_edges_witness :
  exists r,
    Stats.method_profile_by_callchain Sample.only_f "f" = Ok r /\
    keys r = keys [("1,m:", Sample.edge 20 10 2 1)] /\
    forall chain edge,
      find chain [("1,m:", Sample.edge 20 10 2 1)] = Some edge ->
      exists p,
        find chain r = Some p /\
        keys p = ["cumulated"; "total"; "count"; "count_norec"] /\
        forall field,
          In field (keys p) ->
          find field p = Some (match find field edge with
                               | Some v => nadd zero v
                               | None => zero
                               end).
Proof.
  apply (method_profile_by_callchain_edges Sample.only_f "f"
           [("1,m:", Sample.edge 20 10 2 1)]); reflexivity.
Defined.

(** (X4) Queries about a function are strict.  For a function without
    caller edges both [method_profile_by_callchain] and [method_profile]
    restricted to any chain raise [KeyError] with its name; for a function
    without a self time the unrestricted [method_profile] does. *)
Theorem unknown_function_raises (self : Stats.t) (name : string)
  (Hedges : find name (Stats.callers self) = None)
  (Htotals : find name (Stats.function_totals self) = None) :
  Stats.method_profile_by_callchain self name = Raise (KeyError name) /\
  (forall chain, Stats.method_profile self (Some name) (Some chain) = Raise (KeyError name)) /\
  Stats.method_profile self (Some name) None = Raise (KeyError name).
Proof.
  assert (Stats.method_profile_by_callchain self name = Raise (KeyError name)) as H.
  { unfold Stats.method_profile_by_callchain, getitem. rewrite Hedges. reflexivity. }
  split; [exact H|]. split.
  - intros chain. unfold Stats.method_profile. rewrite H. reflexivity.
  - unfold Stats.method_profile, getitem. rewrite Htotals. reflexivity.
Qed.

Lemma unknown_function_raises_witness :
  Stats.method_profile_by_callchain Sample.only_f "g" = Raise (KeyError "g") /\
  (forall chain,
     Stats.method_profile Sample.only_f (Some "g") (Some chain) = Raise (KeyError "g")) /\
  Stats.method_profile Sample.only_f (Some "g") None = Raise (KeyError "g").
Proof.
  apply (unknown_function_raises Sample.only_f "g"); reflexivity.
Defined.

(** (X5) The profile of a function restricted to a call chain, where the
    function's edges form a dict of dicts.  A chain that never called the
    function gives four zeros.  A chain that did gives, for total and for
    cumulated, the value the edge has for that field added to zero twice
    (zero itself when the edge lacks the field), but zero for counts and
    counts_nonrec: the edge names them count and count_norec, and keys the
    profile does not have are skipped. *)
Theorem method_profile_of_chain (self : Stats.t) (name chain : string)
  (d : dict Stats.profile)
  (Hname : find name (Stats.callers self) = Some d)
  (Hwf : dict_wf d = true)
  (Hedges : edges_wf d = true) :
  match find chain d with
  | None =>
      Stats.method_profile self (Some name) (Some chain)
      = Ok [("total", zero); ("cumulated", zero); ("counts", zero); ("counts_nonrec", zero)]
  | Some edge =>
      Stats.method_profile self (Some name) (Some chain)
      = Ok [("total", nadd zero (match find "total" edge with
                                 | Some v => nadd zero v
                                 | None => zero
                                 end));
            ("cumulated", nadd zero (match find "cumulated" edge with
                                     | Some v => nadd zero v
                                     | None => zero
                                     end));
            ("counts", zero); ("counts_nonrec", zero)]
  end.
Proof.
  unfold Stats.method_profile.
  rewrite (by_callchain_result self name d Hname Hwf Hedges). cbn [rbind].
  unfold mem, getitem. rewrite find_map_collected.
  destruct (find chain d) as [edge|]; cbn [option_map rbind]; [|reflexivity].
  reflexivity.
Qed.

Lemma method_profile_of_chain_witness :
  Stats.method_profile Sample.only_f (Some "f") (Some "1,m:")
  = Ok [("total", nadd zero (nadd zero (num_of_Z 10)));
        ("cumulated", nadd zero (nadd zero (num_of_Z 20)));
        ("counts", zero); ("counts_nonrec", zero)].
Proof.
  exact (method_profile_of_chain Sample.only_f "f" "1,m:"
           [("1,m:", Sample.edge 20 10 2 1)] eq_refl eq_refl eq_refl).
Defined.

(** ** Deriving the top-level locations *)

Lemma distinct_set_add (x : string) (s : list string) :
  distinct s = true -> distinct (set_add x s) = true.
Proof.
  intros H. unfold set_add. destruct (str_in x s) eqn:E; [exact H|].
  apply distinct_NoDup. apply distinct_NoDup in H.
  apply NoDup_app; [exact H|repeat constructor; intros []|].
  intros a Ha [<-|[]]. apply str_in_In in Ha. congruence.
Qed.

Lemma note_top_level_members (chains : list string) (s : Stats.t) :
  exists top,
    for_each chains
      (fun call_chain =>
         if Stats.is_toplevel call_chain
         then modify (fun s0 => Stats.set__top_level_call_locations
                                  (set_add call_chain (Stats._top_level_call_locations s0))
                                  s0)
         else ret tt) s
    = (Stats.set__top_level_call_locations top s, Ok tt) /\
    (forall c, In c top <->
               In c (Stats._top_level_call_locations s) \/
               (In c chains /\ Stats.is_toplevel c = true)) /\
    (distinct (Stats._top_level_call_locations s) = true -> distinct top = true).
Proof.
  revert s. induction chains as [|k ks IH]; intros s.
  - exists (Stats._top_level_call_locations s).
    rewrite set__top_level_call_locations_same. split; [reflexivity|].
    split; [|auto]. intros c. simpl. tauto.
  - rewrite for_each_cons. cbv beta. destruct (Stats.is_toplevel k) eqn:Ek.
    + unfold modify at 1.
      destruct (IH (Stats.set__top_level_call_locations
                      (set_add k (Stats._top_level_call_locations s)) s))
        as [top [-> [Hin Hd]]].
      exists top. split; [|split].
      * apply f_equal2; [apply set__top_level_call_locations_twice|reflexivity].
      * intros c. rewrite Hin. destruct s; simpl. rewrite In_set_add.
        split.
        -- intros [[->|H]|[H1 H2]]; auto.
        -- intros [H|[[->|H1] H2]]; auto.
      * intros H. apply Hd. destruct s; simpl in *. apply distinct_set_add, H.
    + unfold ret at 1. destruct (IH s) as [top [-> [Hin Hd]]].
      exists top. split; [reflexivity|]. split; [|exact Hd].
      intros c. rewrite Hin. simpl. split.
      * intros [H|[H1 H2]]; auto.
      * intros [H|[[->|H1] H2]]; auto. congruence.
Qed.

(** What the loop of [_update_top_level_call_locations] leaves in the set. *)
Lemma top_level_locations_after (caller_data : list (dict Stats.profile))
  (s : Stats.t) :
  exists top,
    Stats._update_top_level_call_locations caller_data s
    = (Stats.set__top_level_call_locations top s, Ok tt) /\
    (forall c, In c top <->
               In c (Stats._top_level_call_locations s) \/
               exists d, In d caller_data /\ In c (keys d) /\ Stats.is_toplevel c = true) /\
    (distinct (Stats._top_level_call_locations s) = true -> distinct top = true).
Proof.
  unfold Stats._update_top_level_call_locations.
  revert s. induction caller_data as [|d cd IH]; intros s.
  - exists (Stats._top_level_call_locations s).
    rewrite set__top_level_call_locations_same. split; [reflexivity|].
    split; [|auto]. intros c. simpl. split; [auto|].
    intros [H|[d [[] _]]]. exact H.
  - rewrite for_each_cons. cbv beta.
    destruct (note_top_level_members (keys d) s) as [top [-> [Hin Hd]]].
    destruct (IH (Stats.set__top_level_call_locations top s)) as [top' [-> [Hin' Hd']]].
    exists top'. split; [|split].
    + apply f_equal2; [apply set__top_level_call_locations_twice|reflexivity].
    + intros c. rewrite Hin'. destruct s; simpl in *. rewrite Hin. split.
      * intros [[H|[H1 H2]]|[d' [H1 H2]]]; eauto 8.
      * intros [H|[d' [[<-|H1] [H2 H3]]]]; eauto 8.
    + intros H. apply Hd'. destruct s; simpl in *. apply Hd, H.
Qed.

(** (X6) [_update_top_level_call_locations] always returns and touches only
    the set of top-level locations.  Afterwards the set holds what it held
    before and every key of the given dicts that is a top-level chain, and
    nothing else; a set without repetitions stays one. *)
Theorem top_level_locations_collected (caller_data : list (dict Stats.profile))
  (s : Stats.t) :
  exists top,
    Stats._update_top_level_call_locations caller_data s
    = (Stats.set__top_level_call_locations top s, Ok tt) /\
    (forall c, In c top <->
               In c (Stats._top_level_call_locations s) \/
               exists d, In d caller_data /\ In c (keys d) /\ Stats.is_toplevel c = true) /\
    (distinct (Stats._top_level_call_locations s) = true -> distinct top = true).
Proof.
  destruct (top_level_locations_after caller_data s) as [top H].
  exists top. exact H.
Qed.

(** ** Loading a snapshot *)

Lemma subscript_Ok (data : Json.json) (k : string) (j : Json.json) :
  Json.subscript data k = Ok j -> exists o, data = Json.JObj o /\ mem k o = true.
Proof.
  destruct data as [| | |o]; simpl; intros H; try discriminate H.
  exists o. split; [reflexivity|].
  unfold getitem, mem in *. destruct (find k o); [reflexivity|discriminate H].
Qed.

Lemma bind_lift_Ok {St A B} (r : result A) (k : A -> M St B) (s s' : St) (b : B) :
  bind (lift r) k s = (s', Ok b) -> exists a, r = Ok a /\ k a s = (s', Ok b).
Proof.
  unfold bind, lift. destruct r as [a|e]; [eauto|discriminate].
Qed.

Lemma rbind_Ok {A B} (r : result A) (f : A -> result B) (b : B) :
  rbind r f = Ok b -> exists a, r = Ok a /\ f a = Ok b.
Proof.
  destruct r as [a|e]; simpl; [eauto|discriminate].
Qed.

Lemma read_key {A} (data : Json.json) (k : string) (dec : Json.json -> result A) (v : A) :
  rbind (Json.subscript data k) dec = Ok v ->
  exists o, data = Json.JObj o /\ mem k o = true.
Proof.
  intros H. apply rbind_Ok in H. destruct H as [j [H _]].
  apply subscript_Ok in H. exact H.
Qed.

Lemma __init___Ok (json_loads : string -> result Json.json) (text : string) (S : Stats.t) :
  Stats.__init__ json_loads text = Ok S ->
  Stats.from_json json_loads text Stats.blank = (S, Ok tt).
Proof.
  unfold Stats.__init__.
  destruct (Stats.from_json json_loads text Stats.blank) as [s [[]|e]]; congruence.
Qed.

Lemma bind_modify_Ok {St B} (f : St -> St) (k : unit -> M St B) (s s' : St) (b : B) :
  bind (modify f) k s = (s', Ok b) -> k tt (f s) = (s', Ok b).
Proof. exact (fun H => H). Qed.

Ltac load_step H v E :=
  apply bind_lift_Ok in H; destruct H as [v [E H]];
  apply bind_modify_Ok in H.

(** (X7) What [Stats(text)] has built when it returns: the text was a JSON
    object with all eight keys of the schema; the snapshot has the default
    ordering, no cached order and no raw data; and its set of top-level
    locations holds, without repetition, exactly the call chains of its
    caller edges that end in a colon. *)
Theorem loaded_snapshot (json_loads : string -> result Json.json) (text : string)
  (S : Stats.t)
  (Hload : Stats.__init__ json_loads text = Ok S) :
  (exists o, json_loads text = Ok (Json.JObj o) /\
             forallb (fun k => mem k o) document_keys = true) /\
  Stats._ordering S = "standard name" /\ Stats._reverse_order S = false /\
  Stats._sk S = None /\ Stats._data S = None /\
  (forall c, In c (Stats._top_level_call_locations S) <->
             exists d, In d (values (Stats.callers S)) /\ In c (keys d) /\
                       Stats.is_toplevel c = true) /\
  distinct (Stats._top_level_call_locations S) = true.
Proof.
  apply __init___Ok in Hload. unfold Stats.from_json in Hload.
  apply bind_modify_Ok in Hload.
  apply bind_lift_Ok in Hload. destruct Hload as [data [El Hload]].
  load_step Hload v1 E1. load_step Hload v2 E2. load_step Hload v3 E3.
  load_step Hload v4 E4. load_step Hload v5 E5. load_step Hload v6 E6.
  load_step Hload v7 E7. load_step Hload v8 E8.
  unfold bind, get in Hload.
  match type of Hload with
  | context [Stats._update_top_level_call_locations ?cd ?s] =>
      destruct (top_level_locations_after cd s) as [top [Hrun [Hin Hd]]];
      rewrite Hrun in Hload
  end.
  inversion Hload; subst S; clear Hload. cbn in Hin, Hd |- *.
  split.
  - destruct (read_key _ _ _ _ E1) as [o [-> M1]].
    exists o. split; [exact El|].
    pose proof (read_key _ _ _ _ E2) as [o2 [Ho2 M2]]; inversion Ho2; subst o2.
    pose proof (read_key _ _ _ _ E3) as [o3 [Ho3 M3]]; inversion Ho3; subst o3.
    pose proof (read_key _ _ _ _ E4) as [o4 [Ho4 M4]]; inversion Ho4; subst o4.
    pose proof (read_key _ _ _ _ E5) as [o5 [Ho5 M5]]; inversion Ho5; subst o5.
    pose proof (read_key _ _ _ _ E6) as [o6 [Ho6 M6]]; inversion Ho6; subst o6.
    pose proof (read_key _ _ _ _ E7) as [o7 [Ho7 M7]]; inversion Ho7; subst o7.
    pose proof (read_key _ _ _ _ E8) as [o8 [Ho8 M8]]; inversion Ho8; subst o8.
    unfold document_keys. cbn [forallb].
    repeat (apply andb_true_iff; split); auto.
  - repeat split; try reflexivity.
    + intros H. apply Hin in H. destruct H as [[]|H]. exact H.
    + intros H. apply Hin. right. exact H.
    + apply Hd. reflexivity.
Qed.

Lemma loaded_snapshot_witness :
  exists S,
    Stats.__init__ SexpCodec.loads (Stats.__json__ SexpCodec.dumps Sample.only_f) = Ok S /\
    Stats._sk S = None /\
    distinct (Stats._top_level_call_locations S) = true.
Proof.
  destruct (Stats.__init__ SexpCodec.loads (Stats.__json__ SexpCodec.dumps Sample.only_f))
    as [S|e] eqn:E.
  - exists S. split; [reflexivity|].
    pose proof (loaded_snapshot SexpCodec.loads _ S E) as H.
    split; apply H.
  - vm_compute in E. discriminate.
Defined.

(** ** Sorting, further *)

(** (X8) [sort] with a key it does not know raises [UnboundLocalError], and
    by then it has replaced the ordering by that key; the cached order and
    everything else are as before. *)
Theorem sort_unknown_key (self : Stats.t) (key : string)
  (Hkey : str_in key sort_keys = false) :
  Stats.sort key self = (Stats.set__ordering key self, Raise (UnboundLocalError "keys")).
Proof.
  unfold sort_keys, numeric_keys in Hkey. cbn [str_in] in Hkey.
  repeat (apply orb_false_iff in Hkey; destruct Hkey as [? Hkey]).
  unfold Stats.sort, bind, modify, get, lift, Stats._sorted_keys.
  cbn [Stats._ordering Stats.set__ordering fst snd].
  repeat match goal with H : String.eqb key _ = false |- _ => rewrite H; clear H end.
  reflexivity.
Qed.

Lemma sort_unknown_key_witness :
  Stats.sort "name" Sample.only_f
  = (Stats.set__ordering "name" Sample.only_f, Raise (UnboundLocalError "keys")).
Proof.
  apply (sort_unknown_key Sample.only_f "name"). reflexivity.
Defined.

(** (X9) A numeric sort that returns lists every function of the map it
    walks exactly as often as the map has it: counts for ncalls and percall,
    self times for tottime, cumulated times for cumtime, non-recursive
    counts for var percall.  No function is lost or repeated by sorting. *)
Theorem sorted_keys_rearrange (self : Stats.t) (key : string) (sk : list string)
  (Hkey : In key numeric_keys)
  (Hsorted : Stats._sorted_keys (Stats.set__ordering key self) = Ok sk) :
  Permutation sk (keys (listed_map self key)).
Proof.
  unfold numeric_keys in Hkey. simpl in Hkey.
  destruct Hkey as [<-|[<-|[<-|[<-|[<-|[]]]]]];
    unfold Stats._sorted_keys in Hsorted; simpl in Hsorted; unfold listed_map; simpl.
  - inversion Hsorted; subst. unfold keys. apply Permutation_map.
    symmetry. apply stable_sort_Permutation.
  - inversion Hsorted; subst. unfold keys. apply Permutation_map.
    symmetry. apply stable_sort_Permutation.
  - apply rbind_Ok in Hsorted. destruct Hsorted as [ps [E H]].
    inversion H; subst.
    rewrite <- (rmap_map_fst _ _ _ (ratio_pair_fst _ _) E).
    apply Permutation_map. symmetry. apply stable_sort_Permutation.
  - inversion Hsorted; subst. unfold keys. apply Permutation_map.
    symmetry. apply stable_sort_Permutation.
  - apply rbind_Ok in Hsorted. destruct Hsorted as [ps [E H]].
    inversion H; subst.
    rewrite <- (rmap_map_fst _ _ _ (ratio_pair_fst _ _) E).
    apply Permutation_map. symmetry. apply stable_sort_Permutation.
Qed.

Lemma sorted_keys_rearrange_witness :
  Permutation ["f"; "g"] (keys (listed_map Sample.g_then_f "percall")).
Proof.
  apply (sorted_keys_rearrange Sample.g_then_f "percall" ["f"; "g"]).
  - simpl; auto.
  - vm_compute. reflexivity.
Defined.

(** ** The report, further *)

(** (X10) Printing is repeatable.  When [__str__] returns a text, the only
    thing it may have changed is the cached order: a snapshot that had one
    is untouched, and one that had none is now sorted by standard name.
    Printing the resulting snapshot again returns the same text and changes
    nothing. *)
Theorem report_is_repeatable (str_num : num -> string) (format_f : nat -> num -> string)
  (s s1 : Stats.t) (text : string)
  (Hprint : Stats.__str__ str_num format_f s = (s1, Ok text)) :
  Stats.__str__ str_num format_f s1 = (s1, Ok text) /\
  match Stats._sk s with
  | Some _ => s1 = s
  | None =>
      s1 = Stats.set__sk (Some (sorted_str (keys (Stats.function_totals s))))
             (Stats.set__ordering "standard name" s)
  end.
Proof.
  destruct s as [ord rev sk tl data nr lc dur ft fct fc fcn cs].
  unfold Stats.__str__ in Hprint.
  unfold bind, get, lift, ret in Hprint.
  cbn [Stats.duration Stats._sk Stats.nruns] in Hprint.
  destruct (ndiv dur Stats.thousand) as [d|] eqn:Ed; [|discriminate].
  destruct sk as [sk|].
  - cbn [Stats._sk Stats._ordering] in Hprint.
    destruct (rmap _ sk) as [cols|] eqn:Ec in Hprint; [|discriminate].
    inversion Hprint; subst s1. clear Hprint.
    split; [|reflexivity].
    unfold Stats.__str__, bind, get, lift, ret.
    cbn [Stats.duration Stats._sk Stats.nruns Stats._ordering].
    rewrite Ed, Ec. reflexivity.
  - change (Stats.sort "standard name"
              (Stats.mk ord rev None tl data nr lc dur ft fct fc fcn cs))
      with (Stats.mk "standard name" rev (Some (sorted_str (keys ft))) tl data nr lc dur
              ft fct fc fcn cs, @Ok unit tt) in Hprint.
    cbn [Stats._sk Stats._ordering] in Hprint.
    destruct (rmap _ (sorted_str (keys ft))) as [cols|] eqn:Ec in Hprint; [|discriminate].
    inversion Hprint; subst s1. clear Hprint.
    split; [|reflexivity].
    unfold Stats.__str__, bind, get, lift, ret.
    cbn [Stats.duration Stats._sk Stats.nruns Stats._ordering].
    rewrite Ed, Ec. reflexivity.
Qed.

Lemma report_is_repeatable_witness :
  exists s1 text,
    Stats.__str__ (Sample.decimal 3) Sample.decimal Sample.fact = (s1, Ok text) /\
    Stats.__str__ (Sample.decimal 3) Sample.decimal s1 = (s1, Ok text).
Proof.
  destruct (Stats.__str__ (Sample.decimal 3) Sample.decimal Sample.fact) as [s1 [text|e]] eqn:E.
  - exists s1, text. split; [reflexivity|].
    apply (report_is_repeatable (Sample.decimal 3) Sample.decimal Sample.fact s1 text E).
  - vm_compute in E. discriminate.
Defined.

(** ** Relative profiles *)

Lemma rfold_cons {A B} (body : B -> A -> result B) (acc : B) (x : A) (xs : list A) :
  rfold body acc (x :: xs) = rbind (body acc x) (fun acc' => rfold body acc' xs).
Proof. reflexivity. Qed.

Lemma relativize_closed_loop (data baseline : Stats.profile) (l acc : Stats.profile) :
  NoDup (keys (acc ++ l)) ->
  (forall kv, In kv l -> find (fst kv) data = Some (snd kv)) ->
  (forall k, In k (keys l) -> In k (keys baseline)) ->
  rfold (fun ret kv =>
           let key := fst kv in
           let* b := getitem baseline key in
           if neqb b zero then Ok (setitem key float_inf ret)
           else
             let* d := getitem data key in
             let* b' := getitem baseline key in
             let* q := ndiv d b' in
             Ok (setitem key q ret))
        acc l
  = Ok (acc ++ map (relative baseline) l).
Proof.
  match goal with |- context [rfold ?f _ _] => set (body := f) end.
  revert acc. induction l as [|[k v] l IH]; intros acc Hnd Hdata Hbase.
  - simpl. rewrite app_nil_r. reflexivity.
  - assert (mem k acc = false) as Hk.
    { apply mem_false_keys. intros Hin. unfold keys in *.
      rewrite map_app in Hnd. simpl in Hnd.
      apply NoDup_remove_2 in Hnd. apply Hnd. apply in_or_app. left. exact Hin. }
    assert (forall x, rfold body (acc ++ [(k, x)]) l
                      = Ok ((acc ++ [(k, x)]) ++ map (relative baseline) l)) as Hrest.
    { intros x. apply IH.
      - unfold keys in *. rewrite <- app_assoc. rewrite !map_app in *. exact Hnd.
      - intros kv Hkv. apply Hdata. right. exact Hkv.
      - intros k' Hk'. apply Hbase. right. exact Hk'. }
    destruct (getitem_In k baseline (Hbase k (or_introl eq_refl))) as [b [Eb Fb]].
    rewrite rfold_cons. unfold body at 1. cbv beta zeta. cbn [fst snd].
    rewrite Eb. cbn [rbind].
    cbn [map]. unfold relative at 1. cbn [fst snd].
    rewrite Fb. fold (is_zero b).
    destruct (is_zero b) eqn:Ez.
    + cbn [rbind].
      rewrite (keys_setitem_absent k _ acc Hk), Hrest, <- app_assoc. reflexivity.
    + pose proof (Hdata (k, v) (or_introl eq_refl)) as Hv. cbn [fst snd] in Hv.
      rewrite (getitem_find _ _ _ Hv). cbn [rbind].
      destruct (ndiv_by_nonzero v b Ez) as [q Eq]. rewrite Eq. cbn [rbind].
      rewrite (keys_setitem_absent k _ acc Hk), Hrest, <- app_assoc. reflexivity.
Qed.

(** (X11) For a profile that is a dict and a baseline that has all its
    keys, [_relativize] returns, key by key and in the same order, the
    ratio of the value to the baseline's value, and positive infinity where
    the baseline's value is zero.  No division by zero can surface. *)
Theorem _relativize_ratios (data baseline : Stats.profile)
  (Hwf : dict_wf data = true)
  (Hkeys : keys_within data baseline = true) :
  Stats._relativize data baseline = Ok (map (relative baseline) data).
Proof.
  unfold Stats._relativize, items.
  apply (relativize_closed_loop data baseline data []).
  - apply distinct_NoDup. exact Hwf.
  - intros [k v] Hin. apply find_In; assumption.
  - intros k. apply keys_within_In. exact Hkeys.
Qed.

Lemma _relativize_ratios_witness :
  Stats._relativize (Sample.some_profile 50) (Sample.some_profile 100)
  = Ok (map (relative (Sample.some_profile 100)) (Sample.some_profile 50)).
Proof.
  apply (_relativize_ratios (Sample.some_profile 50) (Sample.some_profile 100));
    reflexivity.
Defined.

Lemma relativize_missing_loop (data baseline : Stats.profile) (l : Stats.profile) :
  (forall k, In k (keys l) -> In k (keys data)) ->
  forallb (fun k => mem k baseline) (keys l) = false ->
  forall acc,
  exists k,
    In k (keys l) /\ mem k baseline = false /\
    rfold (fun ret kv =>
             let key := fst kv in
             let* b := getitem baseline key in
             if neqb b zero then Ok (setitem key float_inf ret)
             else
               let* d := getitem data key in
               let* b' := getitem baseline key in
               let* q := ndiv d b' in
               Ok (setitem key q ret))
          acc l
    = Raise (KeyError k).
Proof.
  match goal with |- context [rfold ?f _ _] => set (body := f) end.
  induction l as [|[k v] l IH]; intros Hdata Hall acc; [discriminate|].
  cbn [keys map forallb fst] in Hall.
  destruct (mem k baseline) eqn:Ek.
  - simpl in Hall.
    assert (forall k', In k' (keys l) -> In k' (keys data)) as Hdata'
        by (intros; apply Hdata; right; assumption).
    destruct (getitem_In k baseline (proj1 (mem_keys k baseline) Ek)) as [b [Eb Fb]].
    destruct (getitem_In k data (Hdata k (or_introl eq_refl))) as [d [Ed _]].
    assert (exists acc1, body acc (k, v) = Ok acc1) as [acc1 Hstep].
    { unfold body. cbv beta zeta. cbn [fst snd]. rewrite Eb. cbn [rbind].
      fold (is_zero b). destruct (is_zero b) eqn:Ez; [eauto|].
      rewrite Ed. cbn [rbind]. destruct (ndiv_by_nonzero d b Ez) as [q Eq].
      rewrite Eq. cbn [rbind]. eauto. }
    destruct (IH Hdata' Hall acc1) as [k' [H1 [H2 H3]]].
    exists k'. split; [right; exact H1|]. split; [exact H2|].
    rewrite rfold_cons, Hstep. exact H3.
  - exists k. split; [left; reflexivity|]. split; [exact Ek|].
    rewrite rfold_cons. unfold body at 1. cbv beta zeta. cbn [fst snd].
    unfold getitem at 1. unfold mem in Ek.
    destruct (find k baseline); [discriminate|]. reflexivity.
Qed.

(** (X12) When the profile has a key the baseline lacks, [_relativize]
    raises [KeyError] with such a key. *)
Theorem _relativize_missing_key (data baseline : Stats.profile)
  (Hkeys : keys_within data baseline = false) :
  exists k,
    In k (keys data) /\ mem k baseline = false /\
    Stats._relativize data baseline = Raise (KeyError k).
Proof.
  unfold Stats._relativize, items.
  apply (relativize_missing_loop data baseline data (fun k H => H) Hkeys []).
Qed.

Lemma _relativize_missing_key_witness :
  exists k,
    In k (keys (Sample.some_profile 50)) /\ mem k (Sample.edge 1 1 1 1) = false /\
    Stats._relativize (Sample.some_profile 50) (Sample.edge 1 1 1 1) = Raise (KeyError k).
Proof.
  apply (_relativize_missing_key (Sample.some_profile 50) (Sample.edge 1 1 1 1)).
  reflexivity.
Defined.

(** ** Merging, further *)

Lemma nth_error_store_same (l : Stats.loc) (s s' : Stats.t) (h : Stats.heap) :
  nth_error h l = Some s -> nth_error (Stats.store l s' h) l = Some s'.
Proof.
  revert l. induction h as [|x h IH]; intros l H.
  - destruct l; discriminate.
  - destruct l as [|l]; simpl in *; [reflexivity|]. apply IH, H.
Qed.

Section Keeps.
Context {X : Type} (proj : Stats.t -> X).

Lemma keeps_ret {A} (a : A) : keeps proj (ret a).
Proof. intros s. reflexivity. Qed.

Lemma keeps_lift {A} (r : result A) : keeps proj (lift r).
Proof. intros s. reflexivity. Qed.

Lemma keeps_get : keeps proj get.
Proof. intros s. reflexivity. Qed.

Lemma keeps_modify (f : Stats.t -> Stats.t) :
  (forall s, proj (f s) = proj s) -> keeps proj (modify f).
Proof. intros H s. apply H. Qed.

Lemma keeps_bind {A B} (m : M Stats.t A) (k : A -> M Stats.t B) :
  keeps proj m -> (forall a, keeps proj (k a)) -> keeps proj (bind m k).
Proof.
  intros Hm Hk s. unfold bind. specialize (Hm s).
  destruct (m s) as [s' [a|e]]; simpl in *; [|exact Hm].
  rewrite Hk. exact Hm.
Qed.

Lemma keeps_update_top_level (caller_data : list (dict Stats.profile)) :
  (forall top s, proj (Stats.set__top_level_call_locations top s) = proj s) ->
  keeps proj (Stats._update_top_level_call_locations caller_data).
Proof.
  intros H s.
  destruct (_update_top_level_call_locations_only caller_data s) as [top ->].
  apply H.
Qed.

Lemma keeps_sort (key : string) :
  (forall v s, proj (Stats.set__ordering v s) = proj s) ->
  (forall v s, proj (Stats.set__sk v s) = proj s) ->
  keeps proj (Stats.sort key).
Proof.
  intros H1 H2. unfold Stats.sort.
  apply keeps_bind; [apply keeps_modify, H1|intros _].
  apply keeps_bind; [apply keeps_get|intros s].
  apply keeps_bind; [apply keeps_lift|intros sk].
  apply keeps_modify, H2.
Qed.

Variable self : Stats.loc.

Lemma keeps_at_ret {A} (a : A) : keeps_at proj self (ret a).
Proof. intros h a0 H. eauto. Qed.

Lemma keeps_at_raise {A} (e : exn) : keeps_at proj self (@raise Stats.heap A e).
Proof. intros h a0 H. eauto. Qed.

Lemma keeps_at_lift {A} (r : result A) : keeps_at proj self (lift r).
Proof. intros h a0 H. eauto. Qed.

Lemma keeps_at_deref (l : Stats.loc) : keeps_at proj self (Stats.deref l).
Proof.
  intros h a0 H. unfold Stats.deref. destruct (nth_error h l); eauto.
Qed.

Lemma keeps_at_on {A} (l : Stats.loc) (m : M Stats.t A) :
  keeps proj m -> keeps_at proj self (Stats.on l m).
Proof.
  intros Hm h a0 H. unfold Stats.on.
  destruct (nth_error h l) as [s|] eqn:El; [|eauto].
  specialize (Hm s). destruct (m s) as [s' r]. simpl in *.
  destruct (Nat.eq_dec l self) as [->|Hne].
  - rewrite (nth_error_store_same self s s' h El).
    exists s'. split; [reflexivity|]. congruence.
  - rewrite nth_error_store_other by congruence. eauto.
Qed.

Lemma keeps_at_alloc (s : Stats.t) : keeps_at proj self (Stats.alloc s).
Proof.
  intros h a0 H. unfold Stats.alloc. simpl. exists a0. split; [|reflexivity].
  rewrite nth_error_app1; [exact H|]. apply nth_error_Some. congruence.
Qed.

Lemma keeps_at_bind {A B} (m : M Stats.heap A) (k : A -> M Stats.heap B) :
  keeps_at proj self m -> (forall a, keeps_at proj self (k a)) ->
  keeps_at proj self (bind m k).
Proof.
  intros Hm Hk h a0 H. unfold bind. destruct (Hm h a0 H) as [a1 [H1 E1]].
  destruct (m h) as [h' [a|e]]; simpl in *; [|eauto].
  destruct (Hk a h' a1 H1) as [a2 [H2 E2]]. exists a2. split; [exact H2|congruence].
Qed.

Lemma keeps_at_for_each {A} (xs : list A) (body : A -> M Stats.heap unit) :
  (forall x, keeps_at proj self (body x)) -> keeps_at proj self (for_each xs body).
Proof.
  intros Hb. induction xs as [|x xs IH]; simpl.
  - apply keeps_at_ret.
  - apply keeps_at_bind; [apply Hb|intros _; exact IH].
Qed.

Lemma keeps_at_for_fold {A B} (xs : list A) (acc : B) (body : B -> A -> M Stats.heap B) :
  (forall acc x, keeps_at proj self (body acc x)) ->
  keeps_at proj self (for_fold xs acc body).
Proof.
  intros Hb. revert acc. induction xs as [|x xs IH]; intros acc; simpl.
  - apply keeps_at_ret.
  - apply keeps_at_bind; [apply Hb|intros acc'; apply IH].
Qed.

End Keeps.

Ltac kept :=
  repeat first
    [ apply keeps_at_ret | apply keeps_at_raise | apply keeps_at_lift
    | apply keeps_at_deref | apply keeps_at_alloc
    | apply keeps_at_bind; [|intros]
    | apply keeps_at_for_each; intros
    | apply keeps_at_for_fold; intros
    | apply keeps_at_on
    | apply keeps_bind; [|intros]
    | apply keeps_ret | apply keeps_lift | apply keeps_get
    | apply keeps_modify; intros; reflexivity
    | apply keeps_sort; intros; reflexivity
    | apply keeps_update_top_level; intros; reflexivity
    | match goal with
      | |- keeps_at _ _ (if ?c then _ else _) => destruct c
      | |- keeps_at _ _ (match ?x with _ => _ end) => destruct x
      end ].

Lemma _add_stat_keeps_run_data (self stat : Stats.loc) :
  keeps_at run_data self (Stats._add_stat self stat).
Proof.
  unfold Stats._add_stat, Stats.iadd_field, Stats.sc_setitem. kept.
Qed.

(** (X13) A merge never accumulates what belongs to the run.  After
    [_add_stat], returned or raised, the destination still has its own
    [nruns], [duration], [line_counts], raw data and reverse flag; those of
    the source are not added or copied.  The same holds after [add], for
    every list of sources. *)
Theorem merge_keeps_run_data (json_loads : string -> result Json.json)
  (storage : dict string) (self stat : Stats.loc) (stats : list Stats.source)
  (h : Stats.heap) (A : Stats.t)
  (Hself : nth_error h self = Some A) :
  (exists A', nth_error (fst (Stats._add_stat self stat h)) self = Some A' /\
              run_data A' = run_data A) /\
  (exists A', nth_error (fst (Stats.add json_loads storage self stats h)) self = Some A' /\
              run_data A' = run_data A).
Proof.
  split.
  - apply (_add_stat_keeps_run_data self stat h A Hself).
  - assert (keeps_at run_data self (Stats.add json_loads storage self stats)) as H.
    { unfold Stats.add, Stats.new.
      repeat first [ apply _add_stat_keeps_run_data | progress kept ]. }
    apply (H h A Hself).
Qed.

Lemma merge_keeps_run_data_witness :
  let h := [Sample.two_runs; Sample.g_then_f] in
  (exists A', nth_error (fst (Stats._add_stat 0 1 h)) 0 = Some A' /\
              run_data A' = run_data Sample.two_runs) /\
  (exists A', nth_error (fst (Stats.add SexpCodec.loads [] 0 [Stats.Instance 1] h)) 0
              = Some A' /\
              run_data A' = run_data Sample.two_runs).
Proof.
  apply (merge_keeps_run_data SexpCodec.loads [] 0 1 [Stats.Instance 1]
           [Sample.two_runs; Sample.g_then_f] Sample.two_runs).
  reflexivity.
Defined.

(** *** The function maps after a merge *)

Lemma deref_eq (l : Stats.loc) (s : Stats.t) (h : Stats.heap) :
  nth_error h l = Some s -> Stats.deref l h = (h, Ok s).
Proof. unfold Stats.deref. intros ->. reflexivity. Qed.

Lemma on_modify_eq (l : Stats.loc) (s : Stats.t) (f : Stats.t -> Stats.t) (h : Stats.heap) :
  nth_error h l = Some s -> Stats.on l (modify f) h = (Stats.store l (f s) h, Ok tt).
Proof. unfold Stats.on, modify. intros ->. reflexivity. Qed.

Lemma bind_eq {St A B} (m : M St A) (k : A -> M St B) (s s' : St) (a : A) :
  m s = (s', Ok a) -> bind m k s = k a s'.
Proof. unfold bind. intros ->. reflexivity. Qed.

(** One [self.F[f] += stat.F[f]] between two objects. *)
Lemma iadd_field_eq (field : Stats.t -> dict num) (set_field : dict num -> Stats.t -> Stats.t)
  (self stat : Stats.loc) (f : string) (h : Stats.heap) (A B : Stats.t) (a b : num) :
  nth_error h self = Some A -> nth_error h stat = Some B ->
  find f (field A) = Some a -> find f (field B) = Some b ->
  Stats.iadd_field field set_field self stat f h
  = (Stats.store self (set_field (setitem f (nadd a b) (field A)) A) h, Ok tt).
Proof.
  intros HA HB Ha Hb. unfold Stats.iadd_field.
  rewrite (bind_eq _ _ _ _ _ (deref_eq self A h HA)).
  rewrite (bind_eq _ _ h h a) by (unfold lift; rewrite (getitem_find _ _ _ Ha); reflexivity).
  rewrite (bind_eq _ _ _ _ _ (deref_eq stat B h HB)).
  rewrite (bind_eq _ _ h h b) by (unfold lift; rewrite (getitem_find _ _ _ Hb); reflexivity).
  rewrite (on_modify_eq self A _ h HA). reflexivity.
Qed.

Lemma find_setitem (k k0 : string) (v : num) (d : dict num) :
  find k0 (setitem k v d) = if String.eqb k0 k then Some v else find k0 d.
Proof.
  destruct (String.eqb k0 k) eqn:E.
  - apply String.eqb_eq in E; subst. apply find_setitem_same.
  - apply String.eqb_neq in E. apply find_setitem_other, E.
Qed.

Lemma keys_setitem {V} (k : string) (v : V) (d : dict V) :
  keys (setitem k v d) = if mem k d then keys d else keys d ++ [k].
Proof.
  destruct (mem k d) eqn:E.
  - apply keys_setitem_present, E.
  - rewrite (keys_setitem_absent k v d E). unfold keys. rewrite map_app. reflexivity.
Qed.

Lemma mem_same_keys {V W} (d1 : dict V) (d2 : dict W) (k : string) :
  keys d1 = keys d2 -> mem k d1 = mem k d2.
Proof.
  intros H. destruct (mem k d2) eqn:E.
  - apply mem_keys. rewrite H. apply mem_keys, E.
  - apply mem_false_keys. rewrite H. apply mem_false_keys, E.
Qed.

Lemma on_eq {A} (l : Stats.loc) (s : Stats.t) (m : M Stats.t A) (h : Stats.heap) :
  nth_error h l = Some s -> Stats.on l m h = (Stats.store l (fst (m s)) h, snd (m s)).
Proof. unfold Stats.on. intros ->. destruct (m s); reflexivity. Qed.

Lemma find_None_keys {V} (k : string) (d : dict V) : mem k d = false -> find k d = None.
Proof. unfold mem. destruct (find k d); [discriminate|reflexivity]. Qed.

Lemma function_pass (self stat : Stats.loc) (f : string) (h : Stats.heap)
  (A B : Stats.t) (b1 b2 b3 b4 : num) :
  self <> stat ->
  nth_error h self = Some A -> nth_error h stat = Some B -> aligned A ->
  find f (Stats.function_totals B) = Some b1 ->
  find f (Stats.function_cumulated_totals B) = Some b2 ->
  find f (Stats.function_counts B) = Some b3 ->
  find f (Stats.function_counts_nonrec B) = Some b4 ->
  exists h' A1,
    (s <- Stats.deref self ;;
     (if negb (mem f (Stats.function_counts s)) then
        Stats.on self
          (modify (fun s => Stats.set_function_totals
                              (setitem f zero (Stats.function_totals s)) s) ;;;
           modify (fun s => Stats.set_function_cumulated_totals
                              (setitem f zero (Stats.function_cumulated_totals s)) s) ;;;
           modify (fun s => Stats.set_function_counts
                              (setitem f zero (Stats.function_counts s)) s) ;;;
           modify (fun s => Stats.set_function_counts_nonrec
                              (setitem f zero (Stats.function_counts_nonrec s)) s))
      else ret tt) ;;;
     Stats.iadd_field Stats.function_totals Stats.set_function_totals self stat f ;;;
     Stats.iadd_field Stats.function_cumulated_totals
       Stats.set_function_cumulated_totals self stat f ;;;
     Stats.iadd_field Stats.function_counts Stats.set_function_counts self stat f ;;;
     Stats.iadd_field Stats.function_counts_nonrec
       Stats.set_function_counts_nonrec self stat f) h
    = (h', Ok tt) /\
    nth_error h' self = Some A1 /\ nth_error h' stat = Some B /\ aligned A1 /\
    passed Stats.function_totals A A1 f b1 /\
    passed Stats.function_cumulated_totals A A1 f b2 /\
    passed Stats.function_counts A A1 f b3 /\
    passed Stats.function_counts_nonrec A A1 f b4.
Proof.
  intros Hne HA HB [Hk2 [Hk3 Hk4]] F1 F2 F3 F4.
  rewrite (bind_eq _ _ _ _ _ (deref_eq self A h HA)).
  (* the object [A0] and store [h0] the four additions start from *)
  assert (exists h0 A0 a1 a2 a3 a4,
             (if negb (mem f (Stats.function_counts A)) then
                Stats.on self
                  (modify (fun s => Stats.set_function_totals
                                      (setitem f zero (Stats.function_totals s)) s) ;;;
                   modify (fun s => Stats.set_function_cumulated_totals
                                      (setitem f zero (Stats.function_cumulated_totals s))
                                      s) ;;;
                   modify (fun s => Stats.set_function_counts
                                      (setitem f zero (Stats.function_counts s)) s) ;;;
                   modify (fun s => Stats.set_function_counts_nonrec
                                      (setitem f zero (Stats.function_counts_nonrec s)) s))
              else ret tt) h = (h0, Ok tt) /\
             nth_error h0 self = Some A0 /\ nth_error h0 stat = Some B /\ aligned A0 /\
             find f (Stats.function_totals A0) = Some a1 /\
             find f (Stats.function_cumulated_totals A0) = Some a2 /\
             find f (Stats.function_counts A0) = Some a3 /\
             find f (Stats.function_counts_nonrec A0) = Some a4 /\
             a1 = value_or_zero (Stats.function_totals A) f /\
             a2 = value_or_zero (Stats.function_cumulated_totals A) f /\
             a3 = value_or_zero (Stats.function_counts A) f /\
             a4 = value_or_zero (Stats.function_counts_nonrec A) f /\
             (forall g, g <> f ->
                find g (Stats.function_totals A0) = find g (Stats.function_totals A) /\
                find g (Stats.function_cumulated_totals A0)
                = find g (Stats.function_cumulated_totals A) /\
                find g (Stats.function_counts A0) = find g (Stats.function_counts A) /\
                find g (Stats.function_counts_nonrec A0)
                = find g (Stats.function_counts_nonrec A)))
    as (h0 & A0 & a1 & a2 & a3 & a4 & Hrun & HA0 & HB0 & Hal0 & G1 & G2 & G3 & G4
        & V1 & V2 & V3 & V4 & Hother).
  { assert (mem f (Stats.function_totals A) = mem f (Stats.function_counts A)) as M1
        by (apply mem_same_keys; symmetry; exact Hk3).
    assert (mem f (Stats.function_cumulated_totals A) = mem f (Stats.function_counts A))
      as M2 by (apply mem_same_keys; congruence).
    assert (mem f (Stats.function_counts_nonrec A) = mem f (Stats.function_counts A))
      as M4 by (apply mem_same_keys; congruence).
    destruct (mem f (Stats.function_counts A)) eqn:Em; cbn [negb].
    - destruct (proj1 (mem_find f _) M1) as [a1 G1].
      destruct (proj1 (mem_find f _) M2) as [a2 G2].
      destruct (proj1 (mem_find f _) Em) as [a3 G3].
      destruct (proj1 (mem_find f _) M4) as [a4 G4].
      exists h, A, a1, a2, a3, a4. unfold value_or_zero. rewrite G1, G2, G3, G4.
      repeat split; auto.
    - exists (Stats.store self (with_zero_entries f A) h), (with_zero_entries f A),
             zero, zero, zero, zero.
      unfold value_or_zero.
      rewrite (find_None_keys _ _ M1), (find_None_keys _ _ M2),
              (find_None_keys _ _ Em), (find_None_keys _ _ M4).
      split; [rewrite (on_eq self A _ h HA); reflexivity|].
      split; [apply (nth_error_store_same self A _ h HA)|].
      split; [rewrite nth_error_store_other by congruence; exact HB|].
      split.
      { unfold aligned, with_zero_entries; cbn -[keys setitem find].
        rewrite !keys_setitem, M1, M2, Em, M4, Hk2, Hk3, Hk4. auto. }
      unfold with_zero_entries; cbn -[keys setitem find]. rewrite !find_setitem_same.
      repeat split; auto; apply find_setitem_other; assumption. }
  rewrite (bind_eq _ _ _ _ _ Hrun).
  set (A1 := Stats.set_function_totals
               (setitem f (nadd a1 b1) (Stats.function_totals A0)) A0).
  set (A2 := Stats.set_function_cumulated_totals
               (setitem f (nadd a2 b2) (Stats.function_cumulated_totals A1)) A1).
  set (A3 := Stats.set_function_counts
               (setitem f (nadd a3 b3) (Stats.function_counts A2)) A2).
  set (A4 := Stats.set_function_counts_nonrec
               (setitem f (nadd a4 b4) (Stats.function_counts_nonrec A3)) A3).
  assert (forall (X Y : Stats.t) (hh : Stats.heap),
             nth_error hh self = Some X ->
             nth_error (Stats.store self Y hh) self = Some Y) as Hs
      by (intros; eapply nth_error_store_same; eassumption).
  assert (forall (Y : Stats.t) (hh : Stats.heap),
             nth_error hh stat = Some B ->
             nth_error (Stats.store self Y hh) stat = Some B) as Ho
      by (intros; rewrite nth_error_store_other by congruence; assumption).
  rewrite (bind_eq _ _ _ _ _
             (iadd_field_eq _ _ self stat f h0 A0 B a1 b1 HA0 HB0 G1 F1)).
  fold A1.
  rewrite (bind_eq _ _ _ _ _
             (iadd_field_eq _ _ self stat f _ A1 B a2 b2 (Hs _ _ _ HA0) (Ho _ _ HB0) G2 F2)).
  fold A2.
  rewrite (bind_eq _ _ _ _ _
             (iadd_field_eq _ _ self stat f _ A2 B a3 b3
                (Hs _ _ _ (Hs _ _ _ HA0)) (Ho _ _ (Ho _ _ HB0)) G3 F3)).
  fold A3.
  rewrite (iadd_field_eq _ _ self stat f _ A3 B a4 b4
             (Hs _ _ _ (Hs _ _ _ (Hs _ _ _ HA0))) (Ho _ _ (Ho _ _ (Ho _ _ HB0))) G4 F4).
  fold A4.
  eexists. exists A4. split; [reflexivity|].
  split; [apply (Hs A3), Hs with (X := A2), Hs with (X := A1), Hs with (X := A0), HA0|].
  split; [repeat apply Ho; exact HB0|].
  destruct Hal0 as [L2 [L3 L4]].
  split.
  { unfold aligned, A4, A3, A2, A1; cbn -[keys setitem find]. rewrite !keys_setitem.
    rewrite (proj2 (mem_find f _) (ex_intro _ a1 G1)),
            (proj2 (mem_find f _) (ex_intro _ a2 G2)),
            (proj2 (mem_find f _) (ex_intro _ a3 G3)),
            (proj2 (mem_find f _) (ex_intro _ a4 G4)). auto. }
  unfold passed, A4, A3, A2, A1; cbn -[keys setitem find String.eqb].
  repeat split; intros g; rewrite find_setitem;
    (destruct (String.eqb g f) eqn:E;
     [congruence|apply String.eqb_neq in E; apply (Hother g E)]).
Qed.

Lemma merged_on_pass (X : Stats.t -> dict num) (A A1 B : Stats.t) (f : string)
  (ks : list string) (b : num) :
  ~ In f ks -> find f (X B) = Some b -> passed X A A1 f b ->
  forall g, merged_on ks (X A1) (X B) g = merged_on (f :: ks) (X A) (X B) g.
Proof.
  intros Hf Fb Hp g. unfold merged_on. cbn [str_in].
  destruct (String.eqb g f) eqn:E.
  - apply String.eqb_eq in E; subst g. cbn [orb].
    assert (str_in f ks = false) as ->.
    { destruct (str_in f ks) eqn:S; [|reflexivity].
      apply str_in_In in S. contradiction. }
    rewrite Fb, Hp, String.eqb_refl. reflexivity.
  - cbn [orb]. unfold value_or_zero. rewrite (Hp g), E. reflexivity.
Qed.

(** The whole loop of lines 201-210, over the functions [ks] of the
    source. *)
Lemma function_loop (self stat : Stats.loc) (B : Stats.t) (ks : list string) :
  self <> stat ->
  NoDup ks ->
  (forall f, In f ks ->
     (exists b, find f (Stats.function_totals B) = Some b) /\
     (exists b, find f (Stats.function_cumulated_totals B) = Some b) /\
     (exists b, find f (Stats.function_counts B) = Some b) /\
     (exists b, find f (Stats.function_counts_nonrec B) = Some b)) ->
  forall (h : Stats.heap) (A : Stats.t),
  nth_error h self = Some A -> nth_error h stat = Some B -> aligned A ->
  exists h' A',
    for_each ks (fun f =>
      s <- Stats.deref self ;;
      (if negb (mem f (Stats.function_counts s)) then
         Stats.on self
           (modify (fun s => Stats.set_function_totals
                               (setitem f zero (Stats.function_totals s)) s) ;;;
            modify (fun s => Stats.set_function_cumulated_totals
                               (setitem f zero (Stats.function_cumulated_totals s)) s) ;;;
            modify (fun s => Stats.set_function_counts
                               (setitem f zero (Stats.function_counts s)) s) ;;;
            modify (fun s => Stats.set_function_counts_nonrec
                               (setitem f zero (Stats.function_counts_nonrec s)) s))
       else ret tt) ;;;
      Stats.iadd_field Stats.function_totals Stats.set_function_totals self stat f ;;;
      Stats.iadd_field Stats.function_cumulated_totals
        Stats.set_function_cumulated_totals self stat f ;;;
      Stats.iadd_field Stats.function_counts Stats.set_function_counts self stat f ;;;
      Stats.iadd_field Stats.function_counts_nonrec
        Stats.set_function_counts_nonrec self stat f) h
    = (h', Ok tt) /\
    nth_error h' self = Some A' /\ nth_error h' stat = Some B /\ aligned A' /\
    forall g,
      find g (Stats.function_totals A')
      = merged_on ks (Stats.function_totals A) (Stats.function_totals B) g /\
      find g (Stats.function_cumulated_totals A')
      = merged_on ks (Stats.function_cumulated_totals A)
          (Stats.function_cumulated_totals B) g /\
      find g (Stats.function_counts A')
      = merged_on ks (Stats.function_counts A) (Stats.function_counts B) g /\
      find g (Stats.function_counts_nonrec A')
      = merged_on ks (Stats.function_counts_nonrec A) (Stats.function_counts_nonrec B) g.
Proof.
  intros Hne Hnd. induction Hnd as [|f ks Hf Hnd IH]; intros HB h A HA HsB Hal.
  - exists h, A. split; [reflexivity|].
    split; [exact HA|]. split; [exact HsB|]. split; [exact Hal|].
    intros g. repeat split.
  - destruct (HB f (or_introl eq_refl)) as ([b1 F1] & [b2 F2] & [b3 F3] & [b4 F4]).
    destruct (function_pass self stat f h A B b1 b2 b3 b4 Hne HA HsB Hal F1 F2 F3 F4)
      as (h1 & A1 & Hrun & HA1 & HB1 & Hal1 & P1 & P2 & P3 & P4).
    destruct (IH (fun g Hg => HB g (or_intror Hg)) h1 A1 HA1 HB1 Hal1)
      as (h' & A' & Hrun' & HA' & HB' & Hal' & Hfind).
    exists h', A'. split.
    { rewrite for_each_cons. rewrite Hrun. exact Hrun'. }
    split; [exact HA'|]. split; [exact HB'|]. split; [exact Hal'|].
    intros g. destruct (Hfind g) as (E1 & E2 & E3 & E4).
    rewrite E1, E2, E3, E4.
    rewrite (merged_on_pass Stats.function_totals A A1 B f ks b1 Hf F1 P1),
            (merged_on_pass Stats.function_cumulated_totals A A1 B f ks b2 Hf F2 P2),
            (merged_on_pass Stats.function_counts A A1 B f ks b3 Hf F3 P3),
            (merged_on_pass Stats.function_counts_nonrec A A1 B f ks b4 Hf F4 P4).
    auto.
Qed.

Lemma merged_on_keys (a b : dict num) (g : string) (ks : list string) :
  keys b = ks -> merged_on ks a b g = merged a b g.
Proof.
  intros <-. unfold merged_on, merged.
  destruct (str_in g (keys b)) eqn:E; [reflexivity|].
  assert (find g b = None) as ->; [|reflexivity].
  apply find_None_keys. apply mem_false_keys. intros H.
  apply str_in_In in H. congruence.
Qed.

(** (X14) What a merge does to the four function-keyed maps.  Let the
    destination and the source be two different snapshots, each with its
    four maps listing the same functions, the source without repetition.
    After [_add_stat], whether it returns or raises in the later loop over
    the caller edges, every function of the source has in each map of the
    destination its former value, or zero if it was new, plus the source's
    value; the other functions are as they were, and the four maps still
    list the same functions. *)
Theorem merge_sums_function_maps (self stat : Stats.loc) (h : Stats.heap) (A B : Stats.t)
  (Hne : self <> stat)
  (HA : nth_error h self = Some A) (HB : nth_error h stat = Some B)
  (HalA : aligned A) (HalB : aligned B)
  (Hwf : dict_wf (Stats.function_totals B) = true) :
  exists A',
    nth_error (fst (Stats._add_stat self stat h)) self = Some A' /\
    aligned A' /\
    forall f,
      find f (Stats.function_totals A')
      = merged (Stats.function_totals A) (Stats.function_totals B) f /\
      find f (Stats.function_cumulated_totals A')
      = merged (Stats.function_cumulated_totals A) (Stats.function_cumulated_totals B) f /\
      find f (Stats.function_counts A')
      = merged (Stats.function_counts A) (Stats.function_counts B) f /\
      find f (Stats.function_counts_nonrec A')
      = merged (Stats.function_counts_nonrec A) (Stats.function_counts_nonrec B) f.
Proof.
  destruct HalB as [K2 [K3 K4]].
  assert (forall f, In f (keys (Stats.function_totals B)) ->
            (exists b, find f (Stats.function_totals B) = Some b) /\
            (exists b, find f (Stats.function_cumulated_totals B) = Some b) /\
            (exists b, find f (Stats.function_counts B) = Some b) /\
            (exists b, find f (Stats.function_counts_nonrec B) = Some b)) as Hsrc.
  { intros f Hf. repeat split; apply mem_find, mem_keys; congruence. }
  destruct (function_loop self stat B (keys (Stats.function_totals B)) Hne
              (proj1 (distinct_NoDup _) Hwf) Hsrc h A HA HB HalA)
    as (h1 & A1 & Hrun & HA1 & HB1 & Hal1 & Hfind).
  unfold Stats._add_stat.
  rewrite (bind_eq _ _ _ _ _ (deref_eq stat B h HB)).
  rewrite (bind_eq _ _ _ _ _ Hrun).
  match goal with
  | |- exists A', nth_error (fst (?m h1)) self = Some A' /\ _ =>
      assert (keeps_at function_maps self m) as Hk
          by (unfold Stats.sc_setitem; kept)
  end.
  destruct (Hk h1 A1 HA1) as [A' [HA' Hmaps]].
  exists A'. split; [exact HA'|].
  unfold function_maps in Hmaps. inversion Hmaps as [[M1 M2 M3 M4]].
  split.
  { unfold aligned in *. rewrite M1, M2, M3, M4. exact Hal1. }
  intros f. rewrite M1, M2, M3, M4. destruct (Hfind f) as (E1 & E2 & E3 & E4).
  rewrite E1, E2, E3, E4.
  rewrite !merged_on_keys by congruence. auto.
Qed.

Lemma merge_sums_function_maps_witness :
  let h := [Sample.only_f; Sample.g_then_f] in
  exists A',
    nth_error (fst (Stats._add_stat 0 1 h)) 0 = Some A' /\
    aligned A' /\
    forall f,
      find f (Stats.function_totals A')
      = merged (Stats.function_totals Sample.only_f)
          (Stats.function_totals Sample.g_then_f) f /\
      find f (Stats.function_cumulated_totals A')
      = merged (Stats.function_cumulated_totals Sample.only_f)
          (Stats.function_cumulated_totals Sample.g_then_f) f /\
      find f (Stats.function_counts A')
      = merged (Stats.function_counts Sample.only_f)
          (Stats.function_counts Sample.g_then_f) f /\
      find f (Stats.function_counts_nonrec A')
      = merged (Stats.function_counts_nonrec Sample.only_f)
          (Stats.function_counts_nonrec Sample.g_then_f) f.
Proof.
  apply (merge_sums_function_maps 0 1 [Sample.only_f; Sample.g_then_f]
           Sample.only_f Sample.g_then_f).
  - discriminate.
  - reflexivity.
  - reflexivity.
  - repeat split; reflexivity.
  - repeat split; reflexivity.
  - reflexivity.
Defined.

(** *** Sources that cannot be read *)

(** (X15) [add] reads a [str] argument as a storage key first and as JSON
    text only if local storage has no such key.  When the text so chosen
    cannot be parsed, [add] raises the parser's exception at that argument:
    the store is as it was and the arguments after it are not merged. *)
Theorem add_unreadable_source (json_loads : string -> result Json.json)
  (storage : dict string) (self : Stats.loc) (s : string) (rest : list Stats.source)
  (h : Stats.heap) (e : exn)
  (Hparse : json_loads (text_of storage s) = Raise e) :
  Stats.add json_loads storage self (Stats.Str s :: rest) h = (h, Raise e).
Proof.
  unfold Stats.add. rewrite for_each_cons.
  assert (forall text, json_loads text = Raise e ->
                       Stats.new json_loads text h = (h, Raise e)) as Hnew.
  { intros text H. unfold Stats.new, Stats.__init__, Stats.from_json.
    unfold bind, modify, lift. rewrite H. reflexivity. }
  unfold text_of, mem, getitem in *.
  destruct (find s storage) as [text|].
  - unfold bind, lift. rewrite (Hnew text Hparse). reflexivity.
  - unfold bind. rewrite (Hnew s Hparse). reflexivity.
Qed.

Lemma add_unreadable_source_witness :
  Stats.add SexpCodec.loads [("run1", "(obj")] 0
    [Stats.Str "run1"; Stats.Instance 1] [Sample.only_f; Sample.g_then_f]
  = ([Sample.only_f; Sample.g_then_f], Raise (ValueError "no document")).
Proof.
  apply (add_unreadable_source SexpCodec.loads [("run1", "(obj")] 0 "run1").
  vm_compute. reflexivity.
Defined.

(** ** The treemap, further *)

Lemma bind_Ok_inv {St A B} (m : M St A) (k : A -> M St B) (s s' : St) (b : B) :
  bind m k s = (s', Ok b) -> exists a s1, m s = (s1, Ok a) /\ k a s1 = (s', Ok b).
Proof.
  unfold bind. destruct (m s) as [s1 [a|e]]; [eauto|discriminate].
Qed.

Lemma sub_calls_profile_Ok (stats : Stats.t) (chain : option string)
  (p : dict Stats.profile) :
  Stats.sub_calls_profile stats chain = Ok p ->
  Stats.sub_calls stats chain = Ok [] /\ p = [].
Proof.
  unfold Stats.sub_calls_profile.
  destruct (Stats.sub_calls stats chain) as [[|f fs]|e]; simpl; try discriminate.
  intros H; inversion H; auto.
Qed.

(** (X16) A node that [MethodElement(...)] returns is a leaf below an
    existing node.  The constructor never returns for a root (no parent),
    and for a node with a parent it returns only when no function was
    called from the node's chain; the new node then has the parent's chain
    plus [->name], no children and no rectangle, and nothing else in the
    tree has changed. *)
Theorem node_is_built_as_leaf (name : string) (data : Stats.profile) (stats : Stats.t)
  (parent : option MethodElement.loc) (w w' : MethodElement.world) (l : MethodElement.loc)
  (Hbuilt : MethodElement.__init__ name data stats parent w = (w', Ok l)) :
  exists p pn,
    parent = Some p /\
    nth_error (MethodElement.nodes w
               ++ [MethodElement.mk name data (List.length (MethodElement.page w)) []
                     parent MethodElement.full "" None]) p = Some pn /\
    l = List.length (MethodElement.nodes w) /\
    MethodElement.nodes w'
    = MethodElement.nodes w
      ++ [MethodElement.mk name data (List.length (MethodElement.page w)) [] parent
            MethodElement.full (MethodElement._stack_hash pn ++ "->" ++ name) None] /\
    MethodElement.page w' = MethodElement.page w ++ [Dom.mk_element [] []] /\
    Stats.sub_calls stats (Some (MethodElement._stack_hash pn ++ "->" ++ name)%string)
    = Ok [].
Proof.
  unfold MethodElement.__init__ in Hbuilt.
  apply bind_Ok_inv in Hbuilt. destruct Hbuilt as (e & w1 & He & Hbuilt).
  unfold MethodElement.in_page, Dom.DIV in He. simpl in He.
  inversion He; subst e w1; clear He.
  apply bind_Ok_inv in Hbuilt. destruct Hbuilt as (self & w2 & Ha & Hbuilt).
  unfold MethodElement.alloc in Ha. simpl in Ha. inversion Ha; subst self w2; clear Ha.
  apply bind_Ok_inv in Hbuilt. destruct Hbuilt as ([] & w3 & Hp & Hbuilt).
  destruct parent as [p|].
  - apply bind_Ok_inv in Hp. destruct Hp as (pn & w4 & Hd & Hu).
    unfold MethodElement.deref in Hd. simpl in Hd.
    destruct (nth_error _ p) as [pn'|] eqn:Ep in Hd; [|discriminate].
    inversion Hd; subst pn' w4; clear Hd.
    unfold MethodElement.update in Hu. simpl in Hu.
    rewrite nth_error_app2 in Hu by apply Nat.le_refl.
    rewrite Nat.sub_diag in Hu. simpl in Hu. inversion Hu; subst w3; clear Hu.
    assert (forall (n n' : MethodElement.t) (ns : list MethodElement.t),
               MethodElement.store (List.length ns) n' (ns ++ [n]) = ns ++ [n']) as Hst.
    { intros n n' ns. induction ns as [|y ns IH]; simpl; [reflexivity|].
      rewrite IH. reflexivity. }
    rewrite Hst in Hbuilt.
    apply bind_Ok_inv in Hbuilt. destruct Hbuilt as (n & w5 & Hd & Hbuilt).
    unfold MethodElement.deref in Hd. simpl in Hd.
    rewrite nth_error_app2 in Hd by apply Nat.le_refl.
    rewrite Nat.sub_diag in Hd. simpl in Hd. inversion Hd; subst n w5; clear Hd.
    apply bind_Ok_inv in Hbuilt. destruct Hbuilt as (children & w6 & Hc & Hbuilt).
    unfold lift in Hc. simpl in Hc.
    destruct (Stats.sub_calls_profile stats _) as [ch|] eqn:Es in Hc; [|discriminate].
    inversion Hc; subst ch w6; clear Hc.
    apply sub_calls_profile_Ok in Es. destruct Es as [Es ->].
    simpl in Hbuilt. unfold bind, ret in Hbuilt. simpl in Hbuilt.
    inversion Hbuilt; subst w' l; clear Hbuilt.
    exists p, pn. simpl. repeat split; auto.
  - exfalso. apply bind_Ok_inv in Hp. destruct Hp as ([] & w4 & _ & Hr).
    unfold MethodElement.assign_rect in Hr. simpl in Hr. discriminate.
Qed.

Lemma node_is_built_as_leaf_witness :
  exists p pn,
    Some 0 = Some p /\
    nth_error (MethodElement.nodes Sample.tree
               ++ [MethodElement.mk "g" (Sample.some_profile 5)
                     (List.length (MethodElement.page Sample.tree)) []
                     (Some 0) MethodElement.full "" None]) p = Some pn /\
    2 = List.length (MethodElement.nodes Sample.tree) /\
    MethodElement.nodes
      (fst (MethodElement.__init__ "g" (Sample.some_profile 5) Sample.empty (Some 0)
              Sample.tree))
    = MethodElement.nodes Sample.tree
      ++ [MethodElement.mk "g" (Sample.some_profile 5)
            (List.length (MethodElement.page Sample.tree)) [] (Some 0)
            MethodElement.full (MethodElement._stack_hash pn ++ "->" ++ "g") None] /\
    MethodElement.page
      (fst (MethodElement.__init__ "g" (Sample.some_profile 5) Sample.empty (Some 0)
              Sample.tree))
    = MethodElement.page Sample.tree ++ [Dom.mk_element [] []] /\
    Stats.sub_calls Sample.empty (Some (MethodElement._stack_hash pn ++ "->" ++ "g")%string)
    = Ok [].
Proof.
  apply (node_is_built_as_leaf "g" (Sample.some_profile 5) Sample.empty (Some 0)
           Sample.tree _ 2).
  vm_compute. reflexivity.
Defined.

(** ** Navigation, further *)

Section TreeKept.

Lemma tree_kept_ret {A} (a : A) : tree_kept (ret a).
Proof. intros st. auto. Qed.

Lemma tree_kept_raise {A} (e : exn) : tree_kept (@raise CallGrind.state A e).
Proof. intros st. auto. Qed.

Lemma tree_kept_lift {A} (r : result A) : tree_kept (lift r).
Proof. intros st. auto. Qed.

Lemma tree_kept_self : tree_kept CallGrind.self.
Proof. intros st. auto. Qed.

Lemma tree_kept_set_zoomed (z : option MethodElement.loc) :
  tree_kept (CallGrind.set_self
               (fun c => CallGrind.mk (CallGrind._element c) (CallGrind._root c) z)).
Proof. intros st. auto. Qed.

Lemma tree_kept_in_page {A} (m : M Dom.dom A) :
  tree_kept (CallGrind.in_world (MethodElement.in_page m)).
Proof.
  intros [w c]. unfold CallGrind.in_world, MethodElement.in_page. simpl.
  destruct (m (MethodElement.page w)) as [d r]. auto.
Qed.

Lemma tree_kept_deref (l : MethodElement.loc) :
  tree_kept (CallGrind.in_world (MethodElement.deref l)).
Proof.
  intros [w c]. unfold CallGrind.in_world, MethodElement.deref. simpl.
  destruct (nth_error (MethodElement.nodes w) l); auto.
Qed.

Lemma tree_kept_bind {A B} (m : M CallGrind.state A) (k : A -> M CallGrind.state B) :
  tree_kept m -> (forall a, tree_kept (k a)) -> tree_kept (bind m k).
Proof.
  intros Hm Hk st. unfold bind. destruct (Hm st) as (H1 & H2 & H3).
  destruct (m st) as [st' [a|e]]; simpl in *; [|auto].
  destruct (Hk a st') as (K1 & K2 & K3). repeat split; congruence.
Qed.

End TreeKept.

Ltac tree :=
  repeat first
    [ apply tree_kept_ret | apply tree_kept_raise | apply tree_kept_lift
    | apply tree_kept_self | apply tree_kept_set_zoomed
    | apply tree_kept_in_page | apply tree_kept_deref
    | apply tree_kept_bind; [|intros]
    | match goal with
      | |- tree_kept (if ?c then _ else _) => destruct c
      | |- tree_kept (match ?x with _ => _ end) => destruct x
      end ].

(** (X17) Navigation leaves the tree alone.  Whatever [zoom_in], [zoom_out]
    and [__ge__] do, and whether they return or raise, every node keeps its
    name, profile, children, parent, free rectangle and rectangle, no node
    is added or removed, and the controller keeps its root and its own
    element.  They can only move page elements and, for [zoom_in], change
    which node is shown. *)
Theorem navigation_keeps_the_tree (func_name : string) (elt : Dom.elt) :
  tree_kept (CallGrind.zoom_in func_name) /\
  tree_kept CallGrind.zoom_out /\
  tree_kept (CallGrind.__ge__ elt).
Proof.
  split; [|split].
  - unfold CallGrind.zoom_in, CallGrind.getattr_children, CallGrind.getattr_element. tree.
  - unfold CallGrind.zoom_out, CallGrind.getattr_node, CallGrind.getattr_element. tree.
  - unfold CallGrind.__ge__. tree.
Qed.

Lemma nth_error_update_same (e : Dom.elt) (f : Dom.element -> Dom.element) (d : Dom.dom) :
  nth_error (Dom.update e f d) e = option_map f (nth_error d e).
Proof.
  revert e. induction d as [|x d IH]; intros [|e]; simpl; auto.
Qed.

Lemma bind_step {St A B} (m : M St A) (k : A -> M St B) (s s' : St) (a : A)
  (r : St * result B) :
  m s = (s', Ok a) -> k a s' = r -> bind m k s = r.
Proof. unfold bind. intros -> H. exact H. Qed.

Lemma getattr_children_eq (w : MethodElement.world) (c : CallGrind.t)
  (l : MethodElement.loc) (n : MethodElement.t) :
  nth_error (MethodElement.nodes w) l = Some n ->
  CallGrind.getattr_children (Some l) (w, c) = ((w, c), Ok (MethodElement._children n)).
Proof.
  intros H. unfold CallGrind.getattr_children, CallGrind.in_world, MethodElement.deref, bind.
  simpl. rewrite H. reflexivity.
Qed.

Lemma getattr_element_eq (w : MethodElement.world) (c : CallGrind.t)
  (l : MethodElement.loc) (n : MethodElement.t) :
  nth_error (MethodElement.nodes w) l = Some n ->
  CallGrind.getattr_element (Some l) (w, c) = ((w, c), Ok (MethodElement._element n)).
Proof.
  intros H. unfold CallGrind.getattr_element, CallGrind.in_world, MethodElement.deref, bind.
  simpl. rewrite H. reflexivity.
Qed.

Lemma removeChild_eq (w : MethodElement.world) (c : CallGrind.t) (parent child : Dom.elt)
  (x : Dom.element) :
  nth_error (MethodElement.page w) parent = Some x ->
  existsb (Nat.eqb child) (Dom.kids x) = true ->
  CallGrind.in_world (MethodElement.in_page (Dom.removeChild parent child)) (w, c)
  = ((MethodElement.mk_world
        (Dom.update parent
           (fun x => Dom.mk_element (Dom.without child (Dom.kids x)) (Dom.style x))
           (MethodElement.page w))
        (MethodElement.nodes w), c), Ok tt).
Proof.
  intros Hx Hm.
  unfold CallGrind.in_world, MethodElement.in_page, Dom.removeChild, bind, get.
  simpl. rewrite Hx, Hm. reflexivity.
Qed.

Lemma append_eq (w : MethodElement.world) (c : CallGrind.t) (parent child : Dom.elt) :
  CallGrind.in_world (MethodElement.in_page (Dom.append parent child)) (w, c)
  = ((MethodElement.mk_world
        (Dom.update parent
           (fun x => Dom.mk_element (Dom.kids x ++ [child]) (Dom.style x))
           (map (fun x => Dom.mk_element (Dom.without child (Dom.kids x)) (Dom.style x))
              (MethodElement.page w)))
        (MethodElement.nodes w), c), Ok tt).
Proof. reflexivity. Qed.

(** (X18) [zoom_in] to a child.  Let the controller show a node whose page
    element is among the children of the controller's element, and let that
    node have a child under the given name.  Then [zoom_in] returns, the
    controller shows the child, and the controller's element has lost the
    node's element and has the child's element as its last child; the nodes
    are as they were. *)
Theorem zoom_in_to_child (w : MethodElement.world) (c : CallGrind.t) (func_name : string)
  (l child : MethodElement.loc) (n cn : MethodElement.t) (x : Dom.element)
  (Hzoomed : CallGrind._zoomed_element c = Some l)
  (Hnode : nth_error (MethodElement.nodes w) l = Some n)
  (Hchild : find func_name (MethodElement._children n) = Some child)
  (Hcnode : nth_error (MethodElement.nodes w) child = Some cn)
  (Helement : nth_error (MethodElement.page w) (CallGrind._element c) = Some x)
  (Hmounted : existsb (Nat.eqb (MethodElement._element n)) (Dom.kids x) = true) :
  exists page',
    CallGrind.zoom_in func_name (w, c)
    = ((MethodElement.mk_world page' (MethodElement.nodes w),
        CallGrind.mk (CallGrind._element c) (CallGrind._root c) (Some child)), Ok tt) /\
    option_map Dom.kids (nth_error page' (CallGrind._element c))
    = Some (Dom.without (MethodElement._element cn)
              (Dom.without (MethodElement._element n) (Dom.kids x))
            ++ [MethodElement._element cn]).
Proof.
  eexists. split.
  - unfold CallGrind.zoom_in.
    eapply bind_step; [reflexivity|]. cbn [fst snd]. rewrite Hzoomed.
    eapply bind_step; [exact (getattr_children_eq w c l n Hnode)|].
    unfold mem. rewrite Hchild. cbn [negb].
    eapply bind_step; [exact (getattr_element_eq w c l n Hnode)|].
    eapply bind_step; [exact (removeChild_eq w c _ _ x Helement Hmounted)|].
    eapply bind_step; [apply getattr_children_eq; exact Hnode|].
    unfold getitem. rewrite Hchild.
    eapply bind_step; [reflexivity|]. cbn [fst snd CallGrind._zoomed_element CallGrind._element CallGrind._root].
    eapply bind_step; [reflexivity|]. cbn [fst snd CallGrind._zoomed_element CallGrind._element CallGrind._root].
    eapply bind_step; [reflexivity|]. cbn [fst snd CallGrind._zoomed_element CallGrind._element CallGrind._root].
    eapply bind_step; [apply getattr_element_eq; exact Hcnode|].
    rewrite append_eq. cbn [MethodElement.page MethodElement.nodes]. reflexivity.
  - rewrite nth_error_update_same, nth_error_map, nth_error_update_same, Helement.
    reflexivity.
Qed.

Lemma zoom_in_to_child_witness :
  exists page',
    CallGrind.zoom_in "f" (Sample.tree, Sample.at_root)
    = ((MethodElement.mk_world page' (MethodElement.nodes Sample.tree),
        CallGrind.mk 0 (Some 0) (Some 1)), Ok tt) /\
    option_map Dom.kids (nth_error page' 0) = Some [2].
Proof.
  apply (zoom_in_to_child Sample.tree Sample.at_root "f" 0 1
           (MethodElement.mk "Top" (Sample.some_profile 100) 1 [("f", 1)] None
              MethodElement.full ":Top" (Some MethodElement.full))
           (MethodElement.mk "f" (Sample.some_profile 50) 2 [] (Some 0)
              MethodElement.full ":Top->f"
              (Some (zero, zero, MethodElement.hundred, num_of_Z 50)))
           (Dom.mk_element [1] [])); reflexivity.
Defined.

(** (X19) [load_data] builds nothing.  It asks the snapshot for
    [caller_data], a method no [Stats] object has, so it raises
    [AttributeError] for every snapshot and in every state, before a node or
    a page element is made: the state is as it was, and a controller that
    showed nothing still shows nothing. *)
Theorem load_data_builds_nothing (stats : Stats.t) (st : CallGrind.state) :
  CallGrind.load_data stats st = (st, Raise (AttributeError "caller_data")).
Proof.
  unfold CallGrind.load_data, CallGrind.Stats_call. simpl. reflexivity.
Qed.
